(** * gpupgparser: the PostgreSQL COPY BINARY segmenter, the decode kernel
      and the chunk loop of [test_postgres_binary_cuda_parser_numba_optimized.py]

    The development embeds the Python/Numba program as Rocq functions:
    - host arrays (NumPy arrays, Python lists) are [list Z];
    - the three device output buffers are zero-initialised arrays with a
      size ([devarray]);
    - fixed-width integers are [Z] with the casts written out
      ([to_int16], [to_int32], [to_int64], [to_uint8]);
    - everything that can go wrong lives in the [result] monad: a Python
      exception ([ValueError]), an array access outside its allocation
      (Numba compiles both [@njit] and [@cuda.jit] code without bounds
      checks, so such an access is undefined: the model stops with
      [OutOfRange]), and a loop that has not finished within its fuel. *)

From Stdlib Require Import ZArith List String Ascii Bool Lia.
Import ListNotations.
Open Scope Z_scope.

(** ** Results and errors *)

Inductive error : Type :=
| OutOfRange                (* unchecked array access outside the array *)
| OutOfFuel                 (* the loop did not finish within the fuel *)
| ValueError (msg : string) (* Python [raise ValueError(msg)] *)
| ZeroDivisionError         (* Python [//] by zero *)
| TypingError               (* Numba cannot type the kernel for its arguments *)
| ShapeMismatch.            (* [copy_to_host] into an array of another size *)

Inductive result (A : Type) : Type :=
| Ok (a : A)
| Err (e : error).
Arguments Ok {A} a.
Arguments Err {A} e.

Definition bind {A B : Type} (r : result A) (k : A -> result B) : result B :=
  match r with
  | Ok a => k a
  | Err e => Err e
  end.

Notation "x <- r ;; k" := (bind r (fun x => k))
  (at level 61, r at next level, right associativity).

(** ** Machine integers *)

Definition to_uint8 (x : Z) : Z := x mod 256.
Definition to_int16 (x : Z) : Z := (x + 32768) mod 65536 - 32768.
Definition to_int32 (x : Z) : Z := (x + 2147483648) mod 4294967296 - 2147483648.
Definition to_int64 (x : Z) : Z :=
  (x + 9223372036854775808) mod 18446744073709551616 - 9223372036854775808.

(** ** Host arrays *)

Definition len (a : list Z) : Z := Z.of_nat (List.length a).

(** [a[i]] as Numba compiles it: a negative index counts from the end, and
    nothing checks the range. *)
Definition getitem (a : list Z) (i : Z) : result Z :=
  let j := if i <? 0 then i + len a else i in
  if (0 <=? j) && (j <? len a)
  then Ok (nth (Z.to_nat j) a 0)
  else Err OutOfRange.

(** [a[lo:]] and [a[:hi]] for non-negative bounds. *)
Definition slice_from (a : list Z) (lo : Z) : list Z := skipn (Z.to_nat lo) a.
Definition slice_to (a : list Z) (hi : Z) : list Z := firstn (Z.to_nat hi) a.

Fixpoint list_eqb (a b : list Z) : bool :=
  match a, b with
  | [], [] => true
  | x :: a', y :: b' => (x =? y) && list_eqb a' b'
  | _, _ => false
  end.

(** ** Device helpers: [check_bounds] and [decode_int32] *)

Definition check_bounds (data : list Z) (pos size : Z) : bool :=
  (0 <=? pos) && (pos + size <=? len data).

Definition decode_int32 (data : list Z) (pos : Z) : result Z :=
  if negb (check_bounds data pos 4) then Ok 0
  else
    b0 <- getitem data pos ;;
    b1 <- getitem data (pos + 1) ;;
    b2 <- getitem data (pos + 2) ;;
    b3 <- getitem data (pos + 3) ;;
    let val :=
      Z.lor (Z.lor (Z.lor (Z.shiftl (Z.land b0 255) 24)
                          (Z.shiftl (Z.land b1 255) 16))
                   (Z.shiftl (Z.land b2 255) 8))
            (Z.land b3 255) in
    if Z.land val 2147483648 =? 0 then Ok val
    else Ok (- (Z.land val 2147483647)).

(** ** The tuple segmenter: [parse_binary_chunk] *)

Definition header : list Z := [80; 71; 67; 79; 80; 89; 10; 255; 13; 10; 0].

Record pstate : Type := mkP {
  pos : Z;
  field_offsets : list Z;
  field_lengths : list Z
}.

(** How the [for _ in range(num_fields)] loop ends: it runs out or hits
    [break] (the [while] loop goes on), or it hits the [return]. *)
Inductive for_exit : Type :=
| Next (st : pstate)
| Returned (st : pstate).

(** The field-length word at lines 277-287: four bytes, big-endian, then the
    sign fix-up [-((~field_len + 1) & 0xFFFFFFFF)]. *)
Definition read_field_len (b0 b1 b2 b3 : Z) : Z :=
  let field_len :=
    Z.lor (Z.lor (Z.lor (Z.shiftl (Z.land b0 255) 24)
                        (Z.shiftl (Z.land b1 255) 16))
                 (Z.shiftl (Z.land b2 255) 8))
          (Z.land b3 255) in
  if Z.land field_len 2147483648 =? 0 then field_len
  else - (Z.land (Z.lnot field_len + 1) 4294967295).

Fixpoint parse_fields (n : nat) (chunk_array : list Z) (st : pstate)
  : result for_exit :=
  match n with
  | O => Ok (Next st)
  | S n' =>
    if pos st + 4 >? len chunk_array then Ok (Next st)
    else
      b0 <- getitem chunk_array (pos st) ;;
      b1 <- getitem chunk_array (pos st + 1) ;;
      b2 <- getitem chunk_array (pos st + 2) ;;
      b3 <- getitem chunk_array (pos st + 3) ;;
      let field_len := read_field_len b0 b1 b2 b3 in
      let p := pos st + 4 in
      if field_len =? -1 then
        parse_fields n' chunk_array
          (mkP p (field_offsets st ++ [0]) (field_lengths st ++ [-1]))
      else if p + field_len >? len chunk_array then
        Ok (Returned (mkP p (field_offsets st) (field_lengths st)))
      else
        parse_fields n' chunk_array
          (mkP (p + field_len) (field_offsets st ++ [p])
               (field_lengths st ++ [field_len]))
  end.

(** [np.array(field_offsets, dtype=np.int32), np.array(field_lengths, ...)] *)
Definition spans_of (st : pstate) : list Z * list Z :=
  (map to_int32 (field_offsets st), map to_int32 (field_lengths st)).

(** The [while pos + 2 <= len(chunk_array)] loop.  The loop has no bound of
    its own, so the model takes fuel: one unit per iteration. *)
Fixpoint parse_tuples (fuel : nat) (chunk_array : list Z) (st : pstate)
  : result (list Z * list Z) :=
  match fuel with
  | O => Err OutOfFuel
  | S fuel' =>
    if pos st + 2 <=? len chunk_array then
      hi <- getitem chunk_array (pos st) ;;
      lo <- getitem chunk_array (pos st + 1) ;;
      let num_fields := to_int16 (Z.lor (Z.shiftl hi 8) lo) in
      if num_fields =? -1 then Ok (spans_of st)
      else
        r <- parse_fields (Z.to_nat num_fields) chunk_array
               (mkP (pos st + 2) (field_offsets st) (field_lengths st)) ;;
        match r with
        | Next st' => parse_tuples fuel' chunk_array st'
        | Returned st' => Ok (spans_of st')
        end
    else Ok (spans_of st)
  end.

Definition be32 (b0 b1 b2 b3 : Z) : Z :=
  Z.lor (Z.lor (Z.lor (Z.shiftl b0 24) (Z.shiftl b1 16)) (Z.shiftl b2 8)) b3.

(** The position after the optional stream header (lines 246-260). *)
Definition skip_header (chunk_array : list Z) (header_expected : bool)
  : result Z :=
  if header_expected && (11 <=? len chunk_array) then
    if list_eqb (slice_to chunk_array 11) header then
      if 11 + 8 <=? len chunk_array then
        f0 <- getitem chunk_array 11 ;;
        f1 <- getitem chunk_array 12 ;;
        f2 <- getitem chunk_array 13 ;;
        f3 <- getitem chunk_array 14 ;;
        let flags := to_int32 (be32 f0 f1 f2 f3) in
        e0 <- getitem chunk_array 15 ;;
        e1 <- getitem chunk_array 16 ;;
        e2 <- getitem chunk_array 17 ;;
        e3 <- getitem chunk_array 18 ;;
        let ext_len := to_int32 (be32 e0 e1 e2 e3) in
        Ok (15 + (4 + ext_len))
      else Ok 11
    else Ok 0
  else Ok 0.

Definition parse_binary_chunk (fuel : nat) (chunk_array : list Z)
  (header_expected : bool) : result (list Z * list Z) :=
  p <- skip_header chunk_array header_expected ;;
  parse_tuples fuel chunk_array (mkP p [] []).

(** ** Column layout: [get_column_type] and [get_column_length] *)

Record ColumnInfo : Type := mkColumn {
  name : string;
  type : string;
  length : option Z
}.

Definition unsupported (type_name : string) : error :=
  ValueError ("Unsupported column type: " ++ type_name).

Definition get_column_type (type_name : string) : result Z :=
  if String.eqb type_name "integer" then Ok 0
  else if String.eqb type_name "numeric" || String.eqb type_name "decimal"
  then Ok 1
  else if String.prefix "character" type_name || String.prefix "text" type_name
  then Ok 2
  else Err (unsupported type_name).

(** [int(length) if length else 256]: [None] and [0] are both falsy. *)
Definition get_column_length (type_name : string) (length : option Z)
  : result Z :=
  if String.eqb type_name "integer" then Ok 4
  else if String.eqb type_name "numeric" || String.eqb type_name "decimal"
  then Ok 8
  else if String.prefix "character" type_name then
    match length with
    | Some n => if n =? 0 then Ok 256 else Ok n
    | None => Ok 256
    end
  else if String.eqb type_name "text" then Ok 1024
  else Err (unsupported type_name).

(** ** Device arrays *)

(** A device array: its size and its cells.  [np.zeros] gives [dev_zeros]. *)
Record devarray : Type := mkDev {
  dsize : Z;
  dcell : Z -> Z
}.

Definition dev_zeros (n : Z) : devarray := mkDev n (fun _ => 0).

Definition dev_index (a : devarray) (i : Z) : result Z :=
  let j := if i <? 0 then i + dsize a else i in
  if (0 <=? j) && (j <? dsize a) then Ok j else Err OutOfRange.

Definition dev_get (a : devarray) (i : Z) : result Z :=
  j <- dev_index a i ;; Ok (dcell a j).

Definition dev_set (a : devarray) (i v : Z) : result devarray :=
  j <- dev_index a i ;;
  Ok (mkDev (dsize a) (fun k => if k =? j then v else dcell a k)).

(** [a[lo:hi].copy_to_host(host)] where [host] has [hi - lo] cells: the
    slice is clipped to the array, and a clipped slice no longer fits. *)
Definition dev_copy_to_host (a : devarray) (lo hi : Z) : result (list Z) :=
  if (0 <=? lo) && (lo <=? hi) && (hi <=? dsize a)
  then Ok (map (fun k => dcell a (lo + Z.of_nat k)) (seq 0 (Z.to_nat (hi - lo))))
  else Err ShapeMismatch.

(** The three output buffers of [_initialize_device_buffers]. *)
Record outputs : Type := mkOut {
  int_outputs : devarray;
  str_outputs : devarray;
  str_null_pos : devarray
}.

(** ** Loops *)

(** [range(start, stop, step)] for a positive step. *)
Definition range3 (start stop step : Z) : list Z :=
  map (fun k => start + step * Z.of_nat k)
      (seq 0 (Z.to_nat ((stop - start + step - 1) / step))).

Definition range (n : Z) : list Z := range3 0 n 1.

Fixpoint for_each {S : Type} (l : list Z) (body : Z -> S -> result S) (s : S)
  : result S :=
  match l with
  | [] => Ok s
  | i :: l' => s' <- body i s ;; for_each l' body s'
  end.

(** ** [bulk_copy_64bytes] *)

Definition bulk_copy_64bytes (src : list Z) (src_pos : Z) (dst : devarray)
  (dst_pos size : Z) : result devarray :=
  let size := if size >? 64 then 64 else size in
  for_each (range3 0 size 8) (fun i dst =>
    if i + 8 <=? size then
      val <- for_each (range 8) (fun j val =>
               b <- getitem src (src_pos + i + j) ;;
               Ok (to_int64 (Z.lor (to_int64 (Z.shiftl val 8)) b))) 0 ;;
      for_each (range 8) (fun j dst =>
        dev_set dst (dst_pos + i + j)
          (to_uint8 (Z.land (Z.shiftr val ((7 - j) * 8)) 255))) dst
    else
      for_each (range (size - i)) (fun j dst =>
        b <- getitem src (src_pos + i + j) ;;
        dev_set dst (dst_pos + i + j) (to_uint8 b)) dst) dst.

(** ** [decode_all_columns_kernel] *)

(** The scan for the first zero byte: [valid_end] stays [valid_length] when
    there is none. *)
Fixpoint find_null (l : list Z) (str : devarray) (dst_pos valid_end : Z)
  : result Z :=
  match l with
  | [] => Ok valid_end
  | i :: l' =>
    b <- dev_get str (dst_pos + i) ;;
    if b =? 0 then Ok i else find_null l' str dst_pos valid_end
  end.

(** [while valid_start < valid_end and str[dst_pos + valid_start] <= 32]:
    at most [valid_end - valid_start] rounds, which is what [n] counts. *)
Fixpoint trim_start (n : nat) (str : devarray) (dst_pos valid_start valid_end : Z)
  : result Z :=
  match n with
  | O => Ok valid_start
  | S n' =>
    if valid_start <? valid_end then
      b <- dev_get str (dst_pos + valid_start) ;;
      if b <=? 32
      then trim_start n' str dst_pos (valid_start + 1) valid_end
      else Ok valid_start
    else Ok valid_start
  end.

(** [while valid_end > valid_start and str[dst_pos + valid_end - 1] <= 32] *)
Fixpoint trim_end (n : nat) (str : devarray) (dst_pos valid_start valid_end : Z)
  : result Z :=
  match n with
  | O => Ok valid_end
  | S n' =>
    if valid_end >? valid_start then
      b <- dev_get str (dst_pos + valid_end - 1) ;;
      if b <=? 32
      then trim_end n' str dst_pos valid_start (valid_end - 1)
      else Ok valid_end
    else Ok valid_end
  end.

(** The read-only kernel arguments. *)
Record kargs : Type := mkArgs {
  raw_data : list Z;
  k_field_offsets : list Z;
  k_field_lengths : list Z;
  col_types : list Z;
  col_lengths : list Z;
  chunk_size : Z;
  num_cols : Z
}.

(** How the body of [for col in range(num_cols)] ends: normally (also by
    [continue]), or by the [return] that ends the whole thread. *)
Inductive cell_exit : Type :=
| CellDone (o : outputs)
| ThreadReturn (o : outputs).

Definition kernel_text_cell (a : kargs) (row col pos length : Z) (o : outputs)
  : result outputs :=
  max_length <- getitem (col_lengths a) col ;;
  let dst_pos := (col * chunk_size a + row) * max_length in
  let slot := col * chunk_size a + row in
  if length =? -1 then
    np <- dev_set (str_null_pos o) slot 0 ;;
    Ok (mkOut (int_outputs o) (str_outputs o) np)
  else
    let valid_length := Z.min length max_length in
    str <- for_each (range3 0 valid_length 64) (fun i str =>
             let copy_size := Z.min 64 (valid_length - i) in
             bulk_copy_64bytes (raw_data a) (pos + i) str (dst_pos + i) copy_size)
           (str_outputs o) ;;
    valid_end <- find_null (range valid_length) str dst_pos valid_length ;;
    valid_start <- trim_start (Z.to_nat valid_end) str dst_pos 0 valid_end ;;
    valid_end <- trim_end (Z.to_nat (valid_end - valid_start)) str dst_pos
                   valid_start valid_end ;;
    np <- dev_set (str_null_pos o) slot
            (if valid_end >? valid_start
             then to_int32 (Z.lor (Z.shiftl valid_start 16) valid_end)
             else 0) ;;
    Ok (mkOut (int_outputs o) str np).

Definition kernel_numeric_cell (a : kargs) (row col pos length ctype : Z)
  (o : outputs) : result outputs :=
  let slot := col * chunk_size a + row in
  if length =? -1 then
    io <- dev_set (int_outputs o) slot 0 ;;
    Ok (mkOut io (str_outputs o) (str_null_pos o))
  else
    val <- decode_int32 (raw_data a) pos ;;
    io <- (if ctype =? 0
           then dev_set (int_outputs o) slot (to_int32 val)
           else dev_set (int_outputs o) slot (to_int32 val)) ;;
    Ok (mkOut io (str_outputs o) (str_null_pos o)).

Definition kernel_cell (a : kargs) (row col : Z) (o : outputs)
  : result cell_exit :=
  let field_idx := row * num_cols a + col in
  if field_idx >=? len (k_field_offsets a) then Ok (ThreadReturn o)
  else
    pos <- getitem (k_field_offsets a) field_idx ;;
    length <- getitem (k_field_lengths a) field_idx ;;
    ctype <- getitem (col_types a) col ;;
    if ctype <=? 1 then
      o' <- kernel_numeric_cell a row col pos length ctype o ;;
      Ok (CellDone o')
    else
      o' <- kernel_text_cell a row col pos length o ;;
      Ok (CellDone o').

Fixpoint kernel_cols (a : kargs) (row : Z) (cols : list Z) (o : outputs)
  : result cell_exit :=
  match cols with
  | [] => Ok (CellDone o)
  | col :: cols' =>
    r <- kernel_cell a row col o ;;
    match r with
    | CellDone o' => kernel_cols a row cols' o'
    | ThreadReturn o' => Ok (ThreadReturn o')
    end
  end.

(** One thread: [while row < chunk_size: ...; row += stride].  With a
    positive stride the loop makes at most [chunk_size - row] rounds, which
    is what [n] counts. *)
Fixpoint kernel_thread (n : nat) (a : kargs) (row stride : Z) (o : outputs)
  : result outputs :=
  match n with
  | O => Ok o
  | S n' =>
    if row <? chunk_size a then
      r <- kernel_cols a row (range (num_cols a)) o ;;
      match r with
      | CellDone o' => kernel_thread n' a (row + stride) stride o'
      | ThreadReturn o' => Ok o'
      end
    else Ok o
  end.

(** [decode_all_columns_kernel[blocks, threads_per_block](...)]: every
    thread of the grid, run one after the other in the order of their
    global index.  On the device the threads run concurrently, and the
    result is the one computed here only when no two threads write the same
    cell.  That is so for a chunk of one row, and for any chunk whose text
    columns all have the same width; with text columns of different widths
    the arena slots [(col * chunk_size + row) * col_lengths[col]] of
    different rows overlap, the device's result depends on the order of the
    threads, and this definition gives one of the possible results.  What is
    proved of a single thread or a single cell does not depend on the
    order. *)
Definition decode_all_columns_kernel (blocks threads_per_block : Z)
  (a : kargs) (o : outputs) : result outputs :=
  for_each (range blocks) (fun block_id o =>
    for_each (range threads_per_block) (fun thread_id o =>
      let row := block_id * threads_per_block + thread_id in
      let stride := threads_per_block * blocks in
      kernel_thread (Z.to_nat (chunk_size a - row)) a row stride o) o) o.

(** ** Host side: [ChunkConfig] and [_initialize_device_buffers] *)

Record ChunkConfig : Type := mkConfig {
  rows_per_chunk : Z;
  num_chunks : Z
}.

(** [ChunkConfig(total_rows)]; Python's [//] rounds down, as [Z.div] does
    for a positive divisor. *)
Definition new_ChunkConfig (total_rows : Z) : result ChunkConfig :=
  let rows_per_chunk := Z.min 4096 total_rows in
  if rows_per_chunk =? 0 then Err ZeroDivisionError
  else Ok (mkConfig rows_per_chunk
             ((total_rows + rows_per_chunk - 1) / rows_per_chunk)).

(** What the column loop of [_initialize_device_buffers] collects. *)
Record layout : Type := mkLayout {
  l_col_types : list Z;
  l_col_lengths : list Z;
  max_str_length : Z;
  num_int_cols : Z;
  num_str_cols : Z
}.

Fixpoint collect_layout (columns : list ColumnInfo) (l : layout)
  : result layout :=
  match columns with
  | [] => Ok l
  | col :: columns' =>
    col_type <- get_column_type (type col) ;;
    width <- get_column_length (type col) (length col) ;;
    if col_type <=? 1 then
      collect_layout columns'
        (mkLayout (l_col_types l ++ [col_type]) (l_col_lengths l ++ [width])
                  (max_str_length l) (num_int_cols l + 1) (num_str_cols l))
    else
      collect_layout columns'
        (mkLayout (l_col_types l ++ [col_type]) (l_col_lengths l ++ [width])
                  (Z.max (max_str_length l) width)
                  (num_int_cols l) (num_str_cols l + 1))
  end.

(** The buffers, each [None] when the table has no column of its kind. *)
Record buffers : Type := mkBuffers {
  int_buffer : option devarray;
  str_buffer : option devarray;
  b_str_null_pos : option devarray;
  b_col_types : list Z;
  b_col_lengths : list Z
}.

Definition initialize_device_buffers (columns : list ColumnInfo)
  (chunk_size : Z) : result buffers :=
  l <- collect_layout columns (mkLayout [] [] 0 0 0) ;;
  let int_buffer_size := chunk_size * num_int_cols l in
  let str_buffer_size := chunk_size * num_str_cols l * max_str_length l in
  let str_null_pos_size := chunk_size * num_str_cols l in
  Ok (mkBuffers
        (if num_int_cols l >? 0 then Some (dev_zeros int_buffer_size) else None)
        (if num_str_cols l >? 0 then Some (dev_zeros str_buffer_size) else None)
        (if num_str_cols l >? 0 then Some (dev_zeros str_null_pos_size) else None)
        (l_col_types l) (l_col_lengths l)).

(** ** Host side: [_read_and_parse_chunk] *)

(** [io.BytesIO]: the bytes and the read position. *)
Record BytesIO : Type := mkIO {
  getvalue : list Z;
  tell : Z
}.

Definition io_read (b : BytesIO) (n : Z) : list Z * BytesIO :=
  let chunk := slice_to (slice_from (getvalue b) (tell b)) n in
  (chunk, mkIO (getvalue b) (tell b + len chunk)).

Definition io_seek (b : BytesIO) (p : Z) : BytesIO := mkIO (getvalue b) p.

(** The processor's own state: [header_expected] and the attribute
    [_remaining_data], which exists or not. *)
Record processor : Type := mkProc {
  header_expected : bool;
  remaining_data : option (list Z)
}.

(** The state of the retry loop.  [a_parses] is not a variable of the
    program: it counts the calls of [parse_binary_chunk], for the proofs. *)
Record attempt_state : Type := mkAttempt {
  a_self : processor;
  a_io : BytesIO;
  a_chunk_array : list Z;
  a_spans : list Z * list Z;
  a_parses : nat
}.

(** [while attempts < max_attempts]: [k] counts the rounds that are left. *)
Fixpoint attempt_loop (k : nat) (fuel : nat) (chunk_size : Z) (s : attempt_state)
  : result attempt_state :=
  match k with
  | O => Ok s
  | S k' =>
    spans <- parse_binary_chunk fuel (a_chunk_array s)
               (header_expected (a_self s)) ;;
    let self := mkProc false (remaining_data (a_self s)) in
    let chunk_array := a_chunk_array s in
    let parses := S (a_parses s) in
    let last_field_end := last (fst spans) 0 + Z.max 0 (last (snd spans) 0) in
    if (len (fst spans) >? 0) && (last_field_end <=? len chunk_array) then
      Ok (mkAttempt
            (if last_field_end <? len chunk_array
             then mkProc false (Some (slice_from chunk_array last_field_end))
             else self)
            (a_io s) chunk_array spans parses)
    else
      let (chunk, io) := io_read (a_io s) chunk_size in
      if len chunk =? 0 then Ok (mkAttempt self io chunk_array spans parses)
      else attempt_loop k' fuel chunk_size
             (mkAttempt self io (chunk_array ++ chunk) spans parses)
  end.

(** A parsed chunk as [_read_and_parse_chunk] returns it ([None] is
    [None]).  The model returns with it the processor and the stream, which
    the method changes in place, and the count of segmenter calls. *)
Record chunk_data : Type := mkChunk {
  d_chunk : list Z;
  d_offsets : list Z;
  d_lengths : list Z;
  rows_in_chunk : Z
}.

Definition max_attempts : nat := 3.

Definition read_and_parse_chunk (fuel : nat) (columns : list ColumnInfo)
  (config : ChunkConfig) (self : processor) (copy_data : BytesIO)
  (chunk_size : Z)
  : result (option chunk_data * processor * BytesIO * nat) :=
  let start :=
    match remaining_data self with
    | Some r => (Some r, mkProc (header_expected self) None, copy_data)
    | None =>
      let current_pos := tell copy_data in
      let (chunk, io) := io_read copy_data chunk_size in
      if len chunk =? 0 then
        if current_pos >? 0 then
          let (chunk, io) := io_read (io_seek io 0) chunk_size in
          if len chunk =? 0 then (None, self, io) else (Some chunk, self, io)
        else (None, self, io)
      else (Some chunk, self, io)
    end in
  match start with
  | (None, self, io) => Ok (None, self, io, O)
  | (Some chunk_array, self, io) =>
    s <- attempt_loop max_attempts fuel chunk_size
           (mkAttempt self io chunk_array ([], []) O) ;;
    let (field_offsets, field_lengths) := a_spans s in
    if len field_offsets =? 0 then Ok (None, a_self s, a_io s, a_parses s)
    else if Nat.eqb (List.length columns) O then Err ZeroDivisionError
    else
      let ncols := Z.of_nat (List.length columns) in
      let rows := Z.min (len field_offsets / ncols) (rows_per_chunk config) in
      Ok (Some (mkChunk (a_chunk_array s)
                  (slice_to field_offsets (rows * ncols))
                  (slice_to field_lengths (rows * ncols)) rows),
          a_self s, a_io s, a_parses s)
  end.

(** ** Host side: the text conversion of [process_table] *)

(** Python's [str.isspace] on the ASCII range. *)
Definition is_space (c : ascii) : bool :=
  let n := Z.of_N (N_of_ascii c) in
  ((9 <=? n) && (n <=? 13)) || ((28 <=? n) && (n <=? 32)).

Fixpoint lstrip (l : list ascii) : list ascii :=
  match l with
  | [] => []
  | c :: l' => if is_space c then lstrip l' else l
  end.

(** [s.strip()] *)
Definition strip (s : string) : string :=
  string_of_list_ascii
    (rev (lstrip (rev (lstrip (list_ascii_of_string s))))).

(** [bytes(valid_data).decode('utf-8', errors='replace')] for bytes that
    passed the filter [32 <= b <= 126]: each byte is one ASCII character and
    nothing is replaced. *)
Definition decode_utf8 (valid_data : list Z) : string :=
  string_of_list_ascii (map (fun b => ascii_of_N (Z.to_N b)) valid_data).

(** One text cell (lines 569-598): [row_bytes] is [data[row]], one row of
    the arena reshaped to the column's width. *)
Definition host_string (row_bytes : list Z) (end_pos : Z) : string :=
  if end_pos =? 0 then EmptyString
  else if end_pos >? 0 then
    let start_pos := Z.land (Z.shiftr end_pos 16) 65535 in
    let end_pos := Z.land end_pos 65535 in
    if end_pos >? start_pos then
      let row_data := slice_from (slice_to row_bytes end_pos) start_pos in
      let valid_data :=
        filter (fun b => (32 <=? b) && (b <=? 126)) row_data in
      match valid_data with
      | [] => EmptyString
      | _ => strip (decode_utf8 valid_data)
      end
    else EmptyString
  else EmptyString.

(** One column of a chunk's result. *)
Inductive column_chunk : Type :=
| IntChunk (a : list Z)
| StrChunk (l : list string).

(** [results]: a dict from column name to the list of its chunks, in
    insertion order. *)
Definition results_dict : Type := list (string * list column_chunk).

Fixpoint dict_mem (k : string) (d : results_dict) : bool :=
  match d with
  | [] => false
  | (k', _) :: d' => String.eqb k k' || dict_mem k d'
  end.

(** [{col.name: [] for col in columns}] *)
Fixpoint dict_init (columns : list ColumnInfo) (d : results_dict)
  : results_dict :=
  match columns with
  | [] => d
  | col :: columns' =>
    dict_init columns' (if dict_mem (name col) d then d else d ++ [(name col, [])])
  end.

(** [results[k].append(v)] *)
Fixpoint dict_append (k : string) (v : column_chunk) (d : results_dict)
  : results_dict :=
  match d with
  | [] => []
  | (k', l) :: d' =>
    if String.eqb k k' then (k', l ++ [v]) :: d'
    else (k', l) :: dict_append k v d'
  end.

(** The collection loop (lines 540-600). *)
Fixpoint collect (columns : list ColumnInfo) (b : buffers) (rows : Z)
  (int_col_idx str_col_idx : Z) (results : results_dict)
  : result results_dict :=
  match columns with
  | [] => Ok results
  | col :: columns' =>
    col_type <- get_column_type (type col) ;;
    if col_type <=? 1 then
      match int_buffer b with
      | Some ib =>
        host_array <- dev_copy_to_host ib (int_col_idx * rows)
                        ((int_col_idx + 1) * rows) ;;
        collect columns' b rows (int_col_idx + 1) str_col_idx
          (dict_append (name col) (IntChunk host_array) results)
      | None => collect columns' b rows int_col_idx str_col_idx results
      end
    else
      match str_buffer b, b_str_null_pos b with
      | Some sb, Some np =>
        width <- get_column_length (type col) (length col) ;;
        host_array <- dev_copy_to_host sb (str_col_idx * rows * width)
                        ((str_col_idx + 1) * rows * width) ;;
        null_positions <- dev_copy_to_host np (str_col_idx * rows)
                            ((str_col_idx + 1) * rows) ;;
        let strings :=
          map (fun row =>
                 host_string
                   (slice_to (slice_from host_array (row * width)) width)
                   (nth (Z.to_nat row) null_positions 0))
              (range rows) in
        collect columns' b rows int_col_idx (str_col_idx + 1)
          (dict_append (name col) (StrChunk strings) results)
      | _, _ => collect columns' b rows int_col_idx str_col_idx results
      end
  end.

(** The kernel launch of [process_table] (lines 523-537).  A buffer that is
    [None] cannot be typed as the array the kernel indexes. *)
Definition launch (b : buffers) (d : chunk_data) (ncols : Z) : result buffers :=
  match int_buffer b, str_buffer b, b_str_null_pos b with
  | Some ib, Some sb, Some np =>
    let threads_per_block := 256 in
    let blocks :=
      Z.min 1024
        (Z.max 128 ((rows_in_chunk d + threads_per_block - 1) / threads_per_block)) in
    o <- decode_all_columns_kernel blocks threads_per_block
           (mkArgs (d_chunk d) (d_offsets d) (d_lengths d)
                   (b_col_types b) (b_col_lengths b) (rows_in_chunk d) ncols)
           (mkOut ib sb np) ;;
    Ok (mkBuffers (Some (int_outputs o)) (Some (str_outputs o))
                  (Some (str_null_pos o)) (b_col_types b) (b_col_lengths b))
  | _, _, _ => Err TypingError
  end.

(** ** Host side: [process_table] *)

(** [n.bit_length()] *)
Definition bit_length (n : Z) : Z :=
  if n =? 0 then 0 else Z.log2 (Z.abs n) + 1.

(** The window size of lines 468-480. *)
Definition adjusted_chunk_size (total_size ncols rows_per_chunk : Z) : Z :=
  let avg_row_size := total_size / ncols in
  let base_chunk_size := avg_row_size * rows_per_chunk in
  if base_chunk_size <? 512 * 1024 then 512 * 1024
  else if base_chunk_size >? 2 * 1024 * 1024 then 2 * 1024 * 1024
  else Z.shiftl 1 (bit_length (base_chunk_size - 1)).

(** The state of the chunk loop. *)
Record table_state : Type := mkTable {
  t_self : processor;
  t_io : BytesIO;
  t_buffers : buffers;
  t_results : results_dict;
  t_total_rows : Z;
  t_done : bool            (* the loop has hit [break] *)
}.

(** One round of [for chunk_idx in range(num_chunks)].  The
    [except Exception: continue] around the call of [_read_and_parse_chunk]
    is not modelled.  With at least one column the call raises no exception
    on a path that ends; a segmenter loop that does not end grows its lists
    until a [MemoryError], which the program would catch there and go on
    with the next chunk, where the model stops with [Err OutOfFuel].  A
    result [Err OutOfFuel] of [process_table] therefore says only that the
    segmenter did not come to an end within the fuel. *)
Definition process_chunk (fuel : nat) (columns : list ColumnInfo)
  (config : ChunkConfig) (chunk_size : Z) (t : table_state)
  : result table_state :=
  if t_done t then Ok t
  else
    r <- read_and_parse_chunk fuel columns config (t_self t) (t_io t) chunk_size ;;
    let '(chunk_data, self, io, _) := r in
    match chunk_data with
    | None =>
      Ok (mkTable self io (t_buffers t) (t_results t) (t_total_rows t) true)
    | Some d =>
      let total_rows := t_total_rows t + rows_in_chunk d in
      if rows_in_chunk d =? 0 then
        Ok (mkTable self io (t_buffers t) (t_results t) total_rows false)
      else
        b <- launch (t_buffers t) d (Z.of_nat (List.length columns)) ;;
        results <- collect columns b (rows_in_chunk d) 0 0 (t_results t) ;;
        Ok (mkTable self io b results total_rows false)
    end.

(** One column of the final result. *)
Inductive column_data : Type :=
| IntColumn (a : list Z)
| StrColumn (l : list string).

Definition ints_of (c : column_chunk) : list Z :=
  match c with IntChunk a => a | StrChunk _ => [] end.

Definition strings_of (c : column_chunk) : list string :=
  match c with IntChunk _ => [] | StrChunk l => l end.

(** [final_results]: the columns that have chunks, each concatenated. *)
Fixpoint final_results (results : results_dict) : list (string * column_data) :=
  match results with
  | [] => []
  | (col_name, []) :: results' => final_results results'
  | (col_name, (IntChunk _ :: _) as chunks) :: results' =>
    (col_name, IntColumn (List.concat (map ints_of chunks))) :: final_results results'
  | (col_name, (StrChunk _ :: _) as chunks) :: results' =>
    (col_name, StrColumn (List.concat (map strings_of chunks))) :: final_results results'
  end.

(** [process_table] on the bytes that [COPY ... TO STDOUT] has delivered.
    A fresh processor expects the header and has no carried-over bytes. *)
Definition process_table (fuel : nat) (config : ChunkConfig)
  (buffer_data : list Z) (columns : list ColumnInfo)
  : result (list (string * column_data)) :=
  let total_size := len buffer_data in
  if Nat.eqb (List.length columns) O then Err ZeroDivisionError
  else
    let ncols := Z.of_nat (List.length columns) in
    let chunk_size := adjusted_chunk_size total_size ncols (rows_per_chunk config) in
    b <- initialize_device_buffers columns (rows_per_chunk config) ;;
    let results := dict_init columns [] in
    let actual_chunks := (total_size + chunk_size - 1) / chunk_size in
    let num_chunks := Z.min (num_chunks config) actual_chunks in
    t <- for_each (range num_chunks)
           (fun chunk_idx t => process_chunk fuel columns config chunk_size t)
           (mkTable (mkProc true None) (mkIO buffer_data 0) b results 0 false) ;;
    Ok (final_results (t_results t)).

(** * Inputs and reference definitions *)

(** The values of a [uint8] array. *)
Definition is_byte (b : Z) : Prop := 0 <= b < 256.

(** The unsigned value of four big-endian bytes. *)
Definition unsigned_be (b0 b1 b2 b3 : Z) : Z :=
  b0 * 16777216 + b1 * 65536 + b2 * 256 + b3.

(** The two's-complement reading of four big-endian bytes. *)
Definition twos_complement_be (b0 b1 b2 b3 : Z) : Z :=
  let u := unsigned_be b0 b1 b2 b3 in
  if u <? 2147483648 then u else u - 4294967296.

(** A window that ends inside the second field of its only row: two fields
    are announced, the first (4 bytes) is complete, the second announces 5
    bytes and 2 are there. *)
Definition truncated_window : list Z :=
  [0; 2;  0; 0; 0; 4;  1; 2; 3; 4;  0; 0; 0; 5;  1; 2].

(** A first window without the signature: one row of one 5-byte field. *)
Definition unsigned_window : list Z :=
  [0; 1;  0; 0; 0; 5;  104; 101; 108; 108; 111].

(** A stream of one row whose only field announces the length -6: the
    length word takes the position back to the start of the row. *)
Definition looping_stream : list Z := [0; 1;  255; 255; 255; 250].

Definition clamp (lo hi x : Z) : Z := Z.max lo (Z.min hi x).

Definition next_power_of_two (x : Z) : Z := 2 ^ Z.log2_up x.

(** The sizing policy in the words of the specification: the product of the
    rows per chunk and the average row size, clamped to the byte range
    (512 KiB to 2 MiB) and rounded up to a power of two. *)
Definition window_size_policy (rows_per_chunk avg_row_size : Z) : Z :=
  next_power_of_two
    (clamp (512 * 1024) (2 * 1024 * 1024) (avg_row_size * rows_per_chunk)).

(** One row of the integer 42 and a NULL text, behind the stream header
    and in front of the trailer; for the columns [scenario_columns]. *)
Definition null_text_stream : list Z :=
  header ++ [0; 0; 0; 0] ++ [0; 0; 0; 0] ++ [0; 2]
         ++ [0; 0; 0; 4] ++ [0; 0; 0; 42]
         ++ [255; 255; 255; 255]
         ++ [255; 255].

(** One row of a NULL text and the integer 7; for the columns
    [pad_columns]. *)
Definition null_first_stream : list Z :=
  header ++ [0; 0; 0; 0] ++ [0; 0; 0; 0] ++ [0; 2]
         ++ [255; 255; 255; 255]
         ++ [0; 0; 0; 4] ++ [0; 0; 0; 7]
         ++ [255; 255].

(** The field of the scenario: two blanks, [pad], two blanks, a zero byte
    and [garbage]. *)
Definition pad_field : list Z :=
  [32; 32; 112; 97; 100; 32; 32; 0; 103; 97; 114; 98; 97; 103; 101].

(** One row made of that field and the integer 7, behind the stream header
    and in front of the trailer. *)
Definition pad_stream : list Z :=
  header ++ [0; 0; 0; 0] ++ [0; 0; 0; 0] ++ [0; 2]
         ++ [0; 0; 0; 15] ++ pad_field ++ [0; 0; 0; 4] ++ [0; 0; 0; 7]
         ++ [255; 255].

Definition pad_columns : list ColumnInfo :=
  [mkColumn "t" "character" (Some 16); mkColumn "id" "integer" None].

(** The same row with the integer in front of the text. *)
Definition number_pad_stream : list Z :=
  header ++ [0; 0; 0; 0] ++ [0; 0; 0; 0] ++ [0; 2]
         ++ [0; 0; 0; 4] ++ [0; 0; 0; 7]
         ++ [0; 0; 0; 15] ++ pad_field
         ++ [255; 255].

Definition number_pad_columns : list ColumnInfo :=
  [mkColumn "id" "integer" None; mkColumn "t" "character" (Some 16)].

(** [ChunkConfig()] with its default of 6_000_000 rows. *)
Definition default_config : ChunkConfig := mkConfig 4096 1465.

(** The first [width] bytes of the string arena: the slot of cell 0. *)
Definition arena_row (o : outputs) (width : Z) : list Z :=
  map (dcell (str_outputs o)) (range width).

(** Signature, flags 0, extension length 0, one row of the integer 42 and
    the text [hello], trailer. *)
Definition scenario_stream : list Z :=
  header ++ [0; 0; 0; 0] ++ [0; 0; 0; 0] ++ [0; 2]
         ++ [0; 0; 0; 4] ++ [0; 0; 0; 42]
         ++ [0; 0; 0; 5] ++ [104; 101; 108; 108; 111]
         ++ [255; 255].

Definition scenario_columns : list ColumnInfo :=
  [mkColumn "id" "integer" None; mkColumn "t" "text" None].

(** [ChunkConfig(1)], as [load_table_optimized] builds it for a table of
    one row. *)
Definition one_row_config : ChunkConfig := mkConfig 1 1.

(** ** Further definitions *)

(** [ChunkConfig.threads_per_block] and [ChunkConfig.max_blocks]. *)
Definition config_threads_per_block : Z := 256.
Definition config_max_blocks : Z := 65535.

(** [ChunkConfig.get_grid_size] *)
Definition get_grid_size (chunk_size : Z) : Z :=
  Z.min config_max_blocks
    ((chunk_size + config_threads_per_block - 1) / config_threads_per_block).

Definition balanced (st : pstate) : Prop :=
  List.length (field_offsets st) = List.length (field_lengths st).

Definition exit_state (r : for_exit) : pstate :=
  match r with Next st => st | Returned st => st end.

Definition is_numeric_tag (t : Z) : bool := t <=? 1.

Definition count_numeric (types : list Z) : Z :=
  Z.of_nat (List.length (filter is_numeric_tag types)).

Definition count_text (types : list Z) : Z :=
  Z.of_nat (List.length (filter (fun t => negb (is_numeric_tag t)) types)).

(** What the column loop keeps true of its accumulators. *)
Definition layout_ok (l : layout) : Prop :=
  List.length (l_col_types l) = List.length (l_col_lengths l) /\
  Forall (fun t => t = 0 \/ t = 1 \/ t = 2) (l_col_types l) /\
  num_int_cols l = count_numeric (l_col_types l) /\
  num_str_cols l = count_text (l_col_types l).

Definition printable (c : ascii) : Prop :=
  32 <= Z.of_N (N_of_ascii c) <= 126.

(** The characters of [s.strip()], as a list. *)
Definition stripped (l : list ascii) : list ascii :=
  rev (lstrip (rev (lstrip l))).

(** A span as the segmenter records it in a window of [n] bytes: the NULL
    span, or a span that ends inside the window. *)
Definition span_in (n : Z) (offset length_ : Z) : Prop :=
  (offset = 0 /\ length_ = -1) \/
  (length_ <> -1 /\ offset + length_ <= n /\
   - n < offset <= n /\ -2147483648 <= length_ < 2147483648).

(** The loop invariant: the recorded spans end inside the window, and as
    long as no recorded length is below -1 the position has not moved back
    behind the start [p0] and no data span starts before it. *)
Definition spans_ok (n p0 : Z) (st : pstate) : Prop :=
  Forall2 (span_in n) (field_offsets st) (field_lengths st) /\
  (Forall (fun l => -1 <= l) (field_lengths st) ->
   p0 <= pos st /\
   Forall2 (fun o l => l = -1 \/ p0 <= o) (field_offsets st) (field_lengths st)).

(** The layout of the stream that the segmenter reads, as data: a 16-bit
    and a 32-bit big-endian word, a field (NULL, or a length word and the
    data), a row (the field count and the fields), a sequence of rows. *)
Definition be16_bytes (x : Z) : list Z := [(x / 256) mod 256; x mod 256].

Definition be32_bytes (x : Z) : list Z :=
  [(x / 16777216) mod 256; (x / 65536) mod 256; (x / 256) mod 256; x mod 256].

Inductive field : Type :=
| Null
| Data (bytes : list Z).

Definition field_word (f : field) : list Z :=
  match f with
  | Null => [255; 255; 255; 255]
  | Data d => be32_bytes (len d)
  end.

Definition field_data (f : field) : list Z :=
  match f with
  | Null => []
  | Data d => d
  end.

Definition field_bytes (f : field) : list Z := field_word f ++ field_data f.

Definition fields_bytes (fs : list field) : list Z :=
  List.concat (map field_bytes fs).

Definition row_bytes (r : list field) : list Z :=
  be16_bytes (Z.of_nat (List.length r)) ++ fields_bytes r.

Definition rows_bytes (rows : list (list field)) : list Z :=
  List.concat (map row_bytes rows).

(** The spans of the fields of a stream laid out from position [p] on. *)
Definition field_offset (p : Z) (f : field) : Z :=
  match f with
  | Null => 0
  | Data _ => p + 4
  end.

Definition field_length (f : field) : Z :=
  match f with
  | Null => -1
  | Data d => len d
  end.

Fixpoint fields_offsets (p : Z) (fs : list field) : list Z :=
  match fs with
  | [] => []
  | f :: fs' =>
    field_offset p f :: fields_offsets (p + len (field_bytes f)) fs'
  end.

Definition fields_lengths (fs : list field) : list Z := map field_length fs.

Fixpoint rows_offsets (p : Z) (rows : list (list field)) : list Z :=
  match rows with
  | [] => []
  | r :: rows' =>
    fields_offsets (p + 2) r ++ rows_offsets (p + len (row_bytes r)) rows'
  end.

Definition rows_lengths (rows : list (list field)) : list Z :=
  List.concat (map fields_lengths rows).

(** What the format allows: data of bytes, shorter than 2^31; at most 32767
    fields in a row. *)
Definition field_ok (f : field) : Prop :=
  Forall is_byte (field_data f) /\ len (field_data f) < 2147483648.

Definition row_ok (r : list field) : Prop :=
  Forall field_ok r /\ Z.of_nat (List.length r) < 32768.

(** Where the rows stop: at the end of the window (fewer than two bytes are
    left) or at the trailer FF FF. *)
Definition stops (tail : list Z) : Prop :=
  len tail < 2 \/ exists rest, tail = 255 :: 255 :: rest.

(** The number that a list of bytes spells, most significant byte first. *)
Definition be_value (l : list Z) : Z :=
  fold_left (fun acc b => acc * 256 + b) l 0.

Definition two64 : Z := 18446744073709551616.

(** [val = (val << 8) | b], as the packing loop computes it. *)
Definition pack_byte (val b : Z) : Z :=
  to_int64 (Z.lor (to_int64 (Z.shiftl val 8)) b).

Definition pack8 (c0 c1 c2 c3 c4 c5 c6 c7 : Z) : Z :=
  pack_byte (pack_byte (pack_byte (pack_byte (pack_byte (pack_byte (pack_byte
    (pack_byte 0 c0) c1) c2) c3) c4) c5) c6) c7.

(** [dst] is [dst0] with the [k] bytes of [src] from [sp] on copied to the
    cells from [dp] on, and nothing else changed. *)
Definition copied (src : list Z) (sp : Z) (dst0 dst : devarray) (dp k : Z)
  : Prop :=
  dsize dst = dsize dst0 /\
  (forall i, 0 <= i < k ->
             dcell dst (dp + i) = nth (Z.to_nat (sp + i)) src 0) /\
  (forall c, ~ (dp <= c < dp + k) -> dcell dst c = dcell dst0 c).

(** The cell's slot of the string arena, as the host slices it. *)
Definition arena_slot (str : devarray) (dst_pos width : Z) : list Z :=
  map (fun i => dcell str (dst_pos + i)) (range width).


(** * Properties *)

(** ** Arrays and integers *)

Lemma getitem_in_range (a : list Z) (i : Z) :
  0 <= i < len a -> getitem a i = Ok (nth (Z.to_nat i) a 0).
Proof.
  intros H. unfold getitem.
  destruct (i <? 0) eqn:Hneg; [apply Z.ltb_lt in Hneg; lia|].
  destruct (0 <=? i) eqn:H0; [|apply Z.leb_gt in H0; lia].
  destruct (i <? len a) eqn:H1; [|apply Z.ltb_ge in H1; lia].
  reflexivity.
Qed.

(** Bits that do not overlap add up. *)
Lemma lor_high_low (hi lo n : Z) :
  0 <= n -> 0 <= lo < 2 ^ n -> Z.lor (Z.shiftl hi n) lo = hi * 2 ^ n + lo.
Proof.
  intros Hn Hlo.
  assert (Hland : Z.land (Z.shiftl hi n) lo = 0).
  { apply Z.bits_inj'. intros k Hk.
    rewrite Z.land_spec, Z.bits_0.
    destruct (Z.lt_ge_cases k n) as [Hlt | Hge].
    - rewrite Z.shiftl_spec_low by lia. reflexivity.
    - destruct (Z.eq_dec lo 0) as [-> | Hnz].
      + rewrite Z.bits_0. apply andb_false_r.
      + rewrite (Z.bits_above_log2 lo k); [apply andb_false_r | lia |].
        apply Z.log2_lt_pow2; [lia|].
        apply Z.lt_le_trans with (2 ^ n); [lia|].
        apply Z.pow_le_mono_r; lia. }
  rewrite <- Z.lxor_lor by exact Hland.
  rewrite <- Z.add_nocarry_lxor by exact Hland.
  rewrite Z.shiftl_mul_pow2 by lia. reflexivity.
Qed.

Lemma lor_mul_low (k n lo : Z) :
  0 <= n -> 0 <= lo < 2 ^ n -> Z.lor (k * 2 ^ n) lo = k * 2 ^ n + lo.
Proof.
  intros Hn Hlo. rewrite <- Z.shiftl_mul_pow2 by lia.
  rewrite lor_high_low by assumption. rewrite Z.shiftl_mul_pow2 by lia.
  reflexivity.
Qed.

Lemma land_255_byte (b : Z) : is_byte b -> Z.land b 255 = b.
Proof.
  intros H. change 255 with (Z.ones 8).
  rewrite Z.land_ones by lia. apply Z.mod_small. exact H.
Qed.

Lemma be_word_unsigned (b0 b1 b2 b3 : Z) :
  is_byte b0 -> is_byte b1 -> is_byte b2 -> is_byte b3 ->
  Z.lor (Z.lor (Z.lor (Z.shiftl (Z.land b0 255) 24)
                      (Z.shiftl (Z.land b1 255) 16))
               (Z.shiftl (Z.land b2 255) 8))
        (Z.land b3 255)
  = unsigned_be b0 b1 b2 b3.
Proof.
  unfold is_byte, unsigned_be. intros H0 H1 H2 H3.
  rewrite !land_255_byte by assumption.
  rewrite !Z.shiftl_mul_pow2 by lia.
  rewrite (lor_mul_low b0 24) by (change (2 ^ 16) with 65536;
    change (2 ^ 24) with 16777216; lia).
  replace (b0 * 2 ^ 24 + b1 * 2 ^ 16) with ((b0 * 256 + b1) * 2 ^ 16)
    by (change (2 ^ 16) with 65536; change (2 ^ 24) with 16777216; lia).
  rewrite (lor_mul_low _ 16) by (change (2 ^ 16) with 65536;
    change (2 ^ 8) with 256; lia).
  replace ((b0 * 256 + b1) * 2 ^ 16 + b2 * 2 ^ 8)
    with ((b0 * 65536 + b1 * 256 + b2) * 2 ^ 8)
    by (change (2 ^ 16) with 65536; change (2 ^ 8) with 256; lia).
  rewrite (lor_mul_low _ 8) by (change (2 ^ 8) with 256; lia).
  change (2 ^ 8) with 256. lia.
Qed.

Lemma unsigned_be_range (b0 b1 b2 b3 : Z) :
  is_byte b0 -> is_byte b1 -> is_byte b2 -> is_byte b3 ->
  0 <= unsigned_be b0 b1 b2 b3 < 4294967296.
Proof. unfold is_byte, unsigned_be. lia. Qed.

(** Testing the top bit of a 32-bit word. *)
Lemma top_bit_clear (u : Z) :
  0 <= u < 4294967296 ->
  (Z.land u 2147483648 =? 0) = (u <? 2147483648).
Proof.
  intros Hu.
  assert (Hbit : Z.land u 2147483648 = if Z.testbit u 31 then 2147483648 else 0).
  { apply Z.bits_inj'. intros k Hk. rewrite Z.land_spec.
    change 2147483648 with (2 ^ 31).
    rewrite Z.pow2_bits_eqb by lia.
    destruct (Z.eqb_spec 31 k) as [<- | Hne].
    - rewrite andb_true_r. destruct (Z.testbit u 31).
      + rewrite Z.pow2_bits_true; [reflexivity | lia].
      + now rewrite Z.bits_0.
    - rewrite andb_false_r. destruct (Z.testbit u 31).
      + rewrite Z.pow2_bits_false; [reflexivity | lia].
      + now rewrite Z.bits_0. }
  rewrite Hbit. clear Hbit.
  destruct (Z.testbit u 31) eqn:Hb.
  - apply Z.testbit_true in Hb; [|lia]. change (2 ^ 31) with 2147483648 in Hb.
    destruct (u <? 2147483648) eqn:Hlt; [|reflexivity].
    apply Z.ltb_lt in Hlt. rewrite Z.div_small in Hb by lia. discriminate Hb.
  - apply Z.testbit_false in Hb; [|lia]. change (2 ^ 31) with 2147483648 in Hb.
    destruct (u <? 2147483648) eqn:Hlt; [reflexivity|].
    apply Z.ltb_ge in Hlt.
    replace (u / 2147483648) with 1 in Hb; [discriminate Hb|].
    apply Z.div_unique with (u - 2147483648); lia.
Qed.

(** The segmenter's field-length word is the two's-complement value. *)
Lemma read_field_len_twos_complement (b0 b1 b2 b3 : Z) :
  is_byte b0 -> is_byte b1 -> is_byte b2 -> is_byte b3 ->
  read_field_len b0 b1 b2 b3 = twos_complement_be b0 b1 b2 b3.
Proof.
  intros H0 H1 H2 H3. unfold read_field_len, twos_complement_be.
  rewrite be_word_unsigned by assumption.
  pose proof (unsigned_be_range b0 b1 b2 b3 H0 H1 H2 H3) as Hu.
  set (u := unsigned_be b0 b1 b2 b3) in *.
  rewrite top_bit_clear by exact Hu.
  destruct (u <? 2147483648) eqn:Hlt; [reflexivity|].
  apply Z.ltb_ge in Hlt.
  change 4294967295 with (Z.ones 32).
  rewrite Z.land_ones by lia.
  replace (Z.lnot u + 1) with (- u) by (unfold Z.lnot; lia).
  change (2 ^ 32) with 4294967296.
  replace (- u mod 4294967296) with (4294967296 - u); [lia|].
  apply Z.mod_unique with (-1); lia.
Qed.

(** The kernel's [decode_int32] on a word whose top bit is set: the
    magnitude bits are negated, not the two's-complement value. *)
Lemma decode_int32_value (data : list Z) (pos : Z) (b0 b1 b2 b3 : Z) :
  0 <= pos -> pos + 4 <= len data ->
  nth (Z.to_nat pos) data 0 = b0 ->
  nth (Z.to_nat (pos + 1)) data 0 = b1 ->
  nth (Z.to_nat (pos + 2)) data 0 = b2 ->
  nth (Z.to_nat (pos + 3)) data 0 = b3 ->
  is_byte b0 -> is_byte b1 -> is_byte b2 -> is_byte b3 ->
  decode_int32 data pos =
  Ok (let u := unsigned_be b0 b1 b2 b3 in
      if u <? 2147483648 then u else - (u - 2147483648)).
Proof.
  intros Hp Hl E0 E1 E2 E3 H0 H1 H2 H3. unfold decode_int32, check_bounds.
  destruct (0 <=? pos) eqn:Hp'; [|apply Z.leb_gt in Hp'; lia].
  destruct (pos + 4 <=? len data) eqn:Hl'; [|apply Z.leb_gt in Hl'; lia].
  cbn [andb negb].
  rewrite !getitem_in_range by lia. cbn [bind].
  rewrite E0, E1, E2, E3.
  rewrite be_word_unsigned by assumption.
  pose proof (unsigned_be_range b0 b1 b2 b3 H0 H1 H2 H3) as Hu.
  set (u := unsigned_be b0 b1 b2 b3) in *. cbv zeta.
  rewrite top_bit_clear by exact Hu.
  destruct (u <? 2147483648) eqn:Hlt; [reflexivity|].
  apply Z.ltb_ge in Hlt. f_equal. f_equal.
  change 2147483647 with (Z.ones 31).
  rewrite Z.land_ones by lia. change (2 ^ 31) with 2147483648.
  symmetry. apply Z.mod_unique with 1; lia.
Qed.

(** ** The two readers of a 32-bit word *)

(** C2: both the segmenter's field-length read and the kernel's
    [decode_int32] are meant to give the two's-complement value of four
    big-endian bytes.  The segmenter does ([read_field_len_twos_complement]);
    [decode_int32] does not: on FF FF FF FF it returns -2147483647 where the
    segmenter's read and the two's-complement value are -1. *)
Theorem decode_int32_disagrees_on_minus_one :
  decode_int32 [255; 255; 255; 255] 0 = Ok (-2147483647) /\
  read_field_len 255 255 255 255 = -1 /\
  twos_complement_be 255 255 255 255 = -1.
Proof. repeat split; vm_compute; reflexivity. Qed.

(** C10: [decode_int32] never reads outside [data]: it returns a value for
    every array and every position, that value is 0 whenever the four bytes
    at [pos] are not all inside the array, and the numeric path of the kernel
    reads [raw_data] through it alone, so that path fails only when the
    output slot itself is outside the output buffer. *)
Theorem decode_int32_total (data : list Z) (pos : Z) :
  (exists v, decode_int32 data pos = Ok v) /\
  (pos < 0 \/ pos + 4 > len data -> decode_int32 data pos = Ok 0) /\
  (forall (a : kargs) (row col len_ ctype j : Z) (o : outputs),
      raw_data a = data ->
      dev_index (int_outputs o) (col * chunk_size a + row) = Ok j ->
      exists o', kernel_numeric_cell a row col pos len_ ctype o = Ok o').
Proof.
  assert (Htotal : exists v, decode_int32 data pos = Ok v).
  { unfold decode_int32, check_bounds.
    destruct (0 <=? pos) eqn:Hp; [|eexists; reflexivity].
    destruct (pos + 4 <=? len data) eqn:Hl; [|eexists; reflexivity].
    apply Z.leb_le in Hp. apply Z.leb_le in Hl. cbn [andb negb].
    rewrite !getitem_in_range by lia. cbn [bind].
    match goal with |- context [if ?c then _ else _] => destruct c end;
      eexists; reflexivity. }
  split; [exact Htotal|]. split.
  - intros H. unfold decode_int32, check_bounds.
    destruct H as [H | H].
    + destruct (0 <=? pos) eqn:Hp; [apply Z.leb_le in Hp; lia|]. reflexivity.
    + destruct (pos + 4 <=? len data) eqn:Hl; [apply Z.leb_le in Hl; lia|].
      rewrite andb_false_r. reflexivity.
  - intros a row col len_ ctype j o Hraw Hslot.
    unfold kernel_numeric_cell, dev_set. rewrite Hslot, Hraw. cbn [bind].
    destruct (len_ =? -1); [eexists; reflexivity|].
    destruct Htotal as [v ->]. cbn [bind].
    destruct (ctype =? 0); eexists; reflexivity.
Qed.

Lemma decode_int32_total_witness :
  decode_int32 [1; 2; 3] 1 = Ok 0.
Proof.
  apply (proj1 (proj2 (decode_int32_total [1; 2; 3] 1))).
  right. vm_compute. reflexivity.
Defined.

(** ** The segmenter *)

(** C3: the spans returned for a window are meant to be whole rows: a row
    cut by the end of the window is to be given back whole.  On
    [truncated_window], for a table of two columns, the segmenter returns the
    first field of the cut row: one span, which is not a multiple of two.
    The caller takes the call for a success, makes no second attempt with a
    longer window, counts zero rows and carries over the bytes behind that
    one field, which start in the middle of the row. *)
Theorem truncated_row_is_not_rolled_back (fuel : nat) :
  parse_binary_chunk (S fuel) truncated_window false = Ok ([6], [4]) /\
  len [6] mod 2 = 1 /\
  read_and_parse_chunk (S fuel) scenario_columns default_config
    (mkProc false None) (mkIO truncated_window 0) 524288
  = Ok (Some (mkChunk truncated_window [] [] 0),
        mkProc false (Some [0; 0; 0; 5; 1; 2]),
        mkIO truncated_window 16, 1%nat).
Proof. repeat split; reflexivity. Qed.

(** C4, as stated, fails: [unsigned_window] does not begin with the
    signature, and as a first window it is segmented into one span without
    any error. *)
Lemma unsigned_window_is_segmented :
  list_eqb (slice_to unsigned_window 11) header = false /\
  parse_binary_chunk 10 unsigned_window true = Ok ([6], [5]).
Proof. split; reflexivity. Qed.

(** C4, amended: a first window that does not begin with the signature
    raises no framing error; the segmenter skips nothing and segments it from
    byte 0, exactly as it segments a later window. *)
Theorem missing_signature_is_not_an_error (fuel : nat) (chunk_array : list Z) :
  list_eqb (slice_to chunk_array 11) header = false ->
  skip_header chunk_array true = Ok 0 /\
  parse_binary_chunk fuel chunk_array true
  = parse_binary_chunk fuel chunk_array false.
Proof.
  intros H.
  assert (Hskip : skip_header chunk_array true = Ok 0).
  { unfold skip_header. rewrite H.
    destruct (true && (11 <=? len chunk_array)); reflexivity. }
  split; [exact Hskip|].
  unfold parse_binary_chunk. rewrite Hskip. reflexivity.
Qed.

Lemma missing_signature_is_not_an_error_witness :
  skip_header unsigned_window true = Ok 0 /\
  parse_binary_chunk 10 unsigned_window true
  = parse_binary_chunk 10 unsigned_window false.
Proof.
  apply (missing_signature_is_not_an_error 10 unsigned_window).
  reflexivity.
Defined.

(** ** The retry loop of [_read_and_parse_chunk] *)

(** Every round of the retry loop calls the segmenter once, and there are at
    most [k] rounds. *)
Lemma attempt_loop_parses (k fuel : nat) (chunk_size : Z) (s s' : attempt_state) :
  attempt_loop k fuel chunk_size s = Ok s' ->
  (a_parses s' <= a_parses s + k)%nat.
Proof.
  revert s. induction k as [|k IH]; intros s H.
  - cbn in H. injection H as <-. lia.
  - cbn [attempt_loop] in H.
    destruct (parse_binary_chunk fuel (a_chunk_array s)
                (header_expected (a_self s))) as [spans|e]; [|discriminate H].
    cbn [bind] in H.
    destruct ((len (fst spans) >? 0) &&
              (last (fst spans) 0 + Z.max 0 (last (snd spans) 0)
                 <=? len (a_chunk_array s))).
    + injection H as <-. cbn. lia.
    + destruct (io_read (a_io s) chunk_size) as [chunk io].
      destruct (len chunk =? 0).
      * injection H as <-. cbn. lia.
      * apply IH in H. cbn in H. lia.
Qed.

(** The part of C9 that holds: when [_read_and_parse_chunk] returns, it has
    called the segmenter at most 3 times. *)
Lemma read_and_parse_chunk_attempts (fuel : nat) (columns : list ColumnInfo)
  (config : ChunkConfig) (self self' : processor) (copy_data io' : BytesIO)
  (chunk_size : Z) (r : option chunk_data) (parses : nat) :
  read_and_parse_chunk fuel columns config self copy_data chunk_size
  = Ok (r, self', io', parses) ->
  (parses <= 3)%nat.
Proof.
  unfold read_and_parse_chunk.
  match goal with
  | |- context [match ?start with _ => _ end] =>
      destruct start as [[[chunk_array|] self0] io0]
  end.
  - destruct (attempt_loop max_attempts fuel chunk_size
                (mkAttempt self0 io0 chunk_array ([], []) 0)) as [s|e] eqn:Hloop;
      [|discriminate].
    apply attempt_loop_parses in Hloop. cbn in Hloop. cbn [bind].
    destruct (a_spans s) as [field_offsets0 field_lengths0].
    destruct (len field_offsets0 =? 0).
    + intros H. injection H as _ _ _ <-. exact Hloop.
    + destruct (Nat.eqb (List.length columns) 0); [discriminate|].
      intros H. injection H as _ _ _ <-. exact Hloop.
  - intros H. injection H as _ _ _ <-. lia.
Qed.

Lemma parse_tuples_round (fuel : nat) (offsets lengths : list Z) :
  parse_tuples (S fuel) looping_stream (mkP 0 offsets lengths)
  = parse_tuples fuel looping_stream (mkP 0 (offsets ++ [6]) (lengths ++ [-6])).
Proof. reflexivity. Qed.

Lemma parse_tuples_loops (fuel : nat) :
  forall offsets lengths,
    parse_tuples fuel looping_stream (mkP 0 offsets lengths) = Err OutOfFuel.
Proof.
  induction fuel as [|fuel IH]; intros offsets lengths.
  - reflexivity.
  - rewrite parse_tuples_round. apply IH.
Qed.

Lemma parse_binary_chunk_loops (fuel : nat) (header_expected : bool) :
  parse_binary_chunk fuel looping_stream header_expected = Err OutOfFuel.
Proof.
  unfold parse_binary_chunk.
  replace (skip_header looping_stream header_expected) with (@Ok Z 0)
    by (destruct header_expected; reflexivity).
  apply parse_tuples_loops.
Qed.

(** C9: the read-and-parse step is meant to end on every input stream, and
    its retry loop is bounded ([read_and_parse_chunk_attempts]).  But the
    segmenter it calls does not end on [looping_stream]: whatever the
    fuel, the first call is still running when the fuel is spent, for every
    table layout and every window size that covers the six bytes. *)
Theorem read_and_parse_chunk_may_not_end (fuel : nat)
  (columns : list ColumnInfo) (config : ChunkConfig) (chunk_size : Z) :
  6 <= chunk_size ->
  read_and_parse_chunk fuel columns config (mkProc true None)
    (mkIO looping_stream 0) chunk_size
  = Err OutOfFuel.
Proof.
  intros H. unfold read_and_parse_chunk.
  cbn [remaining_data tell].
  assert (Hread : io_read (mkIO looping_stream 0) chunk_size
                  = (looping_stream, mkIO looping_stream 6)).
  { unfold io_read, slice_to, slice_from. cbn [getvalue tell Z.to_nat skipn].
    rewrite firstn_all2 by (cbn; lia). reflexivity. }
  rewrite Hread. cbn [len List.length looping_stream Z.of_nat Z.eqb].
  change (Z.of_nat 6 =? 0) with false. cbv iota.
  unfold max_attempts. cbn [attempt_loop a_chunk_array a_self header_expected].
  rewrite parse_binary_chunk_loops. reflexivity.
Qed.

Lemma read_and_parse_chunk_may_not_end_witness :
  read_and_parse_chunk 1000 [] (mkConfig 4096 1) (mkProc true None)
    (mkIO looping_stream 0) 524288
  = Err OutOfFuel.
Proof.
  apply (read_and_parse_chunk_may_not_end 1000 [] (mkConfig 4096 1) 524288).
  lia.
Defined.

(** ** The window size *)

(** The code follows the policy for the quotient it calls [avg_row_size]:
    the total size divided by the number of columns. *)
Lemma adjusted_chunk_size_policy (total_size ncols rows_per_chunk : Z) :
  adjusted_chunk_size total_size ncols rows_per_chunk
  = window_size_policy rows_per_chunk (total_size / ncols).
Proof.
  unfold adjusted_chunk_size, window_size_policy, next_power_of_two, clamp.
  set (base := total_size / ncols * rows_per_chunk).
  change (512 * 1024) with 524288. change (2 * 1024 * 1024) with 2097152.
  destruct (base <? 524288) eqn:Hlo.
  - apply Z.ltb_lt in Hlo.
    rewrite Z.max_l by lia. reflexivity.
  - apply Z.ltb_ge in Hlo.
    destruct (base >? 2097152) eqn:Hhi.
    + apply Z.gtb_lt in Hhi.
      rewrite Z.min_l by lia. rewrite Z.max_r by lia. reflexivity.
    + assert (base <= 2097152) by (destruct (Z.gtb_spec base 2097152); [discriminate|lia]).
      rewrite Z.min_r by lia. rewrite Z.max_r by lia.
      rewrite Z.shiftl_mul_pow2, Z.mul_1_l.
      * f_equal. unfold bit_length.
        destruct (base - 1 =? 0) eqn:Hz; [apply Z.eqb_eq in Hz; lia|].
        rewrite Z.abs_eq by lia.
        rewrite Z.log2_up_eqn by lia.
        replace (Z.pred base) with (base - 1) by lia. lia.
      * unfold bit_length.
        destruct (base - 1 =? 0); [lia|].
        pose proof (Z.log2_nonneg (Z.abs (base - 1))). lia.
Qed.

(** C8: the window is meant to be sized from the average row size.  For a
    table of 4096 rows of about 100 bytes in 2 columns (409621 bytes in all)
    the average row takes 100 bytes and the policy gives 512 KiB; the code
    divides the total size by the number of columns instead of the number of
    rows and arrives at 2 MiB. *)
Theorem window_size_uses_column_count :
  adjusted_chunk_size 409621 2 4096 = 2097152 /\
  409621 / 4096 = 100 /\
  window_size_policy 4096 (409621 / 4096) = 524288.
Proof. repeat split; vm_compute; reflexivity. Qed.

(** ** The column layout *)

Lemma prefix_character_first (t : string) :
  String.prefix "character" t = true -> exists t', t = String "c" t'.
Proof.
  destruct t as [|c t']; cbn [String.prefix]; [discriminate|].
  destruct (ascii_dec "c" c) as [<- | _]; [|discriminate].
  intros _. exists t'. reflexivity.
Qed.

(** Both functions fail with the same error, and with no other. *)
Lemma get_column_type_error (t : string) (e : error) :
  get_column_type t = Err e -> e = unsupported t.
Proof.
  unfold get_column_type.
  repeat match goal with
         | |- context [if ?c then _ else _] => destruct c
         end; intros H; try discriminate H.
  injection H as <-. reflexivity.
Qed.

Lemma get_column_length_error (t : string) (l : option Z) (e : error) :
  get_column_length t l = Err e -> e = unsupported t.
Proof.
  unfold get_column_length.
  destruct l as [n|];
    repeat match goal with
           | |- context [if ?c then _ else _] => destruct c
           end; intros H; try discriminate H;
    injection H as <-; reflexivity.
Qed.

(** An unsupported column anywhere in the table makes the column loop of
    [_initialize_device_buffers] fail, before any buffer is allocated. *)
Lemma collect_layout_unsupported (before after : list ColumnInfo)
  (c : ColumnInfo) :
  (get_column_type (type c) = Err (unsupported (type c)) \/
   get_column_length (type c) (length c) = Err (unsupported (type c))) ->
  forall l, exists t',
    collect_layout (before ++ c :: after) l = Err (unsupported t').
Proof.
  intros Hc. induction before as [|b before IH]; intros l.
  - cbn [app collect_layout].
    destruct Hc as [Hc | Hc].
    + rewrite Hc. exists (type c). reflexivity.
    + destruct (get_column_type (type c)) as [ct|e] eqn:Ht.
      * rewrite Hc. exists (type c). reflexivity.
      * apply get_column_type_error in Ht. subst e.
        exists (type c). reflexivity.
  - cbn [app collect_layout].
    destruct (get_column_type (type b)) as [ct|e] eqn:Ht.
    + destruct (get_column_length (type b) (length b)) as [w|e] eqn:Hw.
      * cbn [bind]. destruct (ct <=? 1); apply IH.
      * apply get_column_length_error in Hw. subst e.
        exists (type b). reflexivity.
    + apply get_column_type_error in Ht. subst e.
      exists (type b). reflexivity.
Qed.

(** C7: the layout of a column is a function of its type name and its
    declared length: [integer] gives tag 0 and width 4; [numeric] and
    [decimal] give tag 1 and width 8; a name that starts with [character]
    gives tag 2 and the declared length, or 256 when none is declared;
    [text] gives tag 2 and width 1024; for any other name one of the two
    functions raises the unsupported-type error, and a table with such a
    column fails in [_initialize_device_buffers] before a buffer exists. *)
Theorem column_layout_rules (t : string) (l : option Z) :
  (t = "integer"%string ->
   get_column_type t = Ok 0 /\ get_column_length t l = Ok 4) /\
  (t = "numeric"%string \/ t = "decimal"%string ->
   get_column_type t = Ok 1 /\ get_column_length t l = Ok 8) /\
  (String.prefix "character" t = true ->
   get_column_type t = Ok 2 /\
   get_column_length t None = Ok 256 /\
   forall n, n <> 0 -> get_column_length t (Some n) = Ok n) /\
  (t = "text"%string ->
   get_column_type t = Ok 2 /\ get_column_length t l = Ok 1024) /\
  (t <> "integer"%string -> t <> "numeric"%string -> t <> "decimal"%string ->
   String.prefix "character" t = false -> t <> "text"%string ->
   (get_column_type t = Err (unsupported t) \/
    get_column_length t l = Err (unsupported t)) /\
   forall before after col_name chunk_size, exists t',
     initialize_device_buffers
       (before ++ mkColumn col_name t l :: after) chunk_size
     = Err (unsupported t')).
Proof.
  split; [|split; [|split; [|split]]].
  - intros ->. split; reflexivity.
  - intros [-> | ->]; split; reflexivity.
  - intros Hp. destruct (prefix_character_first t Hp) as [t' ->].
    unfold get_column_type, get_column_length. rewrite Hp.
    cbn [String.eqb Ascii.eqb Bool.eqb andb orb].
    repeat split.
    intros n Hn. destruct (Z.eqb_spec n 0); [contradiction|reflexivity].
  - intros ->. split; reflexivity.
  - intros Hi Hn Hd Hc Ht.
    apply String.eqb_neq in Hi, Hn, Hd, Ht.
    assert (Hone : get_column_type t = Err (unsupported t) \/
                   get_column_length t l = Err (unsupported t)).
    { right. unfold get_column_length. rewrite Hi, Hn, Hd, Hc, Ht.
      reflexivity. }
    split; [exact Hone|].
    intros before after col_name chunk_size.
    destruct (collect_layout_unsupported before after (mkColumn col_name t l) Hone
                (mkLayout [] [] 0 0 0)) as [t' Ht'].
    exists t'. unfold initialize_device_buffers. rewrite Ht'. reflexivity.
Qed.

Lemma column_layout_rules_witness :
  (get_column_type "integer" = Ok 0 /\ get_column_length "integer" None = Ok 4) /\
  (get_column_type "numeric" = Ok 1 /\ get_column_length "numeric" None = Ok 8) /\
  get_column_length "character varying" (Some 40) = Ok 40 /\
  (get_column_type "text" = Ok 2 /\ get_column_length "text" None = Ok 1024) /\
  (get_column_type "bytea" = Err (unsupported "bytea") \/
   get_column_length "bytea" None = Err (unsupported "bytea")).
Proof.
  split; [|split; [|split; [|split]]].
  - apply (proj1 (column_layout_rules "integer" None)). reflexivity.
  - apply (proj1 (proj2 (column_layout_rules "numeric" None))).
    left. reflexivity.
  - apply (proj1 (proj2 (proj2 (column_layout_rules "character varying" None)))).
    + reflexivity.
    + discriminate.
  - apply (proj1 (proj2 (proj2 (proj2 (column_layout_rules "text" None))))).
    reflexivity.
  - apply (proj2 (proj2 (proj2 (proj2 (column_layout_rules "bytea" None)))));
      try discriminate; reflexivity.
Defined.

(** ** NULL fields *)

Lemma dev_set_in_range (a : devarray) (i j v : Z) :
  dev_index a i = Ok j ->
  exists a', dev_set a i v = Ok a' /\
             dsize a' = dsize a /\
             dcell a' j = v /\
             (forall k, k <> j -> dcell a' k = dcell a k).
Proof.
  intros H. unfold dev_set. rewrite H. cbn [bind].
  eexists. split; [reflexivity|]. cbn [dsize dcell].
  split; [reflexivity|]. split.
  - rewrite Z.eqb_refl. reflexivity.
  - intros k Hk. destruct (Z.eqb_spec k j); [contradiction|reflexivity].
Qed.

(** C5: a NULL field is meant to come back as 0 or as the empty string,
    with the rest of the row decoded and without a failure.  The segmenter
    does record the span (0, -1) and takes no data byte.  The kernel,
    however, addresses the output buffers by the column's position in the
    table, where the buffers are sized, and read by the host, by the
    column's position among the columns of its kind.  For the one-row table
    of the integer 42 and a NULL text, the 0 that marks the NULL is written
    to cell 1 of a range index of one cell.  For the row of a NULL text and
    the integer 7, with room for 4096 rows, the run ends, but the integer
    of that row comes back as 0. *)
Theorem null_field_breaks_the_row :
  parse_binary_chunk 100 null_text_stream true = Ok ([25; 0], [4; -1]) /\
  process_table 100 one_row_config null_text_stream scenario_columns
  = Err OutOfRange /\
  parse_binary_chunk 100 null_first_stream true = Ok ([0; 29], [-1; 4]) /\
  process_table 100 default_config null_first_stream pad_columns
  = Ok [("t"%string, StrColumn [""%string]); ("id"%string, IntColumn [0])].
Proof. repeat split; vm_compute; reflexivity. Qed.

(** ** The text path *)

Lemma default_config_eq : new_ChunkConfig 6000000 = Ok default_config.
Proof. reflexivity. Qed.

(** C6: the field [pad_field] in a text column of width 16 is meant to
    come back as [pad].  It does only when the text column is the first
    column of the table and the buffers have room for more rows than the
    chunk has, and then the integer behind it comes back as 0 instead of
    7.  With the integer in front, the kernel puts the text and
    its range into the slots of table column 1, the host reads the slots of
    text column 0, and the text comes back empty; with buffers sized for the
    one row of the table the kernel's writes fall outside the buffers. *)
Theorem pad_text_depends_on_the_column_position :
  process_table 100 default_config number_pad_stream number_pad_columns
  = Ok [("id"%string, IntColumn [7]); ("t"%string, StrColumn [""%string])] /\
  process_table 100 one_row_config number_pad_stream number_pad_columns
  = Err OutOfRange /\
  process_table 100 default_config pad_stream pad_columns
  = Ok [("t"%string, StrColumn ["pad"%string]); ("id"%string, IntColumn [0])] /\
  process_table 100 one_row_config pad_stream pad_columns = Err OutOfRange.
Proof. repeat split; vm_compute; reflexivity. Qed.

(** A field longer than the column: only [width] bytes are copied. *)
Example pad_text_cut_to_width (ib : devarray) :
  exists o,
    decode_all_columns_kernel 128 256
      (mkArgs pad_field [0] [15] [2] [4] 1 1)
      (mkOut ib (dev_zeros 4) (dev_zeros 1)) = Ok o /\
    arena_row o 4 = [32; 32; 112; 97] /\
    host_string (arena_row o 4) (dcell (str_null_pos o) 0) = "pa"%string.
Proof.
  eexists. split; [vm_compute; reflexivity|].
  split; vm_compute; reflexivity.
Qed.

(** ** The scenario of one row *)

Lemma one_row_config_eq : new_ChunkConfig 1 = Ok one_row_config.
Proof. reflexivity. Qed.

(** C1: the scenario is meant to give one row, 42 and [hello].  The
    segmenter finds the two spans, and the integer is decoded.  The kernel,
    however, addresses the text buffers by the column's position in the
    table (1) where the host reads them by its position among the text
    columns (0).  With buffers sized for the one row of the table the
    kernel's text writes fall outside the buffers; with the default capacity
    of 4096 rows they land in cells the host does not read, and the text
    comes back empty. *)
Theorem scenario_loses_the_text :
  parse_binary_chunk 100 scenario_stream true = Ok ([25; 33], [4; 5]) /\
  process_table 100 one_row_config scenario_stream scenario_columns
  = Err OutOfRange /\
  process_table 100 default_config scenario_stream scenario_columns
  = Ok [("id"%string, IntColumn [42]); ("t"%string, StrColumn [""%string])].
Proof. repeat split; vm_compute; reflexivity. Qed.

(** * Further properties *)

(** ** The segmenter's two lists *)

Lemma parse_fields_balanced (n : nat) (chunk_array : list Z) :
  forall st r,
    parse_fields n chunk_array st = Ok r -> balanced st ->
    balanced (exit_state r).
Proof.
  induction n as [|n IH]; intros st r H Hb.
  - cbn in H. injection H as <-. exact Hb.
  - cbn [parse_fields] in H.
    destruct (pos st + 4 >? len chunk_array).
    { injection H as <-. exact Hb. }
    destruct (getitem chunk_array (pos st)) as [b0|]; [|discriminate H].
    destruct (getitem chunk_array (pos st + 1)) as [b1|]; [|discriminate H].
    destruct (getitem chunk_array (pos st + 2)) as [b2|]; [|discriminate H].
    destruct (getitem chunk_array (pos st + 3)) as [b3|]; [|discriminate H].
    cbn [bind] in H.
    destruct (read_field_len b0 b1 b2 b3 =? -1).
    { apply IH in H; [exact H|].
      unfold balanced in *. cbn. rewrite !List.length_app. cbn. lia. }
    destruct (pos st + 4 + read_field_len b0 b1 b2 b3 >? len chunk_array).
    { injection H as <-. exact Hb. }
    apply IH in H; [exact H|].
    unfold balanced in *. cbn. rewrite !List.length_app. cbn. lia.
Qed.

Lemma parse_tuples_balanced (fuel : nat) (chunk_array : list Z) :
  forall st offsets lengths,
    parse_tuples fuel chunk_array st = Ok (offsets, lengths) -> balanced st ->
    List.length offsets = List.length lengths.
Proof.
  induction fuel as [|fuel IH]; intros st offsets lengths H Hb.
  - discriminate H.
  - cbn [parse_tuples] in H.
    assert (Hdone : forall st', balanced st' ->
              Ok (spans_of st') = Ok (offsets, lengths) ->
              List.length offsets = List.length lengths).
    { intros st' Hb' E. unfold spans_of in E. injection E as <- <-.
      rewrite !List.length_map. exact Hb'. }
    destruct (pos st + 2 <=? len chunk_array); [|exact (Hdone st Hb H)].
    destruct (getitem chunk_array (pos st)) as [hi|]; [|discriminate H].
    destruct (getitem chunk_array (pos st + 1)) as [lo|]; [|discriminate H].
    cbn [bind] in H.
    destruct (to_int16 (Z.lor (Z.shiftl hi 8) lo) =? -1);
      [exact (Hdone st Hb H)|].
    destruct (parse_fields _ chunk_array _) as [r|] eqn:Hf; [|discriminate H].
    apply parse_fields_balanced in Hf; [|exact Hb].
    cbn [bind] in H. destruct r as [st'|st']; cbn in Hf.
    + exact (IH st' offsets lengths H Hf).
    + exact (Hdone st' Hf H).
Qed.

Lemma parse_binary_chunk_balanced (fuel : nat) (chunk_array : list Z)
  (header_expected : bool) (offsets lengths : list Z) :
  parse_binary_chunk fuel chunk_array header_expected = Ok (offsets, lengths) ->
  List.length offsets = List.length lengths.
Proof.
  unfold parse_binary_chunk. intros H.
  destruct (skip_header chunk_array header_expected) as [p|]; [|discriminate H].
  cbn [bind] in H.
  apply (parse_tuples_balanced _ _ _ _ _ H). reflexivity.
Qed.

(** X1: the segmenter returns as many offsets as lengths: the kernel reads both
    arrays at the same index. *)
Theorem parse_binary_chunk_same_length (fuel : nat) (chunk_array : list Z)
  (header_expected : bool) (offsets lengths : list Z) :
  parse_binary_chunk fuel chunk_array header_expected = Ok (offsets, lengths) ->
  List.length offsets = List.length lengths.
Proof. exact (parse_binary_chunk_balanced fuel chunk_array header_expected
                offsets lengths). Qed.

Lemma parse_binary_chunk_same_length_witness :
  List.length [25; 33] = List.length [4; 5].
Proof.
  apply (parse_binary_chunk_same_length 100 scenario_stream true).
  vm_compute. reflexivity.
Defined.

(** ** What [_read_and_parse_chunk] hands on *)

Lemma attempt_loop_spans_balanced (k fuel : nat) (chunk_size : Z) :
  forall s s',
    attempt_loop k fuel chunk_size s = Ok s' ->
    List.length (fst (a_spans s)) = List.length (snd (a_spans s)) ->
    List.length (fst (a_spans s')) = List.length (snd (a_spans s')).
Proof.
  induction k as [|k IH]; intros s s' H Hb.
  - cbn in H. injection H as <-. exact Hb.
  - cbn [attempt_loop] in H.
    destruct (parse_binary_chunk fuel (a_chunk_array s)
                (header_expected (a_self s))) as [[offsets lengths]|e] eqn:Hp;
      [|discriminate H].
    apply parse_binary_chunk_balanced in Hp.
    cbn [bind fst snd] in H.
    destruct ((len offsets >? 0) &&
              (last offsets 0 + Z.max 0 (last lengths 0)
                 <=? len (a_chunk_array s))).
    + injection H as <-. exact Hp.
    + destruct (io_read (a_io s) chunk_size) as [chunk io].
      destruct (len chunk =? 0).
      * injection H as <-. exact Hp.
      * apply IH in H; [exact H|]. exact Hp.
Qed.

Lemma len_slice_to (a : list Z) (n : Z) :
  0 <= n <= len a -> len (slice_to a n) = n.
Proof.
  intros H. unfold len, slice_to in *.
  rewrite List.length_firstn. lia.
Qed.

(** X2: whatever the segmenter returned, the chunk that [_read_and_parse_chunk]
    hands to the kernel holds whole rows only: exactly
    [rows_in_chunk * len(columns)] offsets and as many lengths, for a row
    count between 0 and [rows_per_chunk]. *)
Theorem read_and_parse_chunk_whole_rows (fuel : nat)
  (columns : list ColumnInfo) (config : ChunkConfig)
  (self self' : processor) (copy_data io' : BytesIO) (chunk_size : Z)
  (d : chunk_data) (parses : nat) :
  0 <= rows_per_chunk config ->
  read_and_parse_chunk fuel columns config self copy_data chunk_size
  = Ok (Some d, self', io', parses) ->
  0 <= rows_in_chunk d <= rows_per_chunk config /\
  len (d_offsets d) = rows_in_chunk d * Z.of_nat (List.length columns) /\
  len (d_lengths d) = rows_in_chunk d * Z.of_nat (List.length columns).
Proof.
  intros Hcap. unfold read_and_parse_chunk.
  match goal with
  | |- context [match ?start with _ => _ end] =>
      destruct start as [[[chunk_array|] self0] io0]
  end; [|discriminate].
  destruct (attempt_loop max_attempts fuel chunk_size
              (mkAttempt self0 io0 chunk_array ([], []) 0)) as [s|e] eqn:Hloop;
    [|discriminate].
  apply attempt_loop_spans_balanced in Hloop; [|reflexivity].
  cbn [bind]. destruct (a_spans s) as [offsets lengths]. cbn [fst snd] in Hloop.
  destruct (len offsets =? 0); [discriminate|].
  destruct (Nat.eqb (List.length columns) 0) eqn:Hcols; [discriminate|].
  apply Nat.eqb_neq in Hcols.
  intros H. injection H as <- _ _ _. cbn [rows_in_chunk d_offsets d_lengths].
  set (ncols := Z.of_nat (List.length columns)).
  assert (Hn : 0 < ncols) by (unfold ncols; lia).
  assert (Hlen : len lengths = len offsets) by (unfold len; lia).
  assert (Hq : 0 <= len offsets / ncols)
    by (apply Z.div_pos; [unfold len; lia | exact Hn]).
  assert (Hmul : len offsets / ncols * ncols <= len offsets)
    by (rewrite Z.mul_comm; apply Z.mul_div_le; exact Hn).
  set (rows := Z.min (len offsets / ncols) (rows_per_chunk config)).
  assert (Hrows : 0 <= rows <= len offsets / ncols) by (unfold rows; lia).
  assert (Hfit : 0 <= rows * ncols <= len offsets) by nia.
  split; [unfold rows; lia|].
  split; apply len_slice_to; lia.
Qed.

Lemma read_and_parse_chunk_whole_rows_witness :
  0 <= 1 <= rows_per_chunk default_config /\
  len [25; 33] = 1 * Z.of_nat (List.length scenario_columns) /\
  len [4; 5] = 1 * Z.of_nat (List.length scenario_columns).
Proof.
  apply (read_and_parse_chunk_whole_rows 100 scenario_columns default_config
           (mkProc true None) (mkProc false (Some [255; 255]))
           (mkIO scenario_stream 0) (mkIO scenario_stream 40) 524288
           (mkChunk scenario_stream [25; 33] [4; 5] 1) 1%nat).
  - vm_compute. discriminate.
  - vm_compute. reflexivity.
Defined.

(** ** [ChunkConfig] *)

(** X3: [ChunkConfig(total_rows)] fails exactly for a table without rows.  For a
    table with rows, a chunk holds between 1 and 4096 rows and never more
    than the table, and [num_chunks] is the least number of such chunks that
    covers the table. *)
Theorem ChunkConfig_covers_the_table (total_rows : Z) :
  (new_ChunkConfig total_rows = Err ZeroDivisionError <-> total_rows = 0) /\
  (0 < total_rows ->
   exists config,
     new_ChunkConfig total_rows = Ok config /\
     1 <= rows_per_chunk config <= 4096 /\
     rows_per_chunk config <= total_rows /\
     (num_chunks config - 1) * rows_per_chunk config < total_rows /\
     total_rows <= num_chunks config * rows_per_chunk config).
Proof.
  unfold new_ChunkConfig. split.
  - destruct (Z.eqb_spec (Z.min 4096 total_rows) 0) as [E | E].
    + split; [lia | reflexivity].
    + split; [discriminate | lia].
  - intros Hpos.
    destruct (Z.eqb_spec (Z.min 4096 total_rows) 0) as [E | E]; [lia|].
    eexists. split; [reflexivity|]. cbn [rows_per_chunk num_chunks].
    set (r := Z.min 4096 total_rows) in *.
    assert (Hr : 1 <= r <= 4096) by (unfold r; lia).
    assert (Hle : r <= total_rows) by (unfold r; lia).
    pose proof (Z.mod_pos_bound (total_rows + r - 1) r ltac:(lia)) as Hm.
    pose proof (Z.div_mod (total_rows + r - 1) r ltac:(lia)) as Hdm.
    repeat split; try lia; nia.
Qed.

Lemma ChunkConfig_covers_the_table_witness :
  exists config,
    new_ChunkConfig 10000 = Ok config /\
    1 <= rows_per_chunk config <= 4096 /\
    rows_per_chunk config <= 10000 /\
    (num_chunks config - 1) * rows_per_chunk config < 10000 /\
    10000 <= num_chunks config * rows_per_chunk config.
Proof.
  apply (proj2 (ChunkConfig_covers_the_table 10000)). lia.
Defined.

(** X4: [get_grid_size]: for a chunk of at least one row the grid has between 1
    and 65535 blocks; unless it is capped at 65535, it is the least number of
    blocks of 256 threads that gives every row a thread. *)
Theorem get_grid_size_covers_the_chunk (chunk_size : Z) :
  0 < chunk_size ->
  1 <= get_grid_size chunk_size <= 65535 /\
  (chunk_size <= 65535 * 256 ->
   chunk_size <= get_grid_size chunk_size * 256 < chunk_size + 256).
Proof.
  intros Hpos. unfold get_grid_size, config_max_blocks,
    config_threads_per_block.
  pose proof (Z.div_mod (chunk_size + 256 - 1) 256 ltac:(lia)) as Hdm.
  pose proof (Z.mod_pos_bound (chunk_size + 256 - 1) 256 ltac:(lia)) as Hm.
  split; [lia|]. intros Hcap. lia.
Qed.

Lemma get_grid_size_covers_the_chunk_witness :
  1 <= get_grid_size 4096 <= 65535 /\
  (4096 <= 65535 * 256 -> 4096 <= get_grid_size 4096 * 256 < 4096 + 256).
Proof. apply (get_grid_size_covers_the_chunk 4096). lia. Defined.

(** ** The window size, whatever the table *)

(** X5: the window of [process_table] is always 512 KiB, 1 MiB or 2 MiB, and it
    is at least the product [avg_row_size * rows_per_chunk] unless that
    product exceeds 2 MiB. *)
Theorem adjusted_chunk_size_range (total_size ncols rows_per_chunk : Z) :
  let chunk_size := adjusted_chunk_size total_size ncols rows_per_chunk in
  (chunk_size = 524288 \/ chunk_size = 1048576 \/ chunk_size = 2097152) /\
  (total_size / ncols * rows_per_chunk <= 2097152 ->
   total_size / ncols * rows_per_chunk <= chunk_size).
Proof.
  unfold adjusted_chunk_size.
  set (base := total_size / ncols * rows_per_chunk).
  change (512 * 1024) with 524288. change (2 * 1024 * 1024) with 2097152.
  cbv zeta.
  destruct (base <? 524288) eqn:Hlo.
  { apply Z.ltb_lt in Hlo. split; [left; reflexivity | lia]. }
  apply Z.ltb_ge in Hlo.
  destruct (base >? 2097152) eqn:Hhi.
  { apply Z.gtb_lt in Hhi. split; [right; right; reflexivity | lia]. }
  assert (Hle : base <= 2097152)
    by (destruct (Z.gtb_spec base 2097152); [discriminate | lia]).
  assert (Hbits : bit_length (base - 1) = Z.log2_up base).
  { unfold bit_length.
    destruct (Z.eqb_spec (base - 1) 0); [lia|].
    rewrite Z.abs_eq by lia. rewrite Z.log2_up_eqn by lia.
    replace (Z.pred base) with (base - 1) by lia. lia. }
  rewrite Hbits.
  assert (H19 : 19 <= Z.log2_up base)
    by (change 19 with (Z.log2_up 524288); apply Z.log2_up_le_mono; lia).
  assert (H21 : Z.log2_up base <= 21)
    by (change 21 with (Z.log2_up 2097152); apply Z.log2_up_le_mono; lia).
  rewrite Z.shiftl_mul_pow2, Z.mul_1_l by lia.
  split.
  - assert (Z.log2_up base = 19 \/ Z.log2_up base = 20 \/ Z.log2_up base = 21)
      as [-> | [-> | ->]] by lia; [left | right; left | right; right];
      reflexivity.
  - intros _. apply Z.log2_up_spec. lia.
Qed.

Lemma adjusted_chunk_size_range_witness :
  1000000 / 2 * 2 <= adjusted_chunk_size 1000000 2 2.
Proof.
  apply (proj2 (adjusted_chunk_size_range 1000000 2 2)).
  vm_compute. discriminate.
Defined.

(** ** The two layout functions together *)

(** X6: whenever [get_column_length] accepts a type name, [get_column_type]
    accepts it too, and the width is 4 for tag 0 and 8 for tag 1.  The
    converse fails: a name such as [textual] gets tag 2 from
    [get_column_type] and an error from [get_column_length]. *)
Theorem column_length_implies_column_type (t : string) (l : option Z) (w : Z) :
  get_column_length t l = Ok w ->
  exists tag,
    get_column_type t = Ok tag /\
    (tag = 0 \/ tag = 1 \/ tag = 2) /\
    (tag = 0 -> w = 4) /\ (tag = 1 -> w = 8).
Proof.
  unfold get_column_length, get_column_type.
  destruct (String.eqb t "integer").
  { intros H. injection H as <-. exists 0. repeat split; auto; discriminate. }
  destruct (String.eqb t "numeric" || String.eqb t "decimal").
  { intros H. injection H as <-. exists 1. repeat split; auto; discriminate. }
  destruct (String.prefix "character" t).
  { intros _. exists 2. cbn [orb]. repeat split; auto; discriminate. }
  destruct (String.eqb_spec t "text") as [-> | _]; [|discriminate].
  intros _. exists 2. repeat split; auto; discriminate.
Qed.

Lemma column_length_implies_column_type_witness :
  exists tag,
    get_column_type "character varying" = Ok tag /\
    (tag = 0 \/ tag = 1 \/ tag = 2) /\
    (tag = 0 -> 25 = 4) /\ (tag = 1 -> 25 = 8).
Proof.
  apply (column_length_implies_column_type "character varying" (Some 25) 25).
  reflexivity.
Defined.

Lemma textual_has_a_type_and_no_length :
  get_column_type "textual" = Ok 2 /\
  get_column_length "textual" None = Err (unsupported "textual").
Proof. split; reflexivity. Qed.

(** ** [_initialize_device_buffers] *)

Lemma count_numeric_app (a b : list Z) :
  count_numeric (a ++ b) = count_numeric a + count_numeric b.
Proof.
  unfold count_numeric. rewrite filter_app, List.length_app. lia.
Qed.

Lemma count_text_app (a b : list Z) :
  count_text (a ++ b) = count_text a + count_text b.
Proof.
  unfold count_text. rewrite filter_app, List.length_app. lia.
Qed.

Lemma get_column_type_tag (t : string) (tag : Z) :
  get_column_type t = Ok tag -> tag = 0 \/ tag = 1 \/ tag = 2.
Proof.
  unfold get_column_type.
  repeat match goal with
         | |- context [if ?c then _ else _] => destruct c
         end; intros H; try discriminate H; injection H as <-; auto.
Qed.

Lemma collect_layout_ok (columns : list ColumnInfo) :
  forall l l',
    collect_layout columns l = Ok l' -> layout_ok l ->
    layout_ok l' /\
    List.length (l_col_types l')
    = (List.length (l_col_types l) + List.length columns)%nat.
Proof.
  induction columns as [|col columns IH]; intros l l' H Hok.
  - cbn in H. injection H as <-. split; [exact Hok | cbn; lia].
  - cbn [collect_layout] in H.
    destruct (get_column_type (type col)) as [tag|] eqn:Htag; [|discriminate H].
    destruct (get_column_length (type col) (length col)) as [w|];
      [|discriminate H].
    cbn [bind] in H. apply get_column_type_tag in Htag.
    destruct Hok as (Hlen & Htags & Hint & Hstr).
    destruct (tag <=? 1) eqn:Hnum; apply IH in H.
    + destruct H as [H Hcount]. split; [exact H|].
      rewrite Hcount. cbn. rewrite List.length_app. cbn. lia.
    + repeat split; cbn.
      * rewrite !List.length_app. cbn. lia.
      * apply Forall_app. split; [exact Htags | constructor; auto].
      * rewrite count_numeric_app. unfold count_numeric at 2.
        cbn. unfold is_numeric_tag. rewrite Hnum. cbn. lia.
      * rewrite count_text_app. unfold count_text at 2.
        cbn. unfold is_numeric_tag. rewrite Hnum. cbn. lia.
    + destruct H as [H Hcount]. split; [exact H|].
      rewrite Hcount. cbn. rewrite List.length_app. cbn. lia.
    + repeat split; cbn.
      * rewrite !List.length_app. cbn. lia.
      * apply Forall_app. split; [exact Htags | constructor; auto].
      * rewrite count_numeric_app. unfold count_numeric at 2.
        cbn. unfold is_numeric_tag. rewrite Hnum. cbn. lia.
      * rewrite count_text_app. unfold count_text at 2.
        cbn. unfold is_numeric_tag. rewrite Hnum. cbn. lia.
Qed.

(** X7: when [_initialize_device_buffers] succeeds, the two layout arrays have
    one entry per column and every tag is 0, 1 or 2; the numeric buffer
    exists exactly when the table has a numeric column and then has one cell
    per row and numeric column; the range index exists exactly when the
    table has a text column and then has one cell per row and text column;
    the string arena exists exactly when the range index does. *)
Theorem initialize_device_buffers_shape (columns : list ColumnInfo)
  (chunk_size : Z) (b : buffers) :
  initialize_device_buffers columns chunk_size = Ok b ->
  List.length (b_col_types b) = List.length columns /\
  List.length (b_col_lengths b) = List.length columns /\
  Forall (fun t => t = 0 \/ t = 1 \/ t = 2) (b_col_types b) /\
  match int_buffer b with
  | Some ib => 0 < count_numeric (b_col_types b) /\
               dsize ib = chunk_size * count_numeric (b_col_types b)
  | None => count_numeric (b_col_types b) = 0
  end /\
  match b_str_null_pos b with
  | Some np => 0 < count_text (b_col_types b) /\
               dsize np = chunk_size * count_text (b_col_types b) /\
               str_buffer b <> None
  | None => count_text (b_col_types b) = 0 /\ str_buffer b = None
  end.
Proof.
  unfold initialize_device_buffers. intros H.
  destruct (collect_layout columns (mkLayout [] [] 0 0 0)) as [l|] eqn:Hl;
    [|discriminate H].
  apply collect_layout_ok in Hl;
    [|repeat split; constructor].
  destruct Hl as [(Hlen & Htags & Hint & Hstr) Hcount].
  cbn [bind] in H. injection H as <-.
  cbn [b_col_types b_col_lengths int_buffer b_str_null_pos str_buffer].
  cbn in Hcount.
  split; [exact Hcount|]. split; [lia|]. split; [exact Htags|].
  rewrite <- Hint, <- Hstr. split.
  - destruct (num_int_cols l >? 0) eqn:E.
    + apply Z.gtb_lt in E. split; [lia | reflexivity].
    + assert (0 <= num_int_cols l) by (rewrite Hint; unfold count_numeric; lia).
      destruct (Z.gtb_spec (num_int_cols l) 0); [discriminate | lia].
  - destruct (num_str_cols l >? 0) eqn:E.
    + apply Z.gtb_lt in E. split; [lia|]. split; [reflexivity | discriminate].
    + assert (0 <= num_str_cols l) by (rewrite Hstr; unfold count_text; lia).
      destruct (Z.gtb_spec (num_str_cols l) 0); [discriminate|].
      split; [lia | reflexivity].
Qed.

Lemma initialize_device_buffers_shape_witness :
  exists b,
    initialize_device_buffers scenario_columns 4096 = Ok b /\
    List.length (b_col_types b) = List.length scenario_columns /\
    List.length (b_col_lengths b) = List.length scenario_columns.
Proof.
  eexists. split; [reflexivity|].
  split; eapply (initialize_device_buffers_shape scenario_columns 4096);
    reflexivity.
Defined.

(** ** The host's text conversion *)

Lemma lstrip_split (l : list ascii) :
  exists pre, l = pre ++ lstrip l.
Proof.
  induction l as [|c l [pre IH]].
  - exists []. reflexivity.
  - cbn [lstrip]. destruct (is_space c).
    + exists (c :: pre). cbn. rewrite <- IH. reflexivity.
    + exists []. reflexivity.
Qed.

Lemma lstrip_head (l : list ascii) (c : ascii) (rest : list ascii) :
  lstrip l = c :: rest -> is_space c = false.
Proof.
  induction l as [|d l IH]; cbn [lstrip]; [discriminate|].
  destruct (is_space d) eqn:E; [exact IH|].
  intros H. injection H as <- _. exact E.
Qed.

Lemma lstrip_Forall (P : ascii -> Prop) (l : list ascii) :
  Forall P l -> Forall P (lstrip l).
Proof.
  intros H. destruct (lstrip_split l) as [pre E].
  rewrite E in H. apply Forall_app in H. exact (proj2 H).
Qed.

Lemma stripped_first (l : list ascii) (c : ascii) (rest : list ascii) :
  stripped l = c :: rest -> is_space c = false.
Proof.
  unfold stripped. intros H.
  destruct (lstrip_split (rev (lstrip l))) as [pre E].
  set (m := lstrip (rev (lstrip l))) in *.
  assert (Hm : lstrip l = rev m ++ rev pre).
  { rewrite <- rev_app_distr, <- E, rev_involutive. reflexivity. }
  rewrite H in Hm. cbn in Hm.
  exact (lstrip_head l c (rest ++ rev pre) Hm).
Qed.

Lemma stripped_last (l init : list ascii) (c : ascii) :
  stripped l = init ++ [c] -> is_space c = false.
Proof.
  unfold stripped. intros H.
  apply (f_equal (@rev ascii)) in H.
  rewrite rev_involutive, rev_app_distr in H. cbn in H.
  exact (lstrip_head _ c (rev init) H).
Qed.

Lemma stripped_Forall (P : ascii -> Prop) (l : list ascii) :
  Forall P l -> Forall P (stripped l).
Proof.
  intros H. unfold stripped.
  apply Forall_rev, lstrip_Forall, Forall_rev, lstrip_Forall. exact H.
Qed.

Lemma decode_utf8_printable (valid_data : list Z) :
  Forall (fun b => 32 <= b <= 126) valid_data ->
  Forall printable (list_ascii_of_string (decode_utf8 valid_data)).
Proof.
  intros H. unfold decode_utf8.
  rewrite list_ascii_of_string_of_list_ascii.
  induction H as [|b l Hb _ IH]; cbn [map]; constructor; [|exact IH].
  unfold printable. rewrite N_ascii_embedding by lia. lia.
Qed.

(** X8: a text cell never comes back with a character outside the printable
    ASCII range, and it neither starts nor ends with a blank, whatever the
    arena row and the range index hold. *)
Theorem host_string_is_clean (row_bytes : list Z) (end_pos : Z) :
  let chars := list_ascii_of_string (host_string row_bytes end_pos) in
  Forall printable chars /\
  (forall c rest, chars = c :: rest -> is_space c = false) /\
  (forall init c, chars = init ++ [c] -> is_space c = false).
Proof.
  cbv zeta.
  assert (Hempty :
    Forall printable (list_ascii_of_string EmptyString) /\
    (forall c rest, list_ascii_of_string EmptyString = c :: rest ->
                    is_space c = false) /\
    (forall init c, list_ascii_of_string EmptyString = init ++ [c] ->
                    is_space c = false)).
  { cbn. split; [constructor|]. split; [discriminate|].
    intros [|x init] c H; discriminate H. }
  unfold host_string.
  destruct (end_pos =? 0); [exact Hempty|].
  destruct (end_pos >? 0); [|exact Hempty].
  destruct (Z.land end_pos 65535 >? Z.land (Z.shiftr end_pos 16) 65535);
    [|exact Hempty].
  set (valid_data := filter _ _).
  assert (Hvalid : Forall (fun b => 32 <= b <= 126) valid_data).
  { unfold valid_data. apply Forall_forall. intros b Hb.
    apply filter_In in Hb. destruct Hb as [_ Hb].
    apply andb_true_iff in Hb. lia. }
  destruct valid_data as [|b valid_data']; [exact Hempty|].
  unfold strip. rewrite list_ascii_of_string_of_list_ascii.
  fold (stripped (list_ascii_of_string (decode_utf8 (b :: valid_data')))).
  split; [|split].
  - apply stripped_Forall, decode_utf8_printable. exact Hvalid.
  - apply stripped_first.
  - apply stripped_last.
Qed.

(** ** The range index between kernel and host *)

Lemma to_int32_small (x : Z) :
  -2147483648 <= x < 2147483648 -> to_int32 x = x.
Proof.
  intros H. unfold to_int32.
  rewrite Z.mod_small by lia. lia.
Qed.

(** X9: the kernel stores the text range as [(start << 16) | end] in an [int32]
    cell; the host reads the same range back whenever [start] is below
    32768.  A range that starts at 32768 or beyond makes the cell negative,
    and the host returns the empty string for it. *)
Theorem range_index_round_trip (row_bytes : list Z) (valid_start valid_end : Z) :
  0 <= valid_start < valid_end -> valid_end < 65536 ->
  let cell := to_int32 (Z.lor (Z.shiftl valid_start 16) valid_end) in
  (valid_start < 32768 ->
   0 < cell /\
   Z.land (Z.shiftr cell 16) 65535 = valid_start /\
   Z.land cell 65535 = valid_end /\
   host_string row_bytes cell =
   match filter (fun b => (32 <=? b) && (b <=? 126))
           (slice_from (slice_to row_bytes valid_end) valid_start) with
   | [] => EmptyString
   | valid_data => strip (decode_utf8 valid_data)
   end) /\
  (32768 <= valid_start -> host_string row_bytes cell = EmptyString).
Proof.
  intros Hs He. cbv zeta.
  rewrite lor_high_low by (change (2 ^ 16) with 65536; lia).
  change (2 ^ 16) with 65536.
  split.
  - intros Hlow. rewrite to_int32_small by lia.
    assert (Hstart : Z.land (Z.shiftr (valid_start * 65536 + valid_end) 16) 65535
                     = valid_start).
    { rewrite Z.shiftr_div_pow2 by lia. change (2 ^ 16) with 65536.
      change 65535 with (Z.ones 16). rewrite Z.land_ones by lia.
      change (2 ^ 16) with 65536.
      rewrite Z.div_add_l by lia. rewrite (Z.div_small valid_end) by lia.
      rewrite Z.add_0_r. apply Z.mod_small. lia. }
    assert (Hend : Z.land (valid_start * 65536 + valid_end) 65535 = valid_end).
    { change 65535 with (Z.ones 16). rewrite Z.land_ones by lia.
      change (2 ^ 16) with 65536.
      rewrite Z.add_comm, Z.mod_add by lia. apply Z.mod_small. lia. }
    split; [lia|]. split; [exact Hstart|]. split; [exact Hend|].
    unfold host_string. rewrite Hstart, Hend.
    destruct (Z.eqb_spec (valid_start * 65536 + valid_end) 0); [lia|].
    destruct (Z.gtb_spec (valid_start * 65536 + valid_end) 0); [|lia].
    destruct (Z.gtb_spec valid_end valid_start); [|lia].
    cbv zeta. destruct (filter _ _); reflexivity.
  - intros Hhigh. unfold host_string.
    assert (Hneg : to_int32 (valid_start * 65536 + valid_end) < 0).
    { unfold to_int32.
      replace (valid_start * 65536 + valid_end + 2147483648)
        with (valid_start * 65536 + valid_end - 2147483648 + 1 * 4294967296)
        by lia.
      rewrite Z.mod_add by lia. rewrite Z.mod_small by lia. lia. }
    destruct (Z.eqb_spec (to_int32 (valid_start * 65536 + valid_end)) 0);
      [lia|].
    destruct (Z.gtb_spec (to_int32 (valid_start * 65536 + valid_end)) 0);
      [lia | reflexivity].
Qed.

Lemma range_index_round_trip_witness :
  0 < to_int32 (Z.lor (Z.shiftl 2 16) 5) /\
  Z.land (Z.shiftr (to_int32 (Z.lor (Z.shiftl 2 16) 5)) 16) 65535 = 2 /\
  Z.land (to_int32 (Z.lor (Z.shiftl 2 16) 5)) 65535 = 5 /\
  host_string (pad_field ++ [0]) (to_int32 (Z.lor (Z.shiftl 2 16) 5)) =
  match filter (fun b => (32 <=? b) && (b <=? 126))
          (slice_from (slice_to (pad_field ++ [0]) 5) 2) with
  | [] => EmptyString
  | valid_data => strip (decode_utf8 valid_data)
  end.
Proof.
  apply (proj1 (range_index_round_trip (pad_field ++ [0]) 2 5
                  ltac:(lia) ltac:(lia))).
  lia.
Defined.

Lemma host_string_is_clean_witness :
  is_space "p" = false.
Proof.
  apply (proj1 (proj2 (host_string_is_clean (pad_field ++ [0]) 131077))
           "p"%char ["a"; "d"]%char).
  vm_compute. reflexivity.
Defined.

(** ** The numeric cell *)

Lemma decode_int32_returns (data : list Z) (pos : Z) :
  exists v, decode_int32 data pos = Ok v.
Proof.
  unfold decode_int32, check_bounds.
  destruct (0 <=? pos) eqn:Hp; [|eexists; reflexivity].
  destruct (pos + 4 <=? len data) eqn:Hl; [|eexists; reflexivity].
  apply Z.leb_le in Hp. apply Z.leb_le in Hl. cbn [andb negb].
  rewrite !getitem_in_range by lia. cbn [bind].
  match goal with |- context [if ?c then _ else _] => destruct c end;
    eexists; reflexivity.
Qed.

(** X10: for a span that is not NULL, the numeric cell stores the value that
    [decode_int32] reads at the span's offset, cast to [int32], in the slot
    [col * chunk_size + row], and changes no other cell and no other
    buffer.  The span's length and the difference between tag 0 (integer)
    and tag 1 (numeric) play no part: four bytes are read in either case. *)
Theorem kernel_numeric_cell_stores (a : kargs) (row col p len_ ctype j : Z)
  (o : outputs) :
  len_ <> -1 ->
  dev_index (int_outputs o) (col * chunk_size a + row) = Ok j ->
  exists v io,
    decode_int32 (raw_data a) p = Ok v /\
    kernel_numeric_cell a row col p len_ ctype o
    = Ok (mkOut io (str_outputs o) (str_null_pos o)) /\
    dsize io = dsize (int_outputs o) /\
    dcell io j = to_int32 v /\
    (forall k, k <> j -> dcell io k = dcell (int_outputs o) k).
Proof.
  intros Hlen Hslot.
  destruct (decode_int32_returns (raw_data a) p) as [v Hv].
  destruct (dev_set_in_range (int_outputs o) _ j (to_int32 v) Hslot)
    as (io & Hset & Hsize & Hj & Hframe).
  exists v, io. split; [exact Hv|].
  unfold kernel_numeric_cell.
  destruct (Z.eqb_spec len_ (-1)); [contradiction|].
  rewrite Hv. cbn [bind].
  destruct (ctype =? 0); rewrite Hset; cbn [bind]; repeat split; assumption.
Qed.

Lemma kernel_numeric_cell_stores_witness :
  exists v io,
    decode_int32 (raw_data (mkArgs scenario_stream [25; 33] [4; 5]
                                   [0; 2] [4; 1024] 1 2)) 25 = Ok v /\
    kernel_numeric_cell (mkArgs scenario_stream [25; 33] [4; 5]
                                [0; 2] [4; 1024] 1 2) 0 0 25 4 0
      (mkOut (dev_zeros 1) (dev_zeros 1024) (dev_zeros 1))
    = Ok (mkOut io (dev_zeros 1024) (dev_zeros 1)) /\
    dsize io = 1 /\
    dcell io 0 = to_int32 v /\
    (forall k, k <> 0 -> dcell io k = 0).
Proof.
  apply (kernel_numeric_cell_stores
           (mkArgs scenario_stream [25; 33] [4; 5] [0; 2] [4; 1024] 1 2)
           0 0 25 4 0 0 (mkOut (dev_zeros 1) (dev_zeros 1024) (dev_zeros 1))).
  - discriminate.
  - reflexivity.
Defined.

(** ** Where the spans point *)

Lemma getitem_inv (a : list Z) (i b : Z) :
  getitem a i = Ok b -> In b a /\ - len a <= i < len a.
Proof.
  unfold getitem.
  destruct (i <? 0) eqn:Hneg.
  - apply Z.ltb_lt in Hneg.
    destruct (0 <=? i + len a) eqn:H0; [|discriminate].
    destruct (i + len a <? len a) eqn:H1; [|discriminate].
    apply Z.leb_le in H0. apply Z.ltb_lt in H1. cbn [andb].
    intros H. injection H as <-. split; [|lia].
    apply nth_In. unfold len in *. lia.
  - apply Z.ltb_ge in Hneg.
    destruct (0 <=? i) eqn:H0; [|discriminate].
    destruct (i <? len a) eqn:H1; [|discriminate].
    apply Z.ltb_lt in H1. cbn [andb].
    intros H. injection H as <-. split; [|lia].
    apply nth_In. unfold len in *. lia.
Qed.

Lemma twos_complement_be_range (b0 b1 b2 b3 : Z) :
  is_byte b0 -> is_byte b1 -> is_byte b2 -> is_byte b3 ->
  -2147483648 <= twos_complement_be b0 b1 b2 b3 < 2147483648.
Proof.
  intros H0 H1 H2 H3. unfold twos_complement_be.
  pose proof (unsigned_be_range b0 b1 b2 b3 H0 H1 H2 H3) as Hu.
  cbv zeta. destruct (Z.ltb_spec (unsigned_be b0 b1 b2 b3) 2147483648); lia.
Qed.

Lemma parse_fields_spans_ok (n : nat) (chunk_array : list Z) (p0 : Z) :
  Forall is_byte chunk_array ->
  forall st r,
    parse_fields n chunk_array st = Ok r ->
    spans_ok (len chunk_array) p0 st ->
    spans_ok (len chunk_array) p0 (exit_state r).
Proof.
  intros Hbytes. rewrite Forall_forall in Hbytes.
  induction n as [|n IH]; intros st r H Hok.
  - cbn in H. injection H as <-. exact Hok.
  - cbn [parse_fields] in H.
    destruct (Z.gtb_spec (pos st + 4) (len chunk_array)) as [Hgt | Hle].
    { injection H as <-. exact Hok. }
    destruct (getitem chunk_array (pos st)) as [b0|] eqn:E0; [|discriminate H].
    destruct (getitem chunk_array (pos st + 1)) as [b1|] eqn:E1;
      [|discriminate H].
    destruct (getitem chunk_array (pos st + 2)) as [b2|] eqn:E2;
      [|discriminate H].
    destruct (getitem chunk_array (pos st + 3)) as [b3|] eqn:E3;
      [|discriminate H].
    cbn [bind] in H.
    apply getitem_inv in E0, E1, E2, E3.
    destruct E0 as [I0 R0], E1 as [I1 _], E2 as [I2 _], E3 as [I3 _].
    pose proof (read_field_len_twos_complement b0 b1 b2 b3
                  (Hbytes _ I0) (Hbytes _ I1) (Hbytes _ I2) (Hbytes _ I3))
      as Hval.
    pose proof (twos_complement_be_range b0 b1 b2 b3
                  (Hbytes _ I0) (Hbytes _ I1) (Hbytes _ I2) (Hbytes _ I3))
      as Hrange.
    rewrite <- Hval in Hrange. clear Hval.
    set (fl := read_field_len b0 b1 b2 b3) in *.
    destruct Hok as [Hspans Hmono].
    destruct (Z.eqb_spec fl (-1)) as [Hnull | Hdata].
    { apply IH in H; [exact H|]. split; cbn.
      - apply Forall2_app; [exact Hspans|].
        constructor; [left; split; reflexivity | constructor].
      - intros Hall. apply Forall_app in Hall. destruct Hall as [Hall _].
        destruct (Hmono Hall) as [Hpos Hoffs].
        split; [lia|]. apply Forall2_app; [exact Hoffs|].
        constructor; [left; reflexivity | constructor]. }
    destruct (Z.gtb_spec (pos st + 4 + fl) (len chunk_array)) as [Hlong | Hfit].
    { injection H as <-. split; cbn; [exact Hspans|].
      intros Hall. destruct (Hmono Hall) as [Hpos Hoffs]. split; [lia|].
      exact Hoffs. }
    apply IH in H; [exact H|]. split; cbn.
    + apply Forall2_app; [exact Hspans|].
      constructor; [|constructor]. right. repeat split; lia.
    + intros Hall. apply Forall_app in Hall. destruct Hall as [Hall Hfl].
      inversion Hfl as [|? ? Hfl' _]; subst.
      destruct (Hmono Hall) as [Hpos Hoffs].
      split; [lia|]. apply Forall2_app; [exact Hoffs|].
      constructor; [right; lia | constructor].
Qed.

Lemma map_to_int32_id (l : list Z) :
  Forall (fun x => -2147483648 <= x < 2147483648) l -> map to_int32 l = l.
Proof.
  induction 1 as [|x l Hx _ IH]; [reflexivity|].
  cbn. rewrite to_int32_small by exact Hx. rewrite IH. reflexivity.
Qed.

Lemma spans_ok_int32 (n p0 : Z) (st : pstate) :
  n <= 2147483647 -> spans_ok n p0 st -> spans_of st
  = (field_offsets st, field_lengths st).
Proof.
  intros Hn [Hspans _]. unfold spans_of.
  assert (H : Forall (fun x => -2147483648 <= x < 2147483648) (field_offsets st)
              /\ Forall (fun x => -2147483648 <= x < 2147483648)
                   (field_lengths st)).
  { induction Hspans as [|o l offs lens Hol _ IH].
    - split; constructor.
    - destruct IH as [IHo IHl]. unfold span_in in Hol.
      split; constructor; try assumption; lia. }
  destruct H as [Ho Hl].
  rewrite !map_to_int32_id by assumption. reflexivity.
Qed.

Lemma parse_tuples_spans_ok (fuel : nat) (chunk_array : list Z) (p0 : Z) :
  Forall is_byte chunk_array -> len chunk_array <= 2147483647 ->
  forall st offsets lengths,
    parse_tuples fuel chunk_array st = Ok (offsets, lengths) ->
    spans_ok (len chunk_array) p0 st ->
    Forall2 (span_in (len chunk_array)) offsets lengths /\
    (Forall (fun l => -1 <= l) lengths ->
     Forall2 (fun o l => l = -1 \/ p0 <= o) offsets lengths).
Proof.
  intros Hbytes Hsize.
  induction fuel as [|fuel IH]; intros st offsets lengths H Hok.
  - discriminate H.
  - cbn [parse_tuples] in H.
    assert (Hdone : forall st', spans_ok (len chunk_array) p0 st' ->
              Ok (spans_of st') = Ok (offsets, lengths) ->
              Forall2 (span_in (len chunk_array)) offsets lengths /\
              (Forall (fun l => -1 <= l) lengths ->
               Forall2 (fun o l => l = -1 \/ p0 <= o) offsets lengths)).
    { intros st' Hok' E.
      rewrite (spans_ok_int32 _ _ _ Hsize Hok') in E. injection E as <- <-.
      destruct Hok' as [Hs Hm]. split; [exact Hs|].
      intros Hall. exact (proj2 (Hm Hall)). }
    destruct (pos st + 2 <=? len chunk_array); [|exact (Hdone st Hok H)].
    destruct (getitem chunk_array (pos st)) as [hi|]; [|discriminate H].
    destruct (getitem chunk_array (pos st + 1)) as [lo|]; [|discriminate H].
    cbn [bind] in H.
    destruct (to_int16 (Z.lor (Z.shiftl hi 8) lo) =? -1);
      [exact (Hdone st Hok H)|].
    destruct (parse_fields _ chunk_array _) as [r|] eqn:Hf; [|discriminate H].
    apply (parse_fields_spans_ok _ _ p0 Hbytes) in Hf.
    + cbn [bind] in H. destruct r as [st'|st']; cbn in Hf.
      * exact (IH st' offsets lengths H Hf).
      * exact (Hdone st' Hf H).
    + destruct Hok as [Hs Hm]. split; cbn; [exact Hs|].
      intros Hall. destruct (Hm Hall). split; [lia | assumption].
Qed.

Lemma skip_header_returns (chunk_array : list Z) (header_expected : bool) :
  exists p, skip_header chunk_array header_expected = Ok p.
Proof.
  unfold skip_header.
  destruct (header_expected && (11 <=? len chunk_array));
    [|eexists; reflexivity].
  destruct (list_eqb (slice_to chunk_array 11) header);
    [|eexists; reflexivity].
  destruct (Z.leb_spec (11 + 8) (len chunk_array)); [|eexists; reflexivity].
  rewrite !getitem_in_range by lia. cbn [bind]. eexists. reflexivity.
Qed.

(** X11: no span that the segmenter returns points beyond the end of the window:
    each is the NULL span (0, -1) or ends at or before the last byte.  And
    when segmentation starts at a non-negative position and no returned
    length is below -1, every data span also starts inside the window, at or
    after the starting position. *)
Theorem parse_binary_chunk_spans_in_window (fuel : nat) (chunk_array : list Z)
  (header_expected : bool) (p0 : Z) (offsets lengths : list Z) :
  Forall is_byte chunk_array -> len chunk_array <= 2147483647 ->
  skip_header chunk_array header_expected = Ok p0 ->
  parse_binary_chunk fuel chunk_array header_expected = Ok (offsets, lengths) ->
  Forall2 (fun o l => (o = 0 /\ l = -1) \/
                      (l <> -1 /\ o + l <= len chunk_array))
          offsets lengths /\
  (0 <= p0 -> Forall (fun l => -1 <= l) lengths ->
   Forall2 (fun o l => (o = 0 /\ l = -1) \/
                       (0 <= l /\ p0 <= o /\ o + l <= len chunk_array))
           offsets lengths).
Proof.
  intros Hbytes Hsize Hskip H. unfold parse_binary_chunk in H.
  rewrite Hskip in H. cbn [bind] in H.
  apply (parse_tuples_spans_ok _ _ p0 Hbytes Hsize) in H.
  - destruct H as [Hspans Hstart]. split.
    + eapply Forall2_impl; [|exact Hspans].
      intros o l [Hn | Hd]; [left; exact Hn | right; lia].
    + intros Hp0 Hall. specialize (Hstart Hall).
      clear - Hspans Hstart Hall.
      induction Hspans as [|o l offs lens Hol _ IH]; [constructor|].
      inversion Hstart as [|? ? ? ? Ho Hoffs]; subst.
      inversion Hall as [|? ? Hl Hlens]; subst.
      constructor; [|exact (IH Hoffs Hlens)].
      destruct Hol as [Hn | Hd]; [left; exact Hn|].
      right. destruct Ho as [Ho | Ho]; lia.
  - split; cbn; [constructor|]. intros _. split; [lia | constructor].
Qed.

Lemma parse_binary_chunk_spans_in_window_witness :
  Forall2 (fun o l => (o = 0 /\ l = -1) \/
                      (0 <= l /\ 19 <= o /\ o + l <= len scenario_stream))
          [25; 33] [4; 5].
Proof.
  apply (proj2 (parse_binary_chunk_spans_in_window 100 scenario_stream true 19
                  [25; 33] [4; 5]
                  ltac:(repeat constructor; unfold is_byte; lia)
                  ltac:(vm_compute; discriminate)
                  ltac:(reflexivity)
                  ltac:(vm_compute; reflexivity))).
  - lia.
  - repeat constructor; lia.
Defined.

(** ** The segmenter on a well-formed stream *)

Lemma len_app (a b : list Z) : len (a ++ b) = len a + len b.
Proof. unfold len. rewrite List.length_app. lia. Qed.

Lemma len_nonneg (a : list Z) : 0 <= len a.
Proof. unfold len. lia. Qed.

Lemma getitem_app (pre l : list Z) (k : Z) :
  0 <= k < len l ->
  getitem (pre ++ l) (len pre + k) = Ok (nth (Z.to_nat k) l 0).
Proof.
  intros Hk. pose proof (len_nonneg pre).
  rewrite getitem_in_range by (rewrite len_app; lia).
  f_equal. rewrite app_nth2 by (unfold len in *; lia).
  f_equal. unfold len. lia.
Qed.

Lemma getitem_word (pre rest : list Z) (b0 b1 b2 b3 : Z) :
  let w := pre ++ [b0; b1; b2; b3] ++ rest in
  getitem w (len pre) = Ok b0 /\
  getitem w (len pre + 1) = Ok b1 /\
  getitem w (len pre + 2) = Ok b2 /\
  getitem w (len pre + 3) = Ok b3.
Proof.
  cbv zeta.
  assert (Hlen : 4 <= len ([b0; b1; b2; b3] ++ rest))
    by (rewrite len_app; pose proof (len_nonneg rest);
        change (len [b0; b1; b2; b3]) with 4; lia).
  replace (len pre) with (len pre + 0) at 1 by lia.
  rewrite !getitem_app by lia. repeat split; reflexivity.
Qed.

Lemma be32_bytes_are_bytes (x : Z) : Forall is_byte (be32_bytes x).
Proof.
  unfold be32_bytes, is_byte.
  repeat constructor; apply Z.mod_pos_bound; lia.
Qed.

Lemma be32_bytes_value (x : Z) :
  0 <= x < 4294967296 ->
  unsigned_be ((x / 16777216) mod 256) ((x / 65536) mod 256)
              ((x / 256) mod 256) (x mod 256) = x.
Proof.
  intros Hx. unfold unsigned_be.
  pose proof (Z.div_mod x 256 ltac:(lia)) as H1.
  pose proof (Z.div_mod (x / 256) 256 ltac:(lia)) as H2.
  pose proof (Z.div_mod (x / 256 / 256) 256 ltac:(lia)) as H3.
  rewrite Z.div_div in H2, H3 by lia.
  rewrite Z.div_div in H3 by lia.
  change (256 * 256) with 65536 in *.
  change (65536 * 256) with 16777216 in *.
  assert (H4 : x / 16777216 < 256)
    by (apply Z.div_lt_upper_bound; lia).
  assert (H5 : 0 <= x / 16777216) by (apply Z.div_pos; lia).
  rewrite (Z.mod_small (x / 16777216)) by lia.
  lia.
Qed.

Lemma read_field_len_be32 (x : Z) :
  0 <= x < 2147483648 ->
  read_field_len ((x / 16777216) mod 256) ((x / 65536) mod 256)
                 ((x / 256) mod 256) (x mod 256) = x.
Proof.
  intros Hx.
  rewrite read_field_len_twos_complement
    by (unfold is_byte; apply Z.mod_pos_bound; lia).
  unfold twos_complement_be. rewrite be32_bytes_value by lia.
  cbv zeta. destruct (Z.ltb_spec x 2147483648); [reflexivity | lia].
Qed.

Lemma len_field_word (f : field) : len (field_word f) = 4.
Proof. destruct f; reflexivity. Qed.

Lemma len_field_bytes (f : field) :
  len (field_bytes f) = 4 + len (field_data f).
Proof. unfold field_bytes. rewrite len_app, len_field_word. reflexivity. Qed.

(** One round of the field loop on a well-formed field. *)
Lemma parse_fields_field (n : nat) (f : field) (w pre rest : list Z)
  (offsets lengths : list Z) :
  w = pre ++ field_bytes f ++ rest -> field_ok f ->
  parse_fields (S n) w (mkP (len pre) offsets lengths)
  = parse_fields n w
      (mkP (len pre + len (field_bytes f))
           (offsets ++ [field_offset (len pre) f])
           (lengths ++ [field_length f])).
Proof.
  intros Hw [Hbytes Hsize].
  assert (Hword : exists b0 b1 b2 b3,
             field_word f = [b0; b1; b2; b3] /\
             read_field_len b0 b1 b2 b3 = field_length f).
  { destruct f as [|d]; cbn [field_word field_length].
    - exists 255, 255, 255, 255. split; reflexivity.
    - do 4 eexists. split; [reflexivity|].
      apply read_field_len_be32. cbn in Hsize. pose proof (len_nonneg d). lia. }
  destruct Hword as (b0 & b1 & b2 & b3 & Eword & Eval).
  assert (Hw' : w = pre ++ [b0; b1; b2; b3] ++ (field_data f ++ rest)).
  { rewrite Hw. unfold field_bytes. rewrite Eword, <- !app_assoc. reflexivity. }
  destruct (getitem_word pre (field_data f ++ rest) b0 b1 b2 b3)
    as (G0 & G1 & G2 & G3).
  rewrite <- Hw' in G0, G1, G2, G3.
  assert (Hlen : len w = len pre + 4 + len (field_data f) + len rest).
  { rewrite Hw, !len_app, len_field_bytes. lia. }
  pose proof (len_nonneg rest). pose proof (len_nonneg (field_data f)).
  cbn [parse_fields pos field_offsets field_lengths].
  destruct (Z.gtb_spec (len pre + 4) (len w)); [lia|].
  rewrite G0, G1, G2, G3. cbn [bind]. rewrite Eval.
  rewrite len_field_bytes.
  destruct f as [|d]; cbn [field_length field_offset field_data] in *.
  - change (-1 =? -1) with true. cbv iota.
    replace (len pre + (4 + 0)) with (len pre + 4) by lia. reflexivity.
  - destruct (Z.eqb_spec (len d) (-1)); [lia|].
    destruct (Z.gtb_spec (len pre + 4 + len d) (len w)); [lia|].
    replace (len pre + (4 + len d)) with (len pre + 4 + len d) by lia.
    reflexivity.
Qed.

Lemma fields_bytes_cons (f : field) (fs : list field) :
  fields_bytes (f :: fs) = field_bytes f ++ fields_bytes fs.
Proof. reflexivity. Qed.

(** The field loop on the fields of a well-formed row. *)
Lemma parse_fields_fields (fs : list field) :
  forall (w pre rest offsets lengths : list Z),
    w = pre ++ fields_bytes fs ++ rest -> Forall field_ok fs ->
    parse_fields (List.length fs) w (mkP (len pre) offsets lengths)
    = Ok (Next (mkP (len pre + len (fields_bytes fs))
                    (offsets ++ fields_offsets (len pre) fs)
                    (lengths ++ fields_lengths fs))).
Proof.
  induction fs as [|f fs IH]; intros w pre rest offsets lengths Hw Hok.
  - cbn. rewrite !app_nil_r, Z.add_0_r. reflexivity.
  - apply Forall_cons_iff in Hok. destruct Hok as [Hf Hfs].
    cbn [List.length].
    rewrite (parse_fields_field _ f w pre (fields_bytes fs ++ rest))
      by (try assumption; rewrite Hw, fields_bytes_cons, <- app_assoc;
          reflexivity).
    rewrite <- len_app.
    rewrite (IH w (pre ++ field_bytes f) rest)
      by (try assumption; rewrite Hw, fields_bytes_cons, <- !app_assoc;
          reflexivity).
    rewrite fields_bytes_cons, !len_app, <- !app_assoc.
    cbn [fields_offsets fields_lengths map app].
    rewrite Z.add_assoc. reflexivity.
Qed.

Lemma to_int16_count (n : Z) :
  0 <= n < 32768 ->
  to_int16 (Z.lor (Z.shiftl ((n / 256) mod 256) 8) (n mod 256)) = n.
Proof.
  intros Hn.
  pose proof (Z.mod_pos_bound n 256 ltac:(lia)).
  rewrite lor_high_low by (change (2 ^ 8) with 256; lia).
  change (2 ^ 8) with 256.
  assert (0 <= n / 256 < 256)
    by (split; [apply Z.div_pos; lia | apply Z.div_lt_upper_bound; lia]).
  rewrite (Z.mod_small (n / 256)) by lia.
  pose proof (Z.div_mod n 256 ltac:(lia)).
  unfold to_int16. rewrite Z.mod_small by lia. lia.
Qed.

Lemma len_be16 (n : Z) : len (be16_bytes n) = 2.
Proof. reflexivity. Qed.

Lemma rows_bytes_cons (r : list field) (rows : list (list field)) :
  rows_bytes (r :: rows) = row_bytes r ++ rows_bytes rows.
Proof. reflexivity. Qed.

(** The tuple loop on well-formed rows. *)
Lemma parse_tuples_rows (rows : list (list field)) :
  forall (fuel : nat) (w pre tail offsets lengths : list Z),
    w = pre ++ rows_bytes rows ++ tail ->
    Forall row_ok rows -> stops tail ->
    (List.length rows < fuel)%nat ->
    parse_tuples fuel w (mkP (len pre) offsets lengths)
    = Ok (spans_of (mkP (len pre + len (rows_bytes rows))
                        (offsets ++ rows_offsets (len pre) rows)
                        (lengths ++ rows_lengths rows))).
Proof.
  induction rows as [|r rows IH];
    intros fuel w pre tail offsets lengths Hw Hok Hstop Hfuel.
  - destruct fuel as [|fuel]; [cbn in Hfuel; lia|].
    cbn [rows_bytes map List.concat app] in Hw.
    cbn [rows_bytes rows_offsets rows_lengths map List.concat len List.length
           Z.of_nat].
    rewrite !app_nil_r, Z.add_0_r.
    cbn [parse_tuples pos].
    destruct (Z.leb_spec (len pre + 2) (len w)) as [Hle | Hgt];
      [|unfold spans_of; reflexivity].
    destruct Hstop as [Hshort | [rest ->]].
    + rewrite Hw, len_app in Hle. lia.
    + assert (G0 : getitem w (len pre + 0) = Ok 255)
        by (rewrite Hw, getitem_app; [reflexivity|];
            pose proof (len_nonneg rest);
            change (len (255 :: 255 :: rest)) with
              (Z.of_nat (S (S (List.length rest)))); lia).
      assert (G1 : getitem w (len pre + 1) = Ok 255)
        by (rewrite Hw, getitem_app; [reflexivity|];
            pose proof (len_nonneg rest);
            change (len (255 :: 255 :: rest)) with
              (Z.of_nat (S (S (List.length rest)))); lia).
      rewrite Z.add_0_r in G0. rewrite G0, G1. cbn [bind].
      reflexivity.
  - destruct fuel as [|fuel]; [cbn in Hfuel; lia|].
    apply Forall_cons_iff in Hok. destruct Hok as [[Hfields Hcount] Hrows].
    set (n := Z.of_nat (List.length r)) in *.
    assert (Hw1 : w = pre ++ be16_bytes n
                        ++ (fields_bytes r ++ rows_bytes rows ++ tail)).
    { rewrite Hw, rows_bytes_cons. unfold row_bytes. fold n.
      rewrite <- !app_assoc. reflexivity. }
    pose proof (len_nonneg (fields_bytes r ++ rows_bytes rows ++ tail)) as Hrest.
    assert (Hlen : len pre + 2 <= len w).
    { rewrite Hw1, !len_app, len_be16, <- !len_app. lia. }
    assert (G0 : getitem w (len pre + 0) = Ok ((n / 256) mod 256)).
    { rewrite Hw1, getitem_app; [reflexivity|].
      rewrite len_app, len_be16. lia. }
    assert (G1 : getitem w (len pre + 1) = Ok (n mod 256)).
    { rewrite Hw1, getitem_app; [reflexivity|].
      rewrite len_app, len_be16. lia. }
    rewrite Z.add_0_r in G0.
    cbn [parse_tuples pos field_offsets field_lengths].
    destruct (Z.leb_spec (len pre + 2) (len w)); [|lia].
    rewrite G0, G1. cbn [bind].
    rewrite to_int16_count by (unfold n; lia).
    destruct (Z.eqb_spec n (-1)); [unfold n in *; lia|].
    replace (Z.to_nat n) with (List.length r) by (unfold n; lia).
    replace (len pre + 2) with (len (pre ++ be16_bytes n))
      by (rewrite len_app, len_be16; reflexivity).
    rewrite (parse_fields_fields r w (pre ++ be16_bytes n)
               (rows_bytes rows ++ tail))
      by (try assumption; rewrite Hw1, <- !app_assoc; reflexivity).
    cbn [bind]. rewrite <- len_app.
    rewrite (IH fuel w ((pre ++ be16_bytes n) ++ fields_bytes r) tail)
      by (try assumption; try (cbn in Hfuel; lia);
          rewrite Hw1, <- !app_assoc; reflexivity).
    f_equal. f_equal.
    rewrite rows_bytes_cons. unfold rows_lengths.
    cbn [rows_offsets map List.concat]. fold (rows_lengths rows).
    unfold row_bytes. fold n.
    rewrite !len_app, len_be16, <- !app_assoc, !Z.add_assoc. reflexivity.
Qed.

Lemma fields_offsets_range (fs : list field) :
  forall p, 0 <= p ->
    Forall (fun o => 0 <= o <= p + len (fields_bytes fs)) (fields_offsets p fs).
Proof.
  induction fs as [|f fs IH]; intros p Hp; [constructor|].
  cbn [fields_offsets]. rewrite fields_bytes_cons, len_app.
  pose proof (len_nonneg (field_bytes f)). pose proof (len_nonneg (fields_bytes fs)).
  pose proof (len_field_bytes f). pose proof (len_nonneg (field_data f)).
  constructor.
  - destruct f; cbn [field_offset]; lia.
  - eapply Forall_impl; [|apply (IH (p + len (field_bytes f))); lia].
    cbn beta. intros o Ho. lia.
Qed.

Lemma rows_offsets_range (rows : list (list field)) :
  forall p, 0 <= p ->
    Forall (fun o => 0 <= o <= p + len (rows_bytes rows)) (rows_offsets p rows).
Proof.
  induction rows as [|r rows IH]; intros p Hp; [constructor|].
  cbn [rows_offsets]. rewrite rows_bytes_cons, len_app.
  pose proof (len_nonneg (rows_bytes rows)).
  pose proof (len_nonneg (fields_bytes r)).
  assert (Hrow : len (row_bytes r) = 2 + len (fields_bytes r))
    by (unfold row_bytes; rewrite len_app, len_be16; reflexivity).
  apply Forall_app. split.
  - eapply Forall_impl; [|apply (fields_offsets_range r (p + 2)); lia].
    cbn beta. intros o Ho. lia.
  - eapply Forall_impl; [|apply (IH (p + len (row_bytes r))); lia].
    cbn beta. intros o Ho. lia.
Qed.

Lemma rows_lengths_range (rows : list (list field)) :
  Forall row_ok rows ->
  Forall (fun l => -1 <= l < 2147483648) (rows_lengths rows).
Proof.
  induction 1 as [|r rows [Hr _] _ IH]; [constructor|].
  unfold rows_lengths. cbn [map List.concat]. apply Forall_app. split; [|exact IH].
  unfold fields_lengths. apply Forall_map.
  eapply Forall_impl; [|exact Hr].
  intros f [_ Hf]. pose proof (len_nonneg (field_data f)).
  destruct f; cbn [field_length field_data] in *; lia.
Qed.

Lemma rows_spans_int32 (rows : list (list field)) (p n : Z) :
  Forall row_ok rows -> 0 <= p -> p + len (rows_bytes rows) <= 2147483647 ->
  spans_of (mkP n (rows_offsets p rows) (rows_lengths rows))
  = (rows_offsets p rows, rows_lengths rows).
Proof.
  intros Hok Hp Hsize. unfold spans_of. cbn [field_offsets field_lengths].
  rewrite !map_to_int32_id; [reflexivity | |].
  - eapply Forall_impl; [|apply rows_lengths_range; exact Hok].
    cbn beta. intros l Hl. lia.
  - eapply Forall_impl; [|apply rows_offsets_range; exact Hp].
    cbn beta. intros o Ho. lia.
Qed.

(** X12: a window that does not start the stream and is made of whole rows, up
    to the trailer or up to its end, is segmented into exactly the spans of
    its fields, in order: (0, -1) for a NULL field, the position and the
    length of the data for any other.  One round of the loop per row and one
    more are enough. *)
Theorem parse_binary_chunk_rows (rows : list (list field)) (tail : list Z)
  (fuel : nat) :
  Forall row_ok rows -> stops tail ->
  len (rows_bytes rows ++ tail) <= 2147483647 ->
  (List.length rows < fuel)%nat ->
  parse_binary_chunk fuel (rows_bytes rows ++ tail) false
  = Ok (rows_offsets 0 rows, rows_lengths rows).
Proof.
  intros Hok Hstop Hsize Hfuel. unfold parse_binary_chunk.
  cbn [skip_header andb bind].
  change 0 with (len []) at 1.
  rewrite (parse_tuples_rows rows fuel _ [] tail [] []);
    try assumption; [|reflexivity].
  cbn [app]. change (len []) with 0.
  rewrite len_app in Hsize. pose proof (len_nonneg tail).
  f_equal. apply rows_spans_int32; [assumption | lia | lia].
Qed.

Lemma be32_no_mask (b0 b1 b2 b3 : Z) :
  is_byte b0 -> is_byte b1 -> is_byte b2 -> is_byte b3 ->
  be32 b0 b1 b2 b3 = unsigned_be b0 b1 b2 b3.
Proof.
  intros H0 H1 H2 H3. rewrite <- be_word_unsigned by assumption.
  rewrite !land_255_byte by assumption. reflexivity.
Qed.

(** The position behind a complete stream header. *)
Lemma skip_header_complete (flags ext rest : list Z) :
  len flags = 4 -> len ext < 2147483648 ->
  skip_header (header ++ flags ++ be32_bytes (len ext) ++ ext ++ rest) true
  = Ok (19 + len ext).
Proof.
  intros Hflags Hext. pose proof (len_nonneg ext). pose proof (len_nonneg rest).
  set (w := header ++ flags ++ be32_bytes (len ext) ++ ext ++ rest).
  assert (Hlen : 19 <= len w).
  { unfold w. rewrite !len_app, Hflags.
    change (len header) with 11. change (len (be32_bytes (len ext))) with 4.
    lia. }
  unfold skip_header.
  destruct (Z.leb_spec 11 (len w)); [|lia]. cbn [andb].
  replace (list_eqb (slice_to w 11) header) with true by reflexivity.
  destruct (Z.leb_spec (11 + 8) (len w)); [|lia].
  rewrite (getitem_in_range w 11), (getitem_in_range w 12),
    (getitem_in_range w 13), (getitem_in_range w 14) by lia.
  cbn [bind].
  assert (Hw : w = (header ++ flags) ++ be32_bytes (len ext) ++ (ext ++ rest))
    by (unfold w; rewrite <- !app_assoc; reflexivity).
  assert (Hpre : len (header ++ flags) = 15)
    by (rewrite len_app, Hflags; reflexivity).
  destruct (getitem_word (header ++ flags) (ext ++ rest)
              ((len ext / 16777216) mod 256) ((len ext / 65536) mod 256)
              ((len ext / 256) mod 256) (len ext mod 256))
    as (G0 & G1 & G2 & G3).
  fold (be32_bytes (len ext)) in G0, G1, G2, G3.
  rewrite <- Hw, Hpre in G0, G1, G2, G3.
  change (15 + 1) with 16 in G1. change (15 + 2) with 17 in G2.
  change (15 + 3) with 18 in G3.
  rewrite G0, G1, G2, G3. cbn [bind].
  rewrite be32_no_mask by (unfold is_byte; apply Z.mod_pos_bound; lia).
  rewrite be32_bytes_value by lia.
  rewrite to_int32_small by lia. f_equal. lia.
Qed.

(** X13: a window that starts the stream (the signature, four bytes of flags,
    the extension length and the extension) and goes on with whole rows, up
    to the trailer or up to its end, is segmented into exactly the spans of
    its fields, counted from the start of the window. *)
Theorem parse_binary_chunk_stream (rows : list (list field))
  (flags ext tail : list Z) (fuel : nat) :
  Forall row_ok rows -> stops tail -> len flags = 4 ->
  len (header ++ flags ++ be32_bytes (len ext) ++ ext
              ++ rows_bytes rows ++ tail) <= 2147483647 ->
  (List.length rows < fuel)%nat ->
  parse_binary_chunk fuel
    (header ++ flags ++ be32_bytes (len ext) ++ ext ++ rows_bytes rows ++ tail)
    true
  = Ok (rows_offsets (19 + len ext) rows, rows_lengths rows).
Proof.
  intros Hok Hstop Hflags Hsize Hfuel.
  pose proof (len_nonneg ext). pose proof (len_nonneg tail).
  pose proof (len_nonneg (rows_bytes rows)).
  rewrite !len_app, Hflags in Hsize.
  change (len header) with 11 in Hsize.
  change (len (be32_bytes (len ext))) with 4 in Hsize.
  unfold parse_binary_chunk.
  rewrite skip_header_complete by (try assumption; lia).
  cbn [bind].
  set (pre := header ++ flags ++ be32_bytes (len ext) ++ ext).
  assert (Hpre : len pre = 19 + len ext).
  { unfold pre. rewrite !len_app, Hflags.
    change (len header) with 11. change (len (be32_bytes (len ext))) with 4.
    lia. }
  rewrite <- Hpre.
  rewrite (parse_tuples_rows rows fuel _ pre tail [] []);
    try assumption;
    [|unfold pre; rewrite <- !app_assoc; reflexivity].
  cbn [app]. f_equal. apply rows_spans_int32; [assumption | lia | lia].
Qed.

Lemma parse_binary_chunk_stream_witness :
  parse_binary_chunk 2
    (header ++ [0; 0; 0; 0] ++ be32_bytes (len []) ++ []
            ++ rows_bytes [[Data [0; 0; 0; 42]; Data [104; 101; 108; 108; 111]]]
            ++ [255; 255])
    true
  = Ok (rows_offsets (19 + len [])
          [[Data [0; 0; 0; 42]; Data [104; 101; 108; 108; 111]]],
        rows_lengths [[Data [0; 0; 0; 42]; Data [104; 101; 108; 108; 111]]]).
Proof.
  apply (parse_binary_chunk_stream
           [[Data [0; 0; 0; 42]; Data [104; 101; 108; 108; 111]]]
           [0; 0; 0; 0] [] [255; 255] 2).
  - repeat constructor; unfold is_byte; cbn; lia.
  - right. exists []. reflexivity.
  - reflexivity.
  - vm_compute. discriminate.
  - cbn. lia.
Defined.

Lemma parse_binary_chunk_rows_witness :
  parse_binary_chunk 3
    (rows_bytes [[Null; Data [7]]; [Data [1; 2]; Null]] ++ []) false
  = Ok (rows_offsets 0 [[Null; Data [7]]; [Data [1; 2]; Null]],
        rows_lengths [[Null; Data [7]]; [Data [1; 2]; Null]]).
Proof.
  apply (parse_binary_chunk_rows [[Null; Data [7]]; [Data [1; 2]; Null]] [] 3).
  - repeat constructor; unfold is_byte; cbn; lia.
  - left. cbn. lia.
  - vm_compute. discriminate.
  - cbn. lia.
Defined.

(** ** Loops with an invariant *)

Lemma for_each_map_seq {S : Type} (I : nat -> S -> Prop) (f : nat -> Z)
  (body : Z -> S -> result S) (n : nat) :
  forall (a : nat) (s : S),
    (forall j s, (a <= j < a + n)%nat -> I j s ->
                 exists s', body (f j) s = Ok s' /\ I (Datatypes.S j) s') ->
    I a s ->
    exists s', for_each (map f (seq a n)) body s = Ok s' /\ I (a + n)%nat s'.
Proof.
  induction n as [|n IH]; intros a s Hstep Hinit.
  - exists s. split; [reflexivity|]. rewrite Nat.add_0_r. exact Hinit.
  - cbn [seq map for_each].
    destruct (Hstep a s ltac:(lia) Hinit) as (s1 & E1 & I1).
    rewrite E1. cbn [bind].
    destruct (IH (Datatypes.S a) s1) as (s' & E' & I').
    + intros j s2 Hj. apply Hstep. lia.
    + exact I1.
    + exists s'. split; [exact E'|].
      replace (a + Datatypes.S n)%nat with (Datatypes.S a + n)%nat by lia.
      exact I'.
Qed.

(** [for i in range(n)] with an invariant over the number of rounds. *)
Lemma for_each_range {S : Type} (I : Z -> S -> Prop)
  (body : Z -> S -> result S) (n : Z) (s : S) :
  0 <= n ->
  (forall k s, 0 <= k < n -> I k s ->
               exists s', body k s = Ok s' /\ I (k + 1) s') ->
  I 0 s ->
  exists s', for_each (range n) body s = Ok s' /\ I n s'.
Proof.
  intros Hn Hstep Hinit. unfold range, range3.
  replace ((n - 0 + 1 - 1) / 1) with n by (rewrite Z.div_1_r; lia).
  destruct (for_each_map_seq (fun j => I (Z.of_nat j))
              (fun k => 0 + 1 * Z.of_nat k) body (Z.to_nat n) 0%nat s)
    as (s' & E & Hs').
  - intros j s1 Hj Hj'.
    replace (0 + 1 * Z.of_nat j) with (Z.of_nat j) by lia.
    destruct (Hstep (Z.of_nat j) s1 ltac:(lia) Hj') as (s2 & E2 & I2).
    exists s2. split; [exact E2|].
    replace (Z.of_nat (Datatypes.S j)) with (Z.of_nat j + 1) by lia. exact I2.
  - exact Hinit.
  - exists s'. split; [exact E|].
    replace n with (Z.of_nat (0 + Z.to_nat n)) by lia. exact Hs'.
Qed.

(** [for i in range(0, n, step)] with an invariant over the number of
    rounds; round [k] runs the body at [step * k]. *)
Lemma for_each_range3 {S : Type} (I : Z -> S -> Prop)
  (body : Z -> S -> result S) (n step : Z) (s : S) :
  0 < step ->
  let rounds := Z.max 0 ((n + step - 1) / step) in
  (forall k s, 0 <= k < rounds -> I k s ->
               exists s', body (step * k) s = Ok s' /\ I (k + 1) s') ->
  I 0 s ->
  exists s', for_each (range3 0 n step) body s = Ok s' /\ I rounds s'.
Proof.
  intros Hstep rounds Hbody Hinit. unfold range3.
  replace (n - 0 + step - 1) with (n + step - 1) by lia.
  destruct (for_each_map_seq (fun j => I (Z.of_nat j))
              (fun k => 0 + step * Z.of_nat k) body
              (Z.to_nat ((n + step - 1) / step)) 0%nat s)
    as (s' & E & Hs').
  - intros j s1 Hj Hj'.
    replace (0 + step * Z.of_nat j) with (step * Z.of_nat j) by lia.
    destruct (Hbody (Z.of_nat j) s1 ltac:(unfold rounds; lia) Hj')
      as (s2 & E2 & I2).
    exists s2. split; [exact E2|].
    replace (Z.of_nat (Datatypes.S j)) with (Z.of_nat j + 1) by lia. exact I2.
  - exact Hinit.
  - exists s'. split; [exact E|].
    replace rounds with (Z.of_nat (0 + Z.to_nat ((n + step - 1) / step)))
      by (unfold rounds; lia).
    exact Hs'.
Qed.

(** ** [bulk_copy_64bytes] copies bytes *)

Lemma fold_be_shift (l : list Z) :
  forall a, fold_left (fun acc b => acc * 256 + b) l a
            = a * 256 ^ len l + be_value l.
Proof.
  unfold be_value.
  induction l as [|b l IH]; intros a.
  - cbn. lia.
  - cbn [fold_left]. rewrite (IH (a * 256 + b)), (IH (0 * 256 + b)).
    replace (len (b :: l)) with (len l + 1) by (unfold len; cbn; lia).
    rewrite Z.pow_add_r by (pose proof (len_nonneg l); lia).
    lia.
Qed.

Lemma be_value_app (l1 l2 : list Z) :
  be_value (l1 ++ l2) = be_value l1 * 256 ^ len l2 + be_value l2.
Proof.
  unfold be_value at 1. rewrite fold_left_app.
  apply fold_be_shift.
Qed.

Lemma be_value_bound (l : list Z) :
  Forall is_byte l -> 0 <= be_value l < 256 ^ len l.
Proof.
  induction l as [|b l IH] using rev_ind; intros H.
  - cbn. lia.
  - apply Forall_app in H. destruct H as [Hl Hb].
    inversion Hb as [|? ? Hb' _]; subst. specialize (IH Hl).
    rewrite be_value_app, len_app.
    change (len [b]) with 1. change (be_value [b]) with (0 * 256 + b).
    rewrite Z.pow_add_r by (pose proof (len_nonneg l); lia).
    unfold is_byte in Hb'. change (256 ^ 1) with 256. nia.
Qed.

Lemma to_int64_mod (x : Z) : to_int64 x mod two64 = x mod two64.
Proof.
  unfold to_int64. fold two64.
  rewrite Zminus_mod_idemp_l. f_equal. lia.
Qed.

(** One round of the packing loop: [val = (val << 8) | b]. *)
Lemma pack_step (v u b : Z) :
  v mod two64 = u mod two64 -> is_byte b ->
  to_int64 (Z.lor (to_int64 (Z.shiftl v 8)) b) mod two64
  = (u * 256 + b) mod two64.
Proof.
  intros Hv Hb. rewrite to_int64_mod.
  set (x := to_int64 (Z.shiftl v 8)).
  assert (Hx : x mod two64 = (u * 256) mod two64).
  { unfold x. rewrite to_int64_mod, Z.shiftl_mul_pow2 by lia.
    change (2 ^ 8) with 256.
    rewrite <- (Z.mul_mod_idemp_l v), Hv, Z.mul_mod_idemp_l by (unfold two64; lia).
    reflexivity. }
  assert (Hlow : x mod 256 = 0).
  { assert (Hdiv : (256 | two64)) by (exists 72057594037927936; reflexivity).
    rewrite <- (Z.mod_mod_divide x two64 256) by exact Hdiv.
    rewrite Hx, Z.mod_mod_divide by exact Hdiv.
    apply Z.mod_mul. lia. }
  assert (Hxd : x = x / 256 * 256)
    by (pose proof (Z.div_mod x 256 ltac:(lia)); lia).
  rewrite Hxd. change 256 with (2 ^ 8) at 2.
  rewrite lor_mul_low by (change (2 ^ 8) with 256; exact Hb || lia).
  change (2 ^ 8) with 256. rewrite <- Hxd.
  rewrite <- Z.add_mod_idemp_l, Hx, Z.add_mod_idemp_l by (unfold two64; lia).
  reflexivity.
Qed.

(** Reading one byte back: [(val >> s) & 0xFF]. *)
Lemma unpack_byte (v hi b lo s : Z) :
  0 <= s <= 56 -> 0 <= lo < 2 ^ s -> is_byte b -> 0 <= hi ->
  (hi * 256 + b) * 2 ^ s + lo < two64 ->
  v mod two64 = ((hi * 256 + b) * 2 ^ s + lo) mod two64 ->
  to_uint8 (Z.land (Z.shiftr v s) 255) = b.
Proof.
  intros Hs Hlo Hb Hhi Hu Hv. unfold is_byte in Hb.
  set (u := (hi * 256 + b) * 2 ^ s + lo) in *.
  assert (Hpow : 0 < 2 ^ s) by (apply Z.pow_pos_nonneg; lia).
  assert (Hu0 : 0 <= u) by (unfold u; nia).
  rewrite (Z.mod_small u) in Hv by lia.
  assert (Hvu : v = u + v / two64 * (2 ^ (56 - s) * 256) * 2 ^ s).
  { pose proof (Z.div_mod v two64 ltac:(unfold two64; lia)) as Hdm.
    rewrite Hv in Hdm.
    assert (E : 2 ^ (56 - s) * 256 * 2 ^ s = two64).
    { change 256 with (2 ^ 8).
      rewrite <- !Z.pow_add_r by lia.
      replace (56 - s + 8 + s) with 64 by lia. reflexivity. }
    rewrite <- Z.mul_assoc, E. lia. }
  change 255 with (Z.ones 8). rewrite Z.land_ones by lia.
  change (2 ^ 8) with 256. unfold to_uint8. rewrite Z.mod_mod by lia.
  rewrite Z.shiftr_div_pow2 by lia.
  rewrite Hvu.
  rewrite Z.mul_assoc, Z.div_add by lia.
  rewrite Z.mod_add by lia.
  unfold u. rewrite Z.div_add_l by lia.
  rewrite (Z.div_small lo) by lia. rewrite Z.add_0_r.
  rewrite Z.add_comm, Z.mod_add by lia.
  apply Z.mod_small. lia.
Qed.

Lemma pack8_value (c0 c1 c2 c3 c4 c5 c6 c7 : Z) :
  is_byte c0 -> is_byte c1 -> is_byte c2 -> is_byte c3 ->
  is_byte c4 -> is_byte c5 -> is_byte c6 -> is_byte c7 ->
  pack8 c0 c1 c2 c3 c4 c5 c6 c7 mod two64
  = ((((((((0 * 256 + c0) * 256 + c1) * 256 + c2) * 256 + c3) * 256 + c4)
        * 256 + c5) * 256 + c6) * 256 + c7) mod two64.
Proof.
  intros H0 H1 H2 H3 H4 H5 H6 H7. unfold pack8, pack_byte.
  repeat (apply pack_step; [|assumption]).
  reflexivity.
Qed.

(** The eight bytes come back out of the packed word, whatever its sign. *)
Lemma pack8_unpack (c0 c1 c2 c3 c4 c5 c6 c7 : Z) :
  is_byte c0 -> is_byte c1 -> is_byte c2 -> is_byte c3 ->
  is_byte c4 -> is_byte c5 -> is_byte c6 -> is_byte c7 ->
  let v := pack8 c0 c1 c2 c3 c4 c5 c6 c7 in
  to_uint8 (Z.land (Z.shiftr v ((7 - 0) * 8)) 255) = c0 /\
  to_uint8 (Z.land (Z.shiftr v ((7 - 1) * 8)) 255) = c1 /\
  to_uint8 (Z.land (Z.shiftr v ((7 - 2) * 8)) 255) = c2 /\
  to_uint8 (Z.land (Z.shiftr v ((7 - 3) * 8)) 255) = c3 /\
  to_uint8 (Z.land (Z.shiftr v ((7 - 4) * 8)) 255) = c4 /\
  to_uint8 (Z.land (Z.shiftr v ((7 - 5) * 8)) 255) = c5 /\
  to_uint8 (Z.land (Z.shiftr v ((7 - 6) * 8)) 255) = c6 /\
  to_uint8 (Z.land (Z.shiftr v ((7 - 7) * 8)) 255) = c7.
Proof.
  intros H0 H1 H2 H3 H4 H5 H6 H7. cbv zeta.
  pose proof (pack8_value c0 c1 c2 c3 c4 c5 c6 c7 H0 H1 H2 H3 H4 H5 H6 H7)
    as Hv.
  set (v := pack8 c0 c1 c2 c3 c4 c5 c6 c7) in *.
  unfold is_byte in *.
  repeat split.
  - apply (unpack_byte v 0 c0
             (((((((c1 * 256 + c2) * 256 + c3) * 256 + c4) * 256 + c5) * 256
                 + c6) * 256) + c7) 56);
      change (2 ^ 56) with 72057594037927936; unfold is_byte;
      try lia; try (unfold two64; lia);
      rewrite Hv; f_equal; lia.
  - apply (unpack_byte v c0 c1
             ((((((c2 * 256 + c3) * 256 + c4) * 256 + c5) * 256 + c6) * 256)
                + c7) 48);
      change (2 ^ 48) with 281474976710656; unfold is_byte;
      try lia; try (unfold two64; lia);
      rewrite Hv; f_equal; lia.
  - apply (unpack_byte v (c0 * 256 + c1) c2
             (((((c3 * 256 + c4) * 256 + c5) * 256 + c6) * 256) + c7) 40);
      change (2 ^ 40) with 1099511627776; unfold is_byte;
      try lia; try (unfold two64; lia);
      rewrite Hv; f_equal; lia.
  - apply (unpack_byte v ((c0 * 256 + c1) * 256 + c2) c3
             ((((c4 * 256 + c5) * 256 + c6) * 256) + c7) 32);
      change (2 ^ 32) with 4294967296; unfold is_byte;
      try lia; try (unfold two64; lia);
      rewrite Hv; f_equal; lia.
  - apply (unpack_byte v (((c0 * 256 + c1) * 256 + c2) * 256 + c3) c4
             (((c5 * 256 + c6) * 256) + c7) 24);
      change (2 ^ 24) with 16777216; unfold is_byte;
      try lia; try (unfold two64; lia);
      rewrite Hv; f_equal; lia.
  - apply (unpack_byte v
             ((((c0 * 256 + c1) * 256 + c2) * 256 + c3) * 256 + c4) c5
             (c6 * 256 + c7) 16);
      change (2 ^ 16) with 65536; unfold is_byte;
      try lia; try (unfold two64; lia);
      rewrite Hv; f_equal; lia.
  - apply (unpack_byte v
             (((((c0 * 256 + c1) * 256 + c2) * 256 + c3) * 256 + c4) * 256
                + c5) c6 c7 8);
      change (2 ^ 8) with 256; unfold is_byte;
      try lia; try (unfold two64; lia);
      rewrite Hv; f_equal; lia.
  - apply (unpack_byte v
             ((((((c0 * 256 + c1) * 256 + c2) * 256 + c3) * 256 + c4) * 256
                 + c5) * 256 + c6) c7 0 0);
      change (2 ^ 0) with 1; unfold is_byte;
      try lia; try (unfold two64; lia);
      rewrite Hv; f_equal; lia.
Qed.

Lemma copied_refl (src : list Z) (sp : Z) (dst : devarray) (dp k : Z) :
  k <= 0 -> copied src sp dst dst dp k.
Proof. intros Hk. repeat split; intros; try reflexivity; lia. Qed.

Lemma copied_shrink (src : list Z) (sp : Z) (dst0 dst : devarray) (dp k : Z) :
  copied src sp dst0 dst dp 0 -> k <= 0 -> copied src sp dst0 dst dp k.
Proof.
  intros (Hs & _ & Hf) Hk. repeat split; [exact Hs | intros; lia |].
  intros c _. apply Hf. lia.
Qed.

Lemma dev_index_in_range (a : devarray) (i : Z) :
  0 <= i < dsize a -> dev_index a i = Ok i.
Proof.
  intros H. unfold dev_index.
  destruct (Z.ltb_spec i 0); [lia|].
  destruct (Z.leb_spec 0 i); [|lia].
  destruct (Z.ltb_spec i (dsize a)); [|lia]. reflexivity.
Qed.

(** One more byte. *)
Lemma copied_byte (src : list Z) (sp : Z) (dst0 dst : devarray) (dp k v : Z) :
  copied src sp dst0 dst dp k -> 0 <= k ->
  0 <= dp + k < dsize dst0 ->
  v = nth (Z.to_nat (sp + k)) src 0 ->
  exists dst', dev_set dst (dp + k) v = Ok dst' /\
               copied src sp dst0 dst' dp (k + 1).
Proof.
  intros (Hs & Hc & Hf) Hk Hin ->.
  destruct (dev_set_in_range dst (dp + k) (dp + k)
              (nth (Z.to_nat (sp + k)) src 0))
    as (dst' & Hset & Hs' & Hv & Hframe).
  { apply dev_index_in_range. lia. }
  exists dst'. split; [exact Hset|].
  repeat split.
  - lia.
  - intros i Hi. destruct (Z.eq_dec i k) as [-> | Hne]; [exact Hv|].
    rewrite Hframe by lia. apply Hc. lia.
  - intros c Hc'. rewrite Hframe by lia. apply Hf. lia.
Qed.

(** The byte-by-byte loop of the last, short group. *)
Lemma copy_tail (src : list Z) (sp : Z) (dst0 dst : devarray) (dp i m : Z) :
  Forall is_byte src ->
  copied src sp dst0 dst dp i -> 0 <= i -> 0 <= m ->
  0 <= sp + i -> sp + i + m <= len src ->
  0 <= dp + i -> dp + i + m <= dsize dst0 ->
  exists dst',
    for_each (range m)
      (fun j dst => b <- getitem src (sp + i + j) ;;
                    dev_set dst (dp + i + j) (to_uint8 b)) dst = Ok dst' /\
    copied src sp dst0 dst' dp (i + m).
Proof.
  intros Hbytes Hc Hi Hm Hs0 Hs1 Hd0 Hd1.
  rewrite Forall_forall in Hbytes.
  apply (for_each_range (fun j d => copied src sp dst0 d dp (i + j)));
    [exact Hm | | rewrite Z.add_0_r; exact Hc].
  intros j d Hj Hd.
  rewrite getitem_in_range by lia. cbn [bind].
  assert (Hb : is_byte (nth (Z.to_nat (sp + i + j)) src 0))
    by (apply Hbytes, nth_In; unfold len in *; lia).
  unfold to_uint8. rewrite Z.mod_small by exact Hb.
  rewrite <- !Z.add_assoc.
  destruct (copied_byte src sp dst0 d dp (i + j) _ Hd ltac:(lia) ltac:(lia)
              eq_refl) as (d' & E & Hd').
  exists d'. split; [exact E|].
  replace (i + (j + 1)) with (i + j + 1) by lia. exact Hd'.
Qed.

(** The packing loop of a full group. *)
Lemma pack_loop (src : list Z) (base : Z) :
  0 <= base -> base + 8 <= len src ->
  for_each (range 8)
    (fun j val => b <- getitem src (base + j) ;;
                  Ok (to_int64 (Z.lor (to_int64 (Z.shiftl val 8)) b))) 0
  = Ok (pack8 (nth (Z.to_nat (base + 0)) src 0) (nth (Z.to_nat (base + 1)) src 0)
              (nth (Z.to_nat (base + 2)) src 0) (nth (Z.to_nat (base + 3)) src 0)
              (nth (Z.to_nat (base + 4)) src 0) (nth (Z.to_nat (base + 5)) src 0)
              (nth (Z.to_nat (base + 6)) src 0) (nth (Z.to_nat (base + 7)) src 0)).
Proof.
  intros H0 H1.
  change (range 8) with [0; 1; 2; 3; 4; 5; 6; 7].
  cbn [for_each].
  do 8 (rewrite getitem_in_range by lia; cbn [bind]).
  unfold pack8, pack_byte.
  reflexivity.
Qed.

(** A full group of eight bytes, through the packed 64-bit word. *)
Lemma copy_group (src : list Z) (sp : Z) (dst0 dst : devarray) (dp i : Z) :
  Forall is_byte src ->
  copied src sp dst0 dst dp i -> 0 <= i ->
  0 <= sp + i -> sp + i + 8 <= len src ->
  0 <= dp + i -> dp + i + 8 <= dsize dst0 ->
  exists dst',
    (val <- for_each (range 8)
              (fun j val => b <- getitem src (sp + i + j) ;;
                            Ok (to_int64 (Z.lor (to_int64 (Z.shiftl val 8)) b)))
              0 ;;
     for_each (range 8)
       (fun j dst =>
          dev_set dst (dp + i + j)
            (to_uint8 (Z.land (Z.shiftr val ((7 - j) * 8)) 255))) dst)
    = Ok dst' /\
    copied src sp dst0 dst' dp (i + 8).
Proof.
  intros Hbytes Hc Hi Hs0 Hs1 Hd0 Hd1.
  rewrite Forall_forall in Hbytes.
  assert (Hb : forall j, 0 <= j < 8 ->
             is_byte (nth (Z.to_nat (sp + i + j)) src 0))
    by (intros j Hj; apply Hbytes, nth_In; unfold len in *; lia).
  rewrite (pack_loop src (sp + i)) by lia.
  cbn [bind].
  destruct (pack8_unpack
              (nth (Z.to_nat (sp + i + 0)) src 0)
              (nth (Z.to_nat (sp + i + 1)) src 0)
              (nth (Z.to_nat (sp + i + 2)) src 0)
              (nth (Z.to_nat (sp + i + 3)) src 0)
              (nth (Z.to_nat (sp + i + 4)) src 0)
              (nth (Z.to_nat (sp + i + 5)) src 0)
              (nth (Z.to_nat (sp + i + 6)) src 0)
              (nth (Z.to_nat (sp + i + 7)) src 0))
    as (U0 & U1 & U2 & U3 & U4 & U5 & U6 & U7); try (apply Hb; lia).
  set (v := pack8 _ _ _ _ _ _ _ _) in *.
  change (range 8) with [0; 1; 2; 3; 4; 5; 6; 7].
  cbn [for_each].
  rewrite U0, U1, U2, U3, U4, U5, U6, U7.
  rewrite <- !Z.add_assoc.
  assert (C0 : copied src sp dst0 dst dp (i + 0))
    by (rewrite Z.add_0_r; exact Hc).
  destruct (copied_byte src sp dst0 dst dp (i + 0) _ C0 ltac:(lia) ltac:(lia)
              eq_refl) as (d1 & E1 & C1).
  rewrite E1. cbn [bind]. replace (i + 0 + 1) with (i + 1) in C1 by lia.
  destruct (copied_byte src sp dst0 d1 dp (i + 1) _ C1 ltac:(lia) ltac:(lia)
              eq_refl) as (d2 & E2 & C2).
  rewrite E2. cbn [bind]. replace (i + 1 + 1) with (i + 2) in C2 by lia.
  destruct (copied_byte src sp dst0 d2 dp (i + 2) _ C2 ltac:(lia) ltac:(lia)
              eq_refl) as (d3 & E3 & C3).
  rewrite E3. cbn [bind]. replace (i + 2 + 1) with (i + 3) in C3 by lia.
  destruct (copied_byte src sp dst0 d3 dp (i + 3) _ C3 ltac:(lia) ltac:(lia)
              eq_refl) as (d4 & E4 & C4).
  rewrite E4. cbn [bind]. replace (i + 3 + 1) with (i + 4) in C4 by lia.
  destruct (copied_byte src sp dst0 d4 dp (i + 4) _ C4 ltac:(lia) ltac:(lia)
              eq_refl) as (d5 & E5 & C5).
  rewrite E5. cbn [bind]. replace (i + 4 + 1) with (i + 5) in C5 by lia.
  destruct (copied_byte src sp dst0 d5 dp (i + 5) _ C5 ltac:(lia) ltac:(lia)
              eq_refl) as (d6 & E6 & C6).
  rewrite E6. cbn [bind]. replace (i + 5 + 1) with (i + 6) in C6 by lia.
  destruct (copied_byte src sp dst0 d6 dp (i + 6) _ C6 ltac:(lia) ltac:(lia)
              eq_refl) as (d7 & E7 & C7).
  rewrite E7. cbn [bind]. replace (i + 6 + 1) with (i + 7) in C7 by lia.
  destruct (copied_byte src sp dst0 d7 dp (i + 7) _ C7 ltac:(lia) ltac:(lia)
              eq_refl) as (d8 & E8 & C8).
  rewrite E8. replace (i + 7 + 1) with (i + 8) in C8 by lia.
  exists d8. split; [reflexivity | exact C8].
Qed.

Lemma bulk_copy_64bytes_copied (src : list Z) (src_pos : Z) (dst : devarray)
  (dst_pos size : Z) :
  Forall is_byte src ->
  let n := Z.max 0 (Z.min size 64) in
  0 <= src_pos -> src_pos + n <= len src ->
  0 <= dst_pos -> dst_pos + n <= dsize dst ->
  exists dst',
    bulk_copy_64bytes src src_pos dst dst_pos size = Ok dst' /\
    copied src src_pos dst dst' dst_pos n.
Proof.
  intros Hbytes n Hs0 Hs1 Hd0 Hd1. unfold bulk_copy_64bytes.
  set (size' := if size >? 64 then 64 else size).
  assert (Hsize : size' = Z.min size 64)
    by (unfold size'; destruct (Z.gtb_spec size 64); lia).
  assert (Hn : n = Z.max 0 size') by (unfold n; lia).
  pose proof (Z.div_mod (size' + 8 - 1) 8 ltac:(lia)) as Hdm.
  pose proof (Z.mod_pos_bound (size' + 8 - 1) 8 ltac:(lia)) as Hmb.
  destruct (for_each_range3
              (fun k d => copied src src_pos dst d dst_pos
                            (Z.max 0 (Z.min (8 * k) size')))
              (fun i dst0 =>
                 if i + 8 <=? size'
                 then
                   val <- for_each (range 8)
                            (fun j val =>
                               b <- getitem src (src_pos + i + j) ;;
                               Ok (to_int64
                                     (Z.lor (to_int64 (Z.shiftl val 8)) b)))
                            0 ;;
                   for_each (range 8)
                     (fun j dst1 =>
                        dev_set dst1 (dst_pos + i + j)
                          (to_uint8
                             (Z.land (Z.shiftr val ((7 - j) * 8)) 255)))
                     dst0
                 else
                   for_each (range (size' - i))
                     (fun j dst1 =>
                        b <- getitem src (src_pos + i + j) ;;
                        dev_set dst1 (dst_pos + i + j) (to_uint8 b)) dst0)
              size' 8 dst ltac:(lia)) as (dst' & E & Hc).
  - intros k d Hk Hd.
    assert (Hlt : 8 * k < size') by lia.
    replace (Z.max 0 (Z.min (8 * k) size')) with (8 * k) in Hd by lia.
    destruct (Z.leb_spec (8 * k + 8) size') as [Hfull | Hpart].
    + destruct (copy_group src src_pos dst d dst_pos (8 * k) Hbytes Hd)
        as (d' & E & Hd'); try lia.
      exists d'. split; [exact E|].
      replace (Z.max 0 (Z.min (8 * (k + 1)) size')) with (8 * k + 8) by lia.
      exact Hd'.
    + destruct (copy_tail src src_pos dst d dst_pos (8 * k) (size' - 8 * k)
                  Hbytes Hd) as (d' & E & Hd'); try lia.
      exists d'. split; [exact E|].
      replace (Z.max 0 (Z.min (8 * (k + 1)) size')) with (8 * k + (size' - 8 * k))
        by lia.
      exact Hd'.
  - apply copied_refl. lia.
  - exists dst'. split; [exact E|].
    replace n with (Z.max 0 (Z.min (8 * Z.max 0 ((size' + 8 - 1) / 8)) size'))
      by lia.
    exact Hc.
Qed.

(** X14: [bulk_copy_64bytes] copies the first [min(size, 64)] bytes, byte for
    byte, whatever their values, and changes no other cell. *)
Theorem bulk_copy_64bytes_copies (src : list Z) (src_pos : Z) (dst : devarray)
  (dst_pos size : Z) :
  Forall is_byte src ->
  let n := Z.max 0 (Z.min size 64) in
  0 <= src_pos -> src_pos + n <= len src ->
  0 <= dst_pos -> dst_pos + n <= dsize dst ->
  exists dst',
    bulk_copy_64bytes src src_pos dst dst_pos size = Ok dst' /\
    copied src src_pos dst dst' dst_pos n.
Proof. exact (bulk_copy_64bytes_copied src src_pos dst dst_pos size). Qed.

Lemma bulk_copy_64bytes_copies_witness :
  exists dst',
    bulk_copy_64bytes pad_field 0 (dev_zeros 16) 0 15 = Ok dst' /\
    copied pad_field 0 (dev_zeros 16) dst' 0 15.
Proof.
  apply (bulk_copy_64bytes_copies pad_field 0 (dev_zeros 16) 0 15).
  - repeat constructor; unfold is_byte; lia.
  - lia.
  - vm_compute. discriminate.
  - lia.
  - vm_compute. discriminate.
Defined.

Lemma copied_trans (src : list Z) (sp : Z) (d0 d1 d2 : devarray) (dp k m : Z) :
  0 <= k -> 0 <= m ->
  copied src sp d0 d1 dp k ->
  copied src (sp + k) d1 d2 (dp + k) m ->
  copied src sp d0 d2 dp (k + m).
Proof.
  intros Hk Hm (S1 & C1 & F1) (S2 & C2 & F2). repeat split.
  - lia.
  - intros i Hi. destruct (Z.lt_ge_cases i k) as [Hlt | Hge].
    + rewrite F2 by lia. apply C1. lia.
    + specialize (C2 (i - k) ltac:(lia)).
      replace (dp + k + (i - k)) with (dp + i) in C2 by lia.
      replace (sp + k + (i - k)) with (sp + i) in C2 by lia. exact C2.
  - intros c Hc. rewrite F2 by lia. apply F1. lia.
Qed.

(** The copy loop of the text cell: groups of 64 bytes. *)
Lemma copy_field (raw : list Z) (p : Z) (str : devarray) (dp vl : Z) :
  Forall is_byte raw -> 0 <= vl ->
  0 <= p -> p + vl <= len raw ->
  0 <= dp -> dp + vl <= dsize str ->
  exists str',
    for_each (range3 0 vl 64)
      (fun i str =>
         let copy_size := Z.min 64 (vl - i) in
         bulk_copy_64bytes raw (p + i) str (dp + i) copy_size) str
    = Ok str' /\
    copied raw p str str' dp vl.
Proof.
  intros Hbytes Hvl Hp0 Hp1 Hd0 Hd1.
  pose proof (Z.div_mod (vl + 64 - 1) 64 ltac:(lia)) as Hdm.
  pose proof (Z.mod_pos_bound (vl + 64 - 1) 64 ltac:(lia)) as Hmb.
  destruct (for_each_range3
              (fun k d => copied raw p str d dp (Z.min (64 * k) vl))
              (fun i str0 =>
                 let copy_size := Z.min 64 (vl - i) in
                 bulk_copy_64bytes raw (p + i) str0 (dp + i) copy_size)
              vl 64 str ltac:(lia)) as (str' & E & Hc).
  - intros k d Hk Hd. cbv zeta.
    assert (Hlt : 64 * k < vl) by lia.
    replace (Z.min (64 * k) vl) with (64 * k) in Hd by lia.
    pose proof Hd as (Hsz & _ & _).
    destruct (bulk_copy_64bytes_copied raw (p + 64 * k) d (dp + 64 * k)
                (Z.min 64 (vl - 64 * k)) Hbytes) as (d' & E & Hd'); try lia.
    exists d'. split; [exact E|].
    replace (Z.min (64 * (k + 1)) vl)
      with (64 * k + Z.max 0 (Z.min (Z.min 64 (vl - 64 * k)) 64)) by lia.
    apply copied_trans with d; try lia; assumption.
  - apply copied_refl. lia.
  - exists str'. split; [exact E|].
    replace (Z.min (64 * Z.max 0 ((vl + 64 - 1) / 64)) vl) with vl in Hc by lia.
    exact Hc.
Qed.

(** The scan for the zero byte. *)
Lemma find_null_scan (str : devarray) (dp : Z) (n : nat) :
  forall (a : nat) (dflt : Z),
    0 <= dp -> dp + Z.of_nat (a + n) <= dsize str ->
    Z.of_nat (a + n) <= dflt ->
    exists e,
      find_null (map (fun k => 0 + 1 * Z.of_nat k) (seq a n)) str dp dflt
      = Ok e /\
      Z.of_nat a <= e /\
      (e < Z.of_nat (a + n) \/ e = dflt) /\
      (forall i, Z.of_nat a <= i < e -> i < Z.of_nat (a + n) ->
                 dcell str (dp + i) <> 0) /\
      (e < Z.of_nat (a + n) -> dcell str (dp + e) = 0).
Proof.
  induction n as [|n IH]; intros a dflt Hd0 Hd1 Hdflt.
  - exists dflt. cbn [seq map find_null].
    repeat split; lia.
  - cbn [seq map find_null].
    replace (0 + 1 * Z.of_nat a) with (Z.of_nat a) by lia.
    unfold dev_get. rewrite dev_index_in_range by lia. cbn [bind].
    destruct (Z.eqb_spec (dcell str (dp + Z.of_nat a)) 0) as [Hz | Hnz].
    + exists (Z.of_nat a).
      repeat split; try lia; try (intros _; exact Hz).
    + destruct (IH (S a) dflt Hd0) as (e & E & He0 & He1 & Hnon & Hzero);
        try lia.
      exists e. split; [exact E|].
      replace (S a + n)%nat with (a + S n)%nat in * by lia.
      repeat split; try lia; try assumption.
      intros i Hi Hi'. destruct (Z.eq_dec i (Z.of_nat a)) as [-> | Hne];
        [exact Hnz|]. apply Hnon; lia.
Qed.

Lemma find_null_spec (str : devarray) (dp vl : Z) :
  0 <= vl -> 0 <= dp -> dp + vl <= dsize str ->
  exists e,
    find_null (range vl) str dp vl = Ok e /\
    0 <= e <= vl /\
    (forall i, 0 <= i < e -> dcell str (dp + i) <> 0) /\
    (e < vl -> dcell str (dp + e) = 0).
Proof.
  intros Hvl Hd0 Hd1. unfold range, range3.
  replace ((vl - 0 + 1 - 1) / 1) with vl by (rewrite Z.div_1_r; lia).
  destruct (find_null_scan str dp (Z.to_nat vl) 0%nat vl Hd0)
    as (e & E & He0 & He1 & Hnon & Hzero); try lia.
  exists e. split; [exact E|].
  split; [lia|]. split.
  - intros i Hi. apply Hnon; lia.
  - intros He. apply Hzero. lia.
Qed.

(** The two trimming loops. *)
Lemma trim_start_spec (str : devarray) (dp e : Z) (n : nat) :
  forall s,
    0 <= dp + s -> dp + e <= dsize str -> (Z.to_nat (e - s) <= n)%nat ->
    exists s',
      trim_start n str dp s e = Ok s' /\
      s <= s' /\ (s' <= e \/ s' = s) /\
      (forall i, s <= i < s' -> dcell str (dp + i) <= 32) /\
      (s' < e -> 32 < dcell str (dp + s')).
Proof.
  induction n as [|n IH]; intros s Hd0 Hd1 Hn.
  - exists s. cbn [trim_start]. repeat split; try lia.
  - cbn [trim_start]. destruct (Z.ltb_spec s e) as [Hlt | Hge].
    + unfold dev_get. rewrite dev_index_in_range by lia. cbn [bind].
      destruct (Z.leb_spec (dcell str (dp + s)) 32) as [Hsp | Hch].
      * destruct (IH (s + 1)) as (s' & E & H1 & H2 & H3 & H4); try lia.
        exists s'. split; [exact E|].
        split; [lia|]. split; [lia|]. split; [|exact H4].
        intros i Hi. destruct (Z.eq_dec i s) as [-> | Hne]; [exact Hsp|].
        apply H3. lia.
      * exists s. repeat split; try lia.
    + exists s. repeat split; try lia.
Qed.

Lemma trim_end_spec (str : devarray) (dp s : Z) (n : nat) :
  forall e,
    0 <= dp + s -> dp + e <= dsize str -> (Z.to_nat (e - s) <= n)%nat ->
    exists e',
      trim_end n str dp s e = Ok e' /\
      e' <= e /\ (s <= e' \/ e' = e) /\
      (forall i, e' <= i < e -> dcell str (dp + i) <= 32) /\
      (s < e' -> 32 < dcell str (dp + e' - 1)).
Proof.
  induction n as [|n IH]; intros e Hd0 Hd1 Hn.
  - exists e. cbn [trim_end]. repeat split; try lia.
  - cbn [trim_end]. destruct (Z.gtb_spec e s) as [Hgt | Hle].
    + unfold dev_get. rewrite dev_index_in_range by lia. cbn [bind].
      destruct (Z.leb_spec (dcell str (dp + e - 1)) 32) as [Hsp | Hch].
      * destruct (IH (e - 1)) as (e' & E & H1 & H2 & H3 & H4); try lia.
        exists e'. split; [exact E|].
        split; [lia|]. split; [lia|]. split; [|exact H4].
        intros i Hi. destruct (Z.eq_dec i (e - 1)) as [-> | Hne].
        -- replace (dp + (e - 1)) with (dp + e - 1) by lia. exact Hsp.
        -- apply H3. lia.
      * exists e. repeat split; try lia.
    + exists e. repeat split; try lia.
Qed.

Lemma kernel_text_cell_range_aux (a : kargs) (row col p len_ width j : Z)
  (o : outputs) :
  getitem (col_lengths a) col = Ok width ->
  Forall is_byte (raw_data a) ->
  0 <= len_ -> 0 <= width ->
  let vl := Z.min len_ width in
  let dst_pos := (col * chunk_size a + row) * width in
  let byte := fun i => nth (Z.to_nat (p + i)) (raw_data a) 0 in
  0 <= p -> p + vl <= len (raw_data a) ->
  0 <= dst_pos -> dst_pos + vl <= dsize (str_outputs o) ->
  dev_index (str_null_pos o) (col * chunk_size a + row) = Ok j ->
  exists str np end0 valid_start valid_end,
    kernel_text_cell a row col p len_ o = Ok (mkOut (int_outputs o) str np) /\
    copied (raw_data a) p (str_outputs o) str dst_pos vl /\
    dsize np = dsize (str_null_pos o) /\
    (forall k, k <> j -> dcell np k = dcell (str_null_pos o) k) /\
    dcell np j = (if valid_end >? valid_start
                  then to_int32 (Z.lor (Z.shiftl valid_start 16) valid_end)
                  else 0) /\
    0 <= valid_start <= valid_end /\ valid_end <= end0 <= vl /\
    (forall i, 0 <= i < end0 -> byte i <> 0) /\
    (end0 < vl -> byte end0 = 0) /\
    (forall i, 0 <= i < valid_start -> byte i <= 32) /\
    (forall i, valid_end <= i < end0 -> byte i <= 32) /\
    (valid_start < valid_end ->
     32 < byte valid_start /\ 32 < byte (valid_end - 1)).
Proof.
  intros Hwidth Hbytes Hlen Hw vl dst_pos byte Hp0 Hp1 Hd0 Hd1 Hslot.
  assert (Hvl : 0 <= vl) by (unfold vl; lia).
  unfold kernel_text_cell. rewrite Hwidth. cbn [bind].
  destruct (Z.eqb_spec len_ (-1)); [lia|].
  fold dst_pos. fold vl.
  destruct (copy_field (raw_data a) p (str_outputs o) dst_pos vl)
    as (str & Ecopy & Hcopied); try assumption.
  cbv zeta in Ecopy. rewrite Ecopy. cbn [bind].
  pose proof Hcopied as (Hsize & Hcells & _).
  assert (Hbyte : forall i, 0 <= i < vl -> dcell str (dst_pos + i) = byte i)
    by (intros i Hi; apply Hcells; exact Hi).
  destruct (find_null_spec str dst_pos vl) as (e0 & E0 & He0 & Hnon & Hzero);
    try lia.
  rewrite E0. cbn [bind].
  destruct (trim_start_spec str dst_pos e0 (Z.to_nat e0) 0)
    as (s & Es & Hs1 & Hs2 & Hs3 & Hs4); try lia.
  rewrite Es. cbn [bind].
  destruct (trim_end_spec str dst_pos s (Z.to_nat (e0 - s)) e0)
    as (e & Ee & He1 & He2 & He3 & He4); try lia.
  rewrite Ee. cbn [bind].
  destruct (dev_set_in_range (str_null_pos o) _ j
              (if e >? s then to_int32 (Z.lor (Z.shiftl s 16) e) else 0) Hslot)
    as (np & Eset & Hnps & Hnpj & Hnpf).
  rewrite Eset. cbn [bind].
  exists str, np, e0, s, e.
  split; [reflexivity|]. split; [exact Hcopied|]. split; [exact Hnps|].
  split; [exact Hnpf|]. split; [exact Hnpj|].
  split; [lia|]. split; [lia|].
  split; [intros i Hi; rewrite <- Hbyte by lia; apply Hnon; lia|].
  split; [intros He; rewrite <- Hbyte by lia; apply Hzero; lia|].
  split; [intros i Hi; rewrite <- Hbyte by lia; apply Hs3; lia|].
  split; [intros i Hi; rewrite <- Hbyte by lia; apply He3; lia|].
  intros Hse. split.
  - rewrite <- Hbyte by lia. apply Hs4. lia.
  - rewrite <- Hbyte by lia.
    replace (dst_pos + (e - 1)) with (dst_pos + e - 1) by lia.
    apply He4. lia.
Qed.

(** X15: the text cell of a span that is not NULL, when the span lies in the
    window and the cell's slots lie in the buffers: the first
    [min(length, width)] bytes of the field are copied into the arena, byte
    for byte; the range index receives 0 or [(start << 16) | end], where
    [end0] is the first zero byte (or the number of bytes copied), the bytes
    before [start] and from [end] to [end0] are all at most 32, and a
    non-empty range starts and ends with a byte above 32.  Nothing else
    changes. *)
Theorem kernel_text_cell_range (a : kargs) (row col p len_ width j : Z)
  (o : outputs) :
  getitem (col_lengths a) col = Ok width ->
  Forall is_byte (raw_data a) ->
  0 <= len_ -> 0 <= width ->
  let vl := Z.min len_ width in
  let dst_pos := (col * chunk_size a + row) * width in
  let byte := fun i => nth (Z.to_nat (p + i)) (raw_data a) 0 in
  0 <= p -> p + vl <= len (raw_data a) ->
  0 <= dst_pos -> dst_pos + vl <= dsize (str_outputs o) ->
  dev_index (str_null_pos o) (col * chunk_size a + row) = Ok j ->
  exists str np end0 valid_start valid_end,
    kernel_text_cell a row col p len_ o = Ok (mkOut (int_outputs o) str np) /\
    copied (raw_data a) p (str_outputs o) str dst_pos vl /\
    dsize np = dsize (str_null_pos o) /\
    (forall k, k <> j -> dcell np k = dcell (str_null_pos o) k) /\
    dcell np j = (if valid_end >? valid_start
                  then to_int32 (Z.lor (Z.shiftl valid_start 16) valid_end)
                  else 0) /\
    0 <= valid_start <= valid_end /\ valid_end <= end0 <= vl /\
    (forall i, 0 <= i < end0 -> byte i <> 0) /\
    (end0 < vl -> byte end0 = 0) /\
    (forall i, 0 <= i < valid_start -> byte i <= 32) /\
    (forall i, valid_end <= i < end0 -> byte i <= 32) /\
    (valid_start < valid_end ->
     32 < byte valid_start /\ 32 < byte (valid_end - 1)).
Proof. exact (kernel_text_cell_range_aux a row col p len_ width j o). Qed.

Lemma kernel_text_cell_range_witness :
  exists str np,
    kernel_text_cell (mkArgs pad_field [0] [15] [2] [16] 1 1) 0 0 0 15
      (mkOut (dev_zeros 1) (dev_zeros 16) (dev_zeros 1))
    = Ok (mkOut (dev_zeros 1) str np) /\
    copied pad_field 0 (dev_zeros 16) str 0 15 /\
    dsize np = 1.
Proof.
  destruct (kernel_text_cell_range
              (mkArgs pad_field [0] [15] [2] [16] 1 1) 0 0 0 15 16 0
              (mkOut (dev_zeros 1) (dev_zeros 16) (dev_zeros 1))
              ltac:(reflexivity)
              ltac:(repeat constructor; unfold is_byte; lia)
              ltac:(lia) ltac:(lia) ltac:(lia)
              ltac:(vm_compute; discriminate)
              ltac:(vm_compute; discriminate)
              ltac:(vm_compute; discriminate)
              ltac:(reflexivity))
    as (str & np & e0 & s & e & Hcell & Hcopied & Hsize & _).
  exists str, np. split; [exact Hcell|]. split; [exact Hcopied | exact Hsize].
Defined.

Lemma nth_slice (l : list Z) (lo hi : Z) (n : nat) :
  0 <= lo -> (n < Z.to_nat (hi - lo))%nat ->
  nth n (slice_from (slice_to l hi) lo) 0 = nth (Z.to_nat lo + n) l 0.
Proof.
  intros Hlo Hn. unfold slice_from, slice_to.
  rewrite nth_skipn, nth_firstn.
  destruct (Nat.ltb_spec (Z.to_nat lo + n) (Z.to_nat hi)); [reflexivity | lia].
Qed.

Lemma length_slice (l : list Z) (lo hi : Z) :
  0 <= lo <= hi -> hi <= len l ->
  List.length (slice_from (slice_to l hi) lo) = Z.to_nat (hi - lo).
Proof.
  intros Hlo Hhi. unfold slice_from, slice_to, len in *.
  rewrite length_skipn, length_firstn. lia.
Qed.

Lemma slice_ext (l1 l2 : list Z) (lo1 hi1 lo2 hi2 : Z) :
  0 <= lo1 <= hi1 -> hi1 <= len l1 ->
  0 <= lo2 <= hi2 -> hi2 <= len l2 ->
  hi1 - lo1 = hi2 - lo2 ->
  (forall i, 0 <= i < hi1 - lo1 ->
             nth (Z.to_nat (lo1 + i)) l1 0 = nth (Z.to_nat (lo2 + i)) l2 0) ->
  slice_from (slice_to l1 hi1) lo1 = slice_from (slice_to l2 hi2) lo2.
Proof.
  intros H1 H1' H2 H2' Heq Hnth.
  apply (nth_ext _ _ 0 0).
  - rewrite !length_slice by lia. lia.
  - intros n Hn. rewrite length_slice in Hn by lia.
    rewrite !nth_slice by lia.
    specialize (Hnth (Z.of_nat n) ltac:(lia)).
    replace (Z.to_nat lo1 + n)%nat with (Z.to_nat (lo1 + Z.of_nat n)) by lia.
    replace (Z.to_nat lo2 + n)%nat with (Z.to_nat (lo2 + Z.of_nat n)) by lia.
    exact Hnth.
Qed.

Lemma range_nonneg (n : Z) :
  0 <= n -> range n = map Z.of_nat (seq 0 (Z.to_nat n)).
Proof.
  intros Hn. unfold range, range3.
  replace ((n - 0 + 1 - 1) / 1) with n by (rewrite Z.div_1_r; lia).
  apply map_ext. intros k. lia.
Qed.

Lemma nth_map_range (f : Z -> Z) (n : Z) (k : nat) :
  0 <= n -> (k < Z.to_nat n)%nat ->
  nth k (map f (range n)) 0 = f (Z.of_nat k).
Proof.
  intros Hn Hk. rewrite range_nonneg by exact Hn. rewrite map_map.
  rewrite (nth_indep _ 0 (f (Z.of_nat 0)))
    by (rewrite length_map, length_seq; exact Hk).
  rewrite (map_nth (fun x => f (Z.of_nat x)) (seq 0 (Z.to_nat n)) 0%nat k).
  rewrite seq_nth by exact Hk. reflexivity.
Qed.

Lemma len_map_range (f : Z -> Z) (n : Z) :
  0 <= n -> len (map f (range n)) = n.
Proof.
  intros Hn. rewrite range_nonneg by exact Hn.
  unfold len. rewrite !length_map, length_seq. lia.
Qed.

(** The host's reading of a packed range. *)
Lemma host_string_packed (row_bytes : list Z) (s e : Z) :
  0 <= s < e -> e < 65536 -> s < 32768 ->
  host_string row_bytes (to_int32 (Z.lor (Z.shiftl s 16) e)) =
  match filter (fun b => (32 <=? b) && (b <=? 126))
          (slice_from (slice_to row_bytes e) s) with
  | [] => EmptyString
  | valid_data => strip (decode_utf8 valid_data)
  end.
Proof.
  intros Hs He Hlow.
  rewrite lor_high_low by (change (2 ^ 16) with 65536; lia).
  change (2 ^ 16) with 65536.
  rewrite to_int32_small by lia.
  assert (Hstart : Z.land (Z.shiftr (s * 65536 + e) 16) 65535 = s).
  { rewrite Z.shiftr_div_pow2 by lia. change (2 ^ 16) with 65536.
    change 65535 with (Z.ones 16). rewrite Z.land_ones by lia.
    change (2 ^ 16) with 65536.
    rewrite Z.div_add_l by lia. rewrite (Z.div_small e) by lia.
    rewrite Z.add_0_r. apply Z.mod_small. lia. }
  assert (Hend : Z.land (s * 65536 + e) 65535 = e).
  { change 65535 with (Z.ones 16). rewrite Z.land_ones by lia.
    change (2 ^ 16) with 65536.
    rewrite Z.add_comm, Z.mod_add by lia. apply Z.mod_small. lia. }
  unfold host_string. rewrite Hstart, Hend.
  destruct (Z.eqb_spec (s * 65536 + e) 0); [lia|].
  destruct (Z.gtb_spec (s * 65536 + e) 0); [|lia].
  destruct (Z.gtb_spec e s); [|lia].
  cbv zeta. destruct (filter _ _); reflexivity.
Qed.

(** X16: the text cell and the host's conversion together: for a column of at
    most 32768 bytes, the string that the host makes of the cell is the
    host's conversion (printable ASCII only, stripped) of the bytes of the
    field between [valid_start] and [valid_end]. *)
Theorem text_cell_then_host_string (a : kargs) (row col p len_ width j : Z)
  (o : outputs) :
  getitem (col_lengths a) col = Ok width ->
  Forall is_byte (raw_data a) ->
  0 <= len_ -> 0 <= width <= 32768 ->
  let vl := Z.min len_ width in
  let dst_pos := (col * chunk_size a + row) * width in
  let byte := fun i => nth (Z.to_nat (p + i)) (raw_data a) 0 in
  0 <= p -> p + vl <= len (raw_data a) ->
  0 <= dst_pos -> dst_pos + width <= dsize (str_outputs o) ->
  dev_index (str_null_pos o) (col * chunk_size a + row) = Ok j ->
  exists o' end0 valid_start valid_end,
    kernel_text_cell a row col p len_ o = Ok o' /\
    0 <= valid_start <= valid_end /\ valid_end <= end0 <= vl /\
    (forall i, 0 <= i < end0 -> byte i <> 0) /\
    (end0 < vl -> byte end0 = 0) /\
    (forall i, 0 <= i < valid_start -> byte i <= 32) /\
    (forall i, valid_end <= i < end0 -> byte i <= 32) /\
    (valid_start < valid_end ->
     32 < byte valid_start /\ 32 < byte (valid_end - 1)) /\
    host_string (arena_slot (str_outputs o') dst_pos width)
                (dcell (str_null_pos o') j)
    = match filter (fun b => (32 <=? b) && (b <=? 126))
              (slice_from (slice_to (raw_data a) (p + valid_end))
                          (p + valid_start)) with
      | [] => EmptyString
      | valid_data => strip (decode_utf8 valid_data)
      end.
Proof.
  intros Hwidth Hbytes Hlen Hw vl dst_pos byte Hp0 Hp1 Hd0 Hd1 Hslot.
  destruct (kernel_text_cell_range_aux a row col p len_ width j o Hwidth Hbytes
              Hlen ltac:(lia) Hp0 Hp1 Hd0 ltac:(fold vl dst_pos; lia) Hslot)
    as (str & np & e0 & s & e & Ecell & Hcopied & _ & _ & Hcellj & Hse & Hee
        & Hnon & Hzero & Hlead & Htrail & Hends).
  fold vl dst_pos in Hcopied, Hee, Hzero.
  exists (mkOut (int_outputs o) str np), e0, s, e.
  split; [exact Ecell|]. split; [exact Hse|]. split; [exact Hee|].
  split; [exact Hnon|]. split; [exact Hzero|]. split; [exact Hlead|].
  split; [exact Htrail|]. split; [exact Hends|].
  cbn [str_outputs str_null_pos]. rewrite Hcellj.
  destruct (Z.gtb_spec e s) as [Hgt | Hle].
  - rewrite host_string_packed by lia.
    replace (slice_from (slice_to (arena_slot str dst_pos width) e) s)
      with (slice_from (slice_to (raw_data a) (p + e)) (p + s));
      [reflexivity|].
    unfold arena_slot. apply slice_ext; try lia.
    + rewrite len_map_range by lia. lia.
    + intros i Hi.
      rewrite !Z2Nat.inj_add by lia. rewrite Nat2Z.id || idtac.
      replace (Z.to_nat s + Z.to_nat i)%nat with (Z.to_nat (s + i)) by lia.
      rewrite (nth_map_range (fun i0 => dcell str (dst_pos + i0)) width)
        by lia.
      rewrite Z2Nat.id by lia.
      destruct Hcopied as (_ & Hcells & _).
      rewrite Hcells by lia.
      f_equal. lia.
  - assert (s = e) by lia. subst e.
    unfold slice_from, slice_to.
    rewrite skipn_all2 by (rewrite length_firstn; lia).
    reflexivity.
Qed.

Lemma text_cell_then_host_string_witness :
  exists o' valid_start valid_end,
    kernel_text_cell (mkArgs pad_field [0] [15] [2] [16] 1 1) 0 0 0 15
      (mkOut (dev_zeros 1) (dev_zeros 16) (dev_zeros 1))
    = Ok o' /\
    host_string (arena_slot (str_outputs o') 0 16) (dcell (str_null_pos o') 0)
    = match filter (fun b => (32 <=? b) && (b <=? 126))
              (slice_from (slice_to pad_field (0 + valid_end))
                          (0 + valid_start)) with
      | [] => EmptyString
      | valid_data => strip (decode_utf8 valid_data)
      end.
Proof.
  destruct (text_cell_then_host_string
              (mkArgs pad_field [0] [15] [2] [16] 1 1) 0 0 0 15 16 0
              (mkOut (dev_zeros 1) (dev_zeros 16) (dev_zeros 1))
              ltac:(reflexivity)
              ltac:(repeat constructor; unfold is_byte; lia)
              ltac:(lia) ltac:(lia) ltac:(lia)
              ltac:(vm_compute; discriminate)
              ltac:(vm_compute; discriminate)
              ltac:(vm_compute; discriminate)
              ltac:(reflexivity))
    as (o' & e0 & s & e & Hcell & _ & _ & _ & _ & _ & _ & _ & Hstring).
  exists o', s, e. split; [exact Hcell | exact Hstring].
Defined.

(** ** [_read_and_parse_chunk]: attempts, header flag, end of the stream *)

Lemma attempt_loop_header (k fuel : nat) (chunk_size : Z) :
  forall s s',
    attempt_loop (S k) fuel chunk_size s = Ok s' ->
    header_expected (a_self s') = false /\ (a_parses s < a_parses s')%nat.
Proof.
  induction k as [|k IH]; intros s s' H.
  - cbn [attempt_loop] in H.
    destruct (parse_binary_chunk fuel (a_chunk_array s)
                (header_expected (a_self s))) as [spans|e]; [|discriminate H].
    cbn [bind] in H.
    destruct ((len (fst spans) >? 0) &&
              (last (fst spans) 0 + Z.max 0 (last (snd spans) 0)
                 <=? len (a_chunk_array s))).
    + injection H as <-. cbn.
      destruct (_ <? _); cbn; split; (reflexivity || lia).
    + destruct (io_read (a_io s) chunk_size) as [chunk io].
      destruct (len chunk =? 0); injection H as <-; cbn; split;
        (reflexivity || lia).
  - remember (S k) as k1. cbn [attempt_loop] in H.
    destruct (parse_binary_chunk fuel (a_chunk_array s)
                (header_expected (a_self s))) as [spans|e]; [|discriminate H].
    cbn [bind] in H.
    destruct ((len (fst spans) >? 0) &&
              (last (fst spans) 0 + Z.max 0 (last (snd spans) 0)
                 <=? len (a_chunk_array s))).
    + injection H as <-. cbn.
      destruct (_ <? _); cbn; split; (reflexivity || lia).
    + destruct (io_read (a_io s) chunk_size) as [chunk io].
      destruct (len chunk =? 0).
      * injection H as <-. cbn. split; (reflexivity || lia).
      * subst k1. apply IH in H. cbn in H. split; [apply H | lia].
Qed.

(** X17: when [_read_and_parse_chunk] returns, it has called the segmenter at
    most 3 times; it returns a chunk only after at least one call; and after
    any call the processor no longer expects the stream header. *)
Theorem read_and_parse_chunk_calls (fuel : nat) (columns : list ColumnInfo)
  (config : ChunkConfig) (self self' : processor) (copy_data io' : BytesIO)
  (chunk_size : Z) (r : option chunk_data) (parses : nat) :
  read_and_parse_chunk fuel columns config self copy_data chunk_size
  = Ok (r, self', io', parses) ->
  (parses <= 3)%nat /\
  (parses = 0%nat -> r = None) /\
  ((1 <= parses)%nat -> header_expected self' = false).
Proof.
  unfold read_and_parse_chunk.
  match goal with
  | |- context [match ?start with _ => _ end] =>
      destruct start as [[[chunk_array|] self0] io0]
  end.
  - destruct (attempt_loop max_attempts fuel chunk_size
                (mkAttempt self0 io0 chunk_array ([], []) 0)) as [s|e] eqn:Hloop;
      [|discriminate].
    pose proof (attempt_loop_parses _ _ _ _ _ Hloop) as Hmax.
    apply attempt_loop_header in Hloop. destruct Hloop as [Hhdr Hmin].
    cbn in Hmax, Hmin. cbn [bind].
    destruct (a_spans s) as [offsets lengths].
    destruct (len offsets =? 0).
    + intros H. injection H as <- <- _ <-.
      split; [exact Hmax|]. split; [reflexivity | intros _; exact Hhdr].
    + destruct (Nat.eqb (List.length columns) 0); [discriminate|].
      intros H. injection H as <- <- _ <-.
      split; [exact Hmax|]. split; [lia | intros _; exact Hhdr].
  - intros H. injection H as <- _ _ <-.
    split; [lia|]. split; [reflexivity | lia].
Qed.

Lemma read_and_parse_chunk_calls_witness :
  (1 <= 3)%nat /\
  (1%nat = 0%nat -> Some (mkChunk scenario_stream [25; 33] [4; 5] 1) = None) /\
  ((1 <= 1)%nat -> header_expected (mkProc false (Some [255; 255])) = false).
Proof.
  apply (read_and_parse_chunk_calls 100 scenario_columns default_config
           (mkProc true None) (mkProc false (Some [255; 255]))
           (mkIO scenario_stream 0) (mkIO scenario_stream 40) 524288
           (Some (mkChunk scenario_stream [25; 33] [4; 5] 1)) 1%nat).
  vm_compute. reflexivity.
Defined.

Lemma io_read_at_end (data : list Z) (n : Z) :
  io_read (mkIO data (len data)) n = ([], mkIO data (len data)).
Proof.
  unfold io_read, slice_to, slice_from. cbn [getvalue tell].
  rewrite skipn_all2 by (unfold len; lia).
  rewrite firstn_nil. cbn. rewrite Z.add_0_r. reflexivity.
Qed.

(** X18: called at the end of a stream that is not empty, with no bytes
    carried over, [_read_and_parse_chunk] rewinds the stream and returns
    exactly what it returns at the start of the stream.  On an empty stream
    it returns [None] without calling the segmenter and leaves the processor
    and the stream as they are. *)
Theorem read_and_parse_chunk_rewinds (fuel : nat) (columns : list ColumnInfo)
  (config : ChunkConfig) (expected : bool) (data : list Z) (chunk_size : Z) :
  (0 < len data ->
   read_and_parse_chunk fuel columns config (mkProc expected None)
     (mkIO data (len data)) chunk_size
   = read_and_parse_chunk fuel columns config (mkProc expected None)
       (mkIO data 0) chunk_size) /\
  read_and_parse_chunk fuel columns config (mkProc expected None)
    (mkIO [] 0) chunk_size
  = Ok (None, mkProc expected None, mkIO [] 0, 0%nat).
Proof.
  split.
  - intros Hdata. unfold read_and_parse_chunk at 1.
    cbn [remaining_data tell]. rewrite io_read_at_end.
    change (len [] =? 0) with true. cbv iota.
    destruct (Z.gtb_spec (len data) 0); [|lia].
    unfold io_seek. cbn [getvalue].
    unfold read_and_parse_chunk. cbn [remaining_data tell].
    destruct (io_read (mkIO data 0) chunk_size) as [chunk io] eqn:Hread.
    destruct (len chunk =? 0) eqn:Hempty.
    + change (0 >? 0) with false. cbv iota.
      unfold io_read in Hread. injection Hread as <- <-.
      cbn [getvalue tell] in *. apply Z.eqb_eq in Hempty.
      rewrite Hempty. reflexivity.
    + reflexivity.
  - unfold read_and_parse_chunk. cbn [remaining_data tell].
    unfold io_read, slice_to, slice_from. cbn [getvalue tell].
    rewrite skipn_nil, firstn_nil. reflexivity.
Qed.

Lemma read_and_parse_chunk_rewinds_witness :
  read_and_parse_chunk 100 scenario_columns default_config (mkProc false None)
    (mkIO scenario_stream (len scenario_stream)) 524288
  = read_and_parse_chunk 100 scenario_columns default_config (mkProc false None)
      (mkIO scenario_stream 0) 524288.
Proof.
  apply (proj1 (read_and_parse_chunk_rewinds 100 scenario_columns
                  default_config false scenario_stream 524288)).
  vm_compute. reflexivity.
Defined.

(** ** The threads of the launch *)

Lemma range_nonpos (n : Z) : n <= 0 -> range n = [].
Proof.
  intros Hn. unfold range, range3.
  replace ((n - 0 + 1 - 1) / 1) with n by (rewrite Z.div_1_r; lia).
  replace (Z.to_nat n) with 0%nat by lia. reflexivity.
Qed.




(** ** [process_table] at its edges *)

(** X20: a table with a column whose type the layout rules do not know is
    rejected as a whole, with the [ValueError] of the layout rules, whatever
    the data and before any of it is segmented. *)
Theorem process_table_rejects_unsupported_column (fuel : nat) (config : ChunkConfig)
  (buffer_data : list Z) (before after : list ColumnInfo) (c : ColumnInfo) :
  (get_column_type (type c) = Err (unsupported (type c)) \/
   get_column_length (type c) (length c) = Err (unsupported (type c))) ->
  exists t',
    process_table fuel config buffer_data (before ++ c :: after)
    = Err (unsupported t').
Proof.
  intros Hc. unfold process_table.
  destruct (Nat.eqb_spec (List.length (before ++ c :: after)) 0) as [E | _].
  { rewrite List.length_app in E. cbn in E. lia. }
  unfold initialize_device_buffers.
  destruct (collect_layout_unsupported before after c Hc (mkLayout [] [] 0 0 0))
    as (t' & E).
  rewrite E. exists t'. reflexivity.
Qed.

Lemma dict_init_no_chunks (columns : list ColumnInfo) :
  forall d, final_results d = [] -> final_results (dict_init columns d) = [].
Proof.
  induction columns as [|col columns IH]; intros d Hd; [exact Hd|].
  cbn [dict_init]. apply IH.
  destruct (dict_mem (name col) d); [exact Hd|].
  clear IH. induction d as [|[k chunks] d IHd]; [reflexivity|].
  cbn [app final_results] in *.
  destruct chunks as [|[a|l] chunks]; [apply IHd; exact Hd | discriminate..].
Qed.

Lemma adjusted_chunk_size_bounds (total_size ncols rows_per_chunk : Z) :
  524288 <= adjusted_chunk_size total_size ncols rows_per_chunk <= 2097152.
Proof.
  unfold adjusted_chunk_size.
  set (base := total_size / ncols * rows_per_chunk).
  change (512 * 1024) with 524288. change (2 * 1024 * 1024) with 2097152.
  cbv zeta.
  destruct (Z.ltb_spec base 524288); [lia|].
  destruct (Z.gtb_spec base 2097152); [lia|].
  assert (Hbits : bit_length (base - 1) = Z.log2_up base).
  { unfold bit_length.
    destruct (Z.eqb_spec (base - 1) 0); [lia|].
    rewrite Z.abs_eq by lia. rewrite Z.log2_up_eqn by lia.
    replace (Z.pred base) with (base - 1) by lia. lia. }
  rewrite Hbits.
  assert (H19 : 19 <= Z.log2_up base)
    by (change 19 with (Z.log2_up 524288); apply Z.log2_up_le_mono; lia).
  assert (H21 : Z.log2_up base <= 21)
    by (change 21 with (Z.log2_up 2097152); apply Z.log2_up_le_mono; lia).
  rewrite Z.shiftl_mul_pow2, Z.mul_1_l by lia.
  split.
  - change 524288 with (2 ^ 19). apply Z.pow_le_mono_r; lia.
  - change 2097152 with (2 ^ 21). apply Z.pow_le_mono_r; lia.
Qed.

Lemma io_read_all (data : list Z) (n : Z) :
  len data <= n -> io_read (mkIO data 0) n = (data, mkIO data (len data)).
Proof.
  intros Hn. unfold io_read, slice_to, slice_from. cbn [getvalue tell].
  change (Z.to_nat 0) with 0%nat. cbn [skipn].
  rewrite firstn_all2 by (unfold len in Hn; lia). reflexivity.
Qed.

Lemma parse_binary_chunk_no_rows (flags ext tail : list Z) (fuel : nat) :
  stops tail -> len flags = 4 -> len ext < 2147483648 -> (0 < fuel)%nat ->
  parse_binary_chunk fuel
    (header ++ flags ++ be32_bytes (len ext) ++ ext ++ tail) true
  = Ok ([], []).
Proof.
  intros Hstop Hflags Hext Hfuel. unfold parse_binary_chunk.
  rewrite skip_header_complete by assumption. cbn [bind].
  set (pre := header ++ flags ++ be32_bytes (len ext) ++ ext).
  assert (Hpre : len pre = 19 + len ext).
  { unfold pre. rewrite !len_app, Hflags.
    change (len header) with 11. change (len (be32_bytes (len ext))) with 4.
    lia. }
  rewrite <- Hpre.
  rewrite (parse_tuples_rows [] fuel _ pre tail [] []).
  - reflexivity.
  - unfold pre. rewrite <- !app_assoc. reflexivity.
  - constructor.
  - exact Hstop.
  - exact Hfuel.
Qed.

(** X21: a table without rows: the stream is the signature, the flags, the
    extension area and then the trailer (or nothing that could be a row).
    [process_table] returns the empty dict: no column appears in the result,
    not even with an empty array. *)
Theorem process_table_no_rows (fuel : nat) (config : ChunkConfig)
  (flags ext tail : list Z) (columns : list ColumnInfo) (b : buffers) :
  stops tail -> len flags = 4 ->
  len (header ++ flags ++ be32_bytes (len ext) ++ ext ++ tail) <= 524288 ->
  (0 < fuel)%nat -> columns <> [] ->
  initialize_device_buffers columns (rows_per_chunk config) = Ok b ->
  process_table fuel config
    (header ++ flags ++ be32_bytes (len ext) ++ ext ++ tail) columns
  = Ok [].
Proof.
  intros Hstop Hflags Hsize Hfuel Hcols Hinit.
  set (data := header ++ flags ++ be32_bytes (len ext) ++ ext ++ tail) in *.
  assert (Hlen : 19 <= len data).
  { unfold data. rewrite !len_app, Hflags.
    change (len header) with 11. change (len (be32_bytes (len ext))) with 4.
    pose proof (len_nonneg ext). pose proof (len_nonneg tail). lia. }
  assert (Hext : len ext < 2147483648).
  { unfold data in Hsize. rewrite !len_app in Hsize.
    pose proof (len_nonneg header). pose proof (len_nonneg flags).
    pose proof (len_nonneg (be32_bytes (len ext))).
    pose proof (len_nonneg tail). lia. }
  unfold process_table.
  destruct (Nat.eqb_spec (List.length columns) 0) as [E | _].
  { destruct columns; [contradiction | discriminate]. }
  rewrite Hinit. cbn [bind]. cbv zeta.
  set (cs := adjusted_chunk_size _ _ _).
  pose proof (adjusted_chunk_size_bounds (len data)
                (Z.of_nat (List.length columns)) (rows_per_chunk config)) as Hcs.
  fold cs in Hcs.
  assert (Hone : (len data + cs - 1) / cs = 1).
  { symmetry. apply (Z.div_unique _ _ 1 (len data - 1)); lia. }
  rewrite Hone.
  destruct (Z.le_gt_cases (Z.min (num_chunks config) 1) 0) as [Hnone | Hsome].
  - rewrite range_nonpos by exact Hnone. cbn [for_each bind t_results].
    f_equal. apply dict_init_no_chunks. reflexivity.
  - replace (Z.min (num_chunks config) 1) with 1 by lia.
    change (range 1) with [0]. cbn [for_each].
    unfold process_chunk. cbn [t_done t_self t_io].
    unfold read_and_parse_chunk. cbn [remaining_data tell].
    rewrite io_read_all by lia.
    destruct (Z.eqb_spec (len data) 0); [lia|].
    unfold max_attempts. cbn [attempt_loop a_chunk_array a_self header_expected].
    unfold data at 1.
    rewrite parse_binary_chunk_no_rows by assumption.
    cbn [bind fst snd]. change (len [] >? 0) with false. cbn [andb a_io].
    fold data. rewrite io_read_at_end. change (len [] =? 0) with true.
    cbn [a_spans a_self a_io a_parses bind].
    change (len [] =? 0) with true.
    cbn [bind t_results t_buffers t_total_rows].
    f_equal. apply dict_init_no_chunks. reflexivity.
Qed.

Lemma process_table_rejects_unsupported_column_witness :
  exists t',
    process_table 100 default_config scenario_stream
      ([mkColumn "id" "integer" None] ++ mkColumn "flag" "boolean" None :: [])
    = Err (unsupported t').
Proof.
  apply (process_table_rejects_unsupported_column 100 default_config
           scenario_stream [mkColumn "id" "integer" None] []
           (mkColumn "flag" "boolean" None)).
  left. reflexivity.
Defined.

Lemma process_table_no_rows_witness :
  process_table 1 default_config
    (header ++ [0; 0; 0; 0] ++ be32_bytes (len []) ++ [] ++ [255; 255])
    pad_columns
  = Ok [].
Proof.
  eapply (process_table_no_rows 1 default_config [0; 0; 0; 0] [] [255; 255]
            pad_columns).
  - right. exists []. reflexivity.
  - reflexivity.
  - vm_compute. discriminate.
  - lia.
  - discriminate.
  - reflexivity.
Defined.
